(** * ModernTypewriter: a shallow embedding of [js/typewriter.js]

    The widget cycles through a list of words, typing and deleting them one
    character at a time.  The embedding follows the class method by method:
    JavaScript strings are sequences of UTF-16 code units, integer-valued
    numbers (indices, lengths, pixel widths) are [Z], durations are binary64
    floats, and the methods run in a small state-and-exception monad over the
    widget record. *)

From Stdlib Require Import ZArith NArith List Bool Lia String Ascii PrimFloat.
Import ListNotations.
Open Scope Z_scope.
Set Warnings "-inexact-float".

(** ** JavaScript strings and arrays *)

Module JS.

Definition codeunit := N.
Definition jsstring := list codeunit.

(** A string literal of the source, as code units. *)
Definition lit (s : string) : jsstring :=
  map N_of_ascii (list_ascii_of_string s).

(** [s.length] *)
Definition length {A} (s : list A) : Z := Z.of_nat (List.length s).

(** [a[i]]: [undefined] (here [None]) outside the array. *)
Definition index {A} (a : list A) (i : Z) : option A :=
  if i <? 0 then None else nth_error a (Z.to_nat i).

Definition clamp (k len : Z) : Z := Z.min (Z.max k 0) len.

(** [s.substring(start, end)]: both arguments are clamped to
    [0 .. s.length] and swapped when out of order. *)
Definition substring (s : jsstring) (start end_ : Z) : jsstring :=
  let len := length s in
  let a := clamp start len in
  let b := clamp end_ len in
  let from := Z.min a b in
  let to := Z.max a b in
  firstn (Z.to_nat (to - from)) (skipn (Z.to_nat from) s).

(** [a % b] on integers: the sign follows the dividend. *)
Definition rem (a b : Z) : Z := Z.rem a b.

(** WhiteSpace and LineTerminator code points, the ones
    [String.prototype.trim] strips. *)
Definition isWhiteSpace (c : codeunit) : bool :=
  ((9 <=? c) && (c <=? 13) || (c =? 32) || (c =? 160) || (c =? 5760)
   || (8192 <=? c) && (c <=? 8202) || (c =? 8232) || (c =? 8233)
   || (c =? 8239) || (c =? 8287) || (c =? 12288) || (c =? 65279))%N.

Fixpoint dropWhile {A} (p : A -> bool) (l : list A) : list A :=
  match l with
  | [] => []
  | x :: r => if p x then dropWhile p r else l
  end.

Definition trimStart (s : jsstring) : jsstring := dropWhile isWhiteSpace s.
Definition trimEnd (s : jsstring) : jsstring :=
  rev (dropWhile isWhiteSpace (rev s)).

(** [s.trim()] *)
Definition trim (s : jsstring) : jsstring := trimEnd (trimStart s).

(** [s.split(sep)] for a one-unit separator; the empty string splits into
    one empty piece. *)
Fixpoint split (sep : codeunit) (s : jsstring) : list jsstring :=
  match s with
  | [] => [[]]
  | c :: r =>
      if (c =? sep)%N then [] :: split sep r
      else match split sep r with
           | piece :: pieces => (c :: piece) :: pieces
           | [] => [[c]]
           end
  end.

(** [a.join(sep)] *)
Fixpoint join (sep : jsstring) (a : list jsstring) : jsstring :=
  match a with
  | [] => []
  | [x] => x
  | x :: r => x ++ sep ++ join sep r
  end.

Definition comma : codeunit := 44%N.

(** [/[.,!?;:]/.test(c)] on a one-unit string. *)
Definition isPunctuation (c : codeunit) : bool :=
  ((c =? 46) || (c =? 44) || (c =? 33) || (c =? 63) || (c =? 59)
   || (c =? 58))%N.

(** [!s] for a string: only the empty string is falsy. *)
Definition falsy (s : jsstring) : bool :=
  match s with [] => true | _ => false end.

End JS.

Import JS.

(** ** Parsing the word list *)

(** [parseWords(dataString)], lines 50-53. *)
Definition parseWords (dataString : jsstring) : list jsstring :=
  if falsy dataString then []
  else filter (fun word => JS.length word >? 0)
         (map (fun word => trim word) (split comma dataString)).

(** The word list as section 4.1 of the specification words it: split on
    comma, trim each piece, drop the empty results. *)
Definition parseWordList (raw : jsstring) : list jsstring :=
  filter (fun piece => negb (falsy piece)) (map trim (split comma raw)).

(** ** The widget and what it touches *)

(** The effective configuration, [this.options]. *)
Record Options := {
  typingSpeed : float;
  deletingSpeed : float;
  pauseDuration : float;
  cursorChar : jsstring;
  cursorBlinkSpeed : float;
  responsiveBreakpoint : Z;
  maxWordLength : Z
}.

(** The caller's [options] argument: any subset of the keys. *)
Record Overrides := {
  givenTypingSpeed : option float;
  givenDeletingSpeed : option float;
  givenPauseDuration : option float;
  givenCursorChar : option jsstring;
  givenCursorBlinkSpeed : option float;
  givenResponsiveBreakpoint : option Z;
  givenMaxWordLength : option Z
}.

Definition noOverrides : Overrides :=
  {| givenTypingSpeed := None; givenDeletingSpeed := None;
     givenPauseDuration := None; givenCursorChar := None;
     givenCursorBlinkSpeed := None; givenResponsiveBreakpoint := None;
     givenMaxWordLength := None |}.

Definition orDefault {A} (given : option A) (dflt : A) : A :=
  match given with Some v => v | None => dflt end.

(** [{ typingSpeed: 100, ..., ...options }], lines 18-27. *)
Definition mergeOptions (given : Overrides) : Options :=
  {| typingSpeed := orDefault (givenTypingSpeed given) 100%float;
     deletingSpeed := orDefault (givenDeletingSpeed given) 50%float;
     pauseDuration := orDefault (givenPauseDuration given) 2000%float;
     cursorChar := orDefault (givenCursorChar given) (lit "|");
     cursorBlinkSpeed := orDefault (givenCursorBlinkSpeed given) 500%float;
     responsiveBreakpoint := orDefault (givenResponsiveBreakpoint given) 768;
     maxWordLength := orDefault (givenMaxWordLength given) 20 |}.

(** A child of the host container that is, or holds, a [.sr-only] node:
    [SrText s] is a [div.sr-only] as [setupAccessibility] creates it (lines
    61-65), [s] its [textContent]; [PageChild] is a child of the page's own
    that has the class; [PageNested] is a child of the page's own that does
    not have the class but has a descendant with it. *)
Inductive SrOnlyNode :=
| SrText (textContent : jsstring)
| PageChild
| PageNested.

(** The host container.  [textChild] is the [textContent] of its first
    [.typewriter-text] descendant and [cursorChild] the attributes of its first
    [.typewriter-cursor] descendant, [None] when there is no such node;
    [srOnlyNodes] are, in document order, its children that are or hold a
    [.sr-only] node. *)
Record Element := {
  datasetWords : option jsstring;
  textChild : option jsstring;
  cursorChild : option (list (string * string));
  classList : list string;
  attributes : list (string * string);
  style : list (string * string);
  srOnlyNodes : list SrOnlyNode
}.

(** The callbacks the widget hands to [setTimeout]. *)
Inductive Callback :=
| CbStart      (* () => this.start(), line 47 *)
| CbAnimate    (* () => this.animate(), lines 166-181 *)
| CbLater.     (* later, inside debounce, line 228 *)

Record Timer := {
  timerId : Z;
  callback : Callback;
  delay : float
}.

(** The part of [window], [document] and [console] the widget uses. *)
Record Window := {
  innerWidth : Z;
  resizeListener : bool;
  timers : list Timer;
  nextTimer : Z;
  frames : list Z;
  nextFrame : Z;
  console : list string
}.

(** One instance: the fields of [this], the closure variable [timeout] of its
    debounced handler, and the window it lives in. *)
Record Widget := {
  element : Element;
  words : list jsstring;
  originalWords : option (list jsstring);
  currentIndex : Z;
  charIndex : Z;
  isDeleting : bool;
  isRunning : bool;
  animationId : option Z;
  resizeHandler : bool;
  debounceTimeout : option Z;
  options : Options;
  window : Window
}.

(** *** Field updates *)

Definition set_typing (t d p : float) (o : Options) : Options :=
  {| typingSpeed := t; deletingSpeed := d; pauseDuration := p;
     cursorChar := cursorChar o; cursorBlinkSpeed := cursorBlinkSpeed o;
     responsiveBreakpoint := responsiveBreakpoint o;
     maxWordLength := maxWordLength o |}.

Definition set_textChild (t : option jsstring) (e : Element) : Element :=
  {| datasetWords := datasetWords e; textChild := t;
     cursorChild := cursorChild e; classList := classList e;
     attributes := attributes e; style := style e;
     srOnlyNodes := srOnlyNodes e |}.

Definition set_cursorChild (c : option (list (string * string))) (e : Element)
  : Element :=
  {| datasetWords := datasetWords e; textChild := textChild e;
     cursorChild := c; classList := classList e;
     attributes := attributes e; style := style e;
     srOnlyNodes := srOnlyNodes e |}.

Definition set_classList (l : list string) (e : Element) : Element :=
  {| datasetWords := datasetWords e; textChild := textChild e;
     cursorChild := cursorChild e; classList := l;
     attributes := attributes e; style := style e;
     srOnlyNodes := srOnlyNodes e |}.

Definition set_attributes (l : list (string * string)) (e : Element) : Element :=
  {| datasetWords := datasetWords e; textChild := textChild e;
     cursorChild := cursorChild e; classList := classList e;
     attributes := l; style := style e;
     srOnlyNodes := srOnlyNodes e |}.

Definition set_style (l : list (string * string)) (e : Element) : Element :=
  {| datasetWords := datasetWords e; textChild := textChild e;
     cursorChild := cursorChild e; classList := classList e;
     attributes := attributes e; style := l;
     srOnlyNodes := srOnlyNodes e |}.

Definition set_srOnlyNodes (l : list SrOnlyNode) (e : Element) : Element :=
  {| datasetWords := datasetWords e; textChild := textChild e;
     cursorChild := cursorChild e; classList := classList e;
     attributes := attributes e; style := style e;
     srOnlyNodes := l |}.

Definition set_innerWidth (x : Z) (g : Window) : Window :=
  {| innerWidth := x; resizeListener := resizeListener g; timers := timers g;
     nextTimer := nextTimer g; frames := frames g; nextFrame := nextFrame g;
     console := console g |}.

Definition set_resizeListener (b : bool) (g : Window) : Window :=
  {| innerWidth := innerWidth g; resizeListener := b; timers := timers g;
     nextTimer := nextTimer g; frames := frames g; nextFrame := nextFrame g;
     console := console g |}.

Definition set_timers (l : list Timer) (g : Window) : Window :=
  {| innerWidth := innerWidth g; resizeListener := resizeListener g;
     timers := l; nextTimer := nextTimer g; frames := frames g;
     nextFrame := nextFrame g; console := console g |}.

Definition set_nextTimer (n : Z) (g : Window) : Window :=
  {| innerWidth := innerWidth g; resizeListener := resizeListener g;
     timers := timers g; nextTimer := n; frames := frames g;
     nextFrame := nextFrame g; console := console g |}.

Definition set_frames (l : list Z) (g : Window) : Window :=
  {| innerWidth := innerWidth g; resizeListener := resizeListener g;
     timers := timers g; nextTimer := nextTimer g; frames := l;
     nextFrame := nextFrame g; console := console g |}.

Definition set_nextFrame (n : Z) (g : Window) : Window :=
  {| innerWidth := innerWidth g; resizeListener := resizeListener g;
     timers := timers g; nextTimer := nextTimer g; frames := frames g;
     nextFrame := n; console := console g |}.

Definition set_console (l : list string) (g : Window) : Window :=
  {| innerWidth := innerWidth g; resizeListener := resizeListener g;
     timers := timers g; nextTimer := nextTimer g; frames := frames g;
     nextFrame := nextFrame g; console := l |}.

Definition set_element (e : Element) (w : Widget) : Widget :=
  {| element := e; words := words w; originalWords := originalWords w;
     currentIndex := currentIndex w; charIndex := charIndex w;
     isDeleting := isDeleting w; isRunning := isRunning w;
     animationId := animationId w; resizeHandler := resizeHandler w;
     debounceTimeout := debounceTimeout w; options := options w;
     window := window w |}.

Definition set_words (l : list jsstring) (w : Widget) : Widget :=
  {| element := element w; words := l; originalWords := originalWords w;
     currentIndex := currentIndex w; charIndex := charIndex w;
     isDeleting := isDeleting w; isRunning := isRunning w;
     animationId := animationId w; resizeHandler := resizeHandler w;
     debounceTimeout := debounceTimeout w; options := options w;
     window := window w |}.

Definition set_originalWords (l : option (list jsstring)) (w : Widget) : Widget :=
  {| element := element w; words := words w; originalWords := l;
     currentIndex := currentIndex w; charIndex := charIndex w;
     isDeleting := isDeleting w; isRunning := isRunning w;
     animationId := animationId w; resizeHandler := resizeHandler w;
     debounceTimeout := debounceTimeout w; options := options w;
     window := window w |}.

Definition set_currentIndex (i : Z) (w : Widget) : Widget :=
  {| element := element w; words := words w; originalWords := originalWords w;
     currentIndex := i; charIndex := charIndex w;
     isDeleting := isDeleting w; isRunning := isRunning w;
     animationId := animationId w; resizeHandler := resizeHandler w;
     debounceTimeout := debounceTimeout w; options := options w;
     window := window w |}.

Definition set_charIndex (i : Z) (w : Widget) : Widget :=
  {| element := element w; words := words w; originalWords := originalWords w;
     currentIndex := currentIndex w; charIndex := i;
     isDeleting := isDeleting w; isRunning := isRunning w;
     animationId := animationId w; resizeHandler := resizeHandler w;
     debounceTimeout := debounceTimeout w; options := options w;
     window := window w |}.

Definition set_isDeleting (b : bool) (w : Widget) : Widget :=
  {| element := element w; words := words w; originalWords := originalWords w;
     currentIndex := currentIndex w; charIndex := charIndex w;
     isDeleting := b; isRunning := isRunning w;
     animationId := animationId w; resizeHandler := resizeHandler w;
     debounceTimeout := debounceTimeout w; options := options w;
     window := window w |}.

Definition set_isRunning (b : bool) (w : Widget) : Widget :=
  {| element := element w; words := words w; originalWords := originalWords w;
     currentIndex := currentIndex w; charIndex := charIndex w;
     isDeleting := isDeleting w; isRunning := b;
     animationId := animationId w; resizeHandler := resizeHandler w;
     debounceTimeout := debounceTimeout w; options := options w;
     window := window w |}.

Definition set_animationId (a : option Z) (w : Widget) : Widget :=
  {| element := element w; words := words w; originalWords := originalWords w;
     currentIndex := currentIndex w; charIndex := charIndex w;
     isDeleting := isDeleting w; isRunning := isRunning w;
     animationId := a; resizeHandler := resizeHandler w;
     debounceTimeout := debounceTimeout w; options := options w;
     window := window w |}.

Definition set_resizeHandler (b : bool) (w : Widget) : Widget :=
  {| element := element w; words := words w; originalWords := originalWords w;
     currentIndex := currentIndex w; charIndex := charIndex w;
     isDeleting := isDeleting w; isRunning := isRunning w;
     animationId := animationId w; resizeHandler := b;
     debounceTimeout := debounceTimeout w; options := options w;
     window := window w |}.

Definition set_debounceTimeout (t : option Z) (w : Widget) : Widget :=
  {| element := element w; words := words w; originalWords := originalWords w;
     currentIndex := currentIndex w; charIndex := charIndex w;
     isDeleting := isDeleting w; isRunning := isRunning w;
     animationId := animationId w; resizeHandler := resizeHandler w;
     debounceTimeout := t; options := options w;
     window := window w |}.

Definition set_options (o : Options) (w : Widget) : Widget :=
  {| element := element w; words := words w; originalWords := originalWords w;
     currentIndex := currentIndex w; charIndex := charIndex w;
     isDeleting := isDeleting w; isRunning := isRunning w;
     animationId := animationId w; resizeHandler := resizeHandler w;
     debounceTimeout := debounceTimeout w; options := o;
     window := window w |}.

Definition set_window (g : Window) (w : Widget) : Widget :=
  {| element := element w; words := words w; originalWords := originalWords w;
     currentIndex := currentIndex w; charIndex := charIndex w;
     isDeleting := isDeleting w; isRunning := isRunning w;
     animationId := animationId w; resizeHandler := resizeHandler w;
     debounceTimeout := debounceTimeout w; options := options w;
     window := g |}.

(** ** Methods run in a state-and-exception monad *)

Inductive Error := TypeError | NotFoundError.

(** A call either returns a value or throws; both leave a widget behind. *)
Inductive Result (A : Type) :=
| Ok (a : A) (w : Widget)
| Throw (e : Error) (w : Widget).

Arguments Ok {A} a w.
Arguments Throw {A} e w.

Definition M (A : Type) : Type := Widget -> Result A.

Definition ret {A} (a : A) : M A := fun w => Ok a w.

Definition bind {A B} (m : M A) (k : A -> M B) : M B :=
  fun w => match m w with
           | Ok a w' => k a w'
           | Throw e w' => Throw e w'
           end.

Definition get : M Widget := fun w => Ok w w.
Definition modify (f : Widget -> Widget) : M unit := fun w => Ok tt (f w).
Definition throw {A} (e : Error) : M A := fun w => Throw e w.

Declare Scope js_scope.
Delimit Scope js_scope with js.
Notation "x <- c1 ;; c2" := (bind c1 (fun x => c2))
  (at level 61, c1 at next level, right associativity) : js_scope.
Notation "c1 ;; c2" := (bind c1 (fun _ => c2))
  (at level 61, right associativity) : js_scope.
Open Scope js_scope.

(** The widget a call leaves behind, returned or thrown. *)
Definition after {A} (r : Result A) : Widget :=
  match r with Ok _ w => w | Throw _ w => w end.

Definition returns {A} (r : Result A) : bool :=
  match r with Ok _ _ => true | Throw _ _ => false end.

(** *** The DOM and timer calls the class makes *)

Definition onElement (f : Element -> Element) : M unit :=
  modify (fun w => set_element (f (element w)) w).

Definition onWindow (f : Window -> Window) : M unit :=
  modify (fun w => set_window (f (window w)) w).

Definition onOptions (f : Options -> Options) : M unit :=
  modify (fun w => set_options (f (options w)) w).

Definition assocSet (k v : string) (l : list (string * string))
  : list (string * string) :=
  (k, v) :: filter (fun kv => negb (String.eqb (fst kv) k)) l.

(** [classList.add(c)] *)
Definition tokensAdd (c : string) (l : list string) : list string :=
  if existsb (String.eqb c) l then l else l ++ [c].

(** [classList.remove(c)] *)
Definition tokensRemove (c : string) (l : list string) : list string :=
  filter (fun x => negb (String.eqb c x)) l.

(** [this.textElement.textContent = s]; a [TypeError] when the node is null. *)
Definition setTextContent (s : jsstring) : M unit :=
  w <- get ;;
  match textChild (element w) with
  | Some _ => onElement (set_textChild (Some s))
  | None => throw TypeError
  end.

(** [this.cursorElement.setAttribute(k, v)] *)
Definition cursorSetAttribute (k v : string) : M unit :=
  w <- get ;;
  match cursorChild (element w) with
  | Some attrs => onElement (set_cursorChild (Some (assocSet k v attrs)))
  | None => throw TypeError
  end.

(** [s.substring(a, b)] where [s] may be [undefined]. *)
Definition substringOf (s : option jsstring) (a b : Z) : M jsstring :=
  match s with
  | Some s => ret (substring s a b)
  | None => throw TypeError
  end.

(** Reading a property of [v], which may be [undefined]. *)
Definition defined {A} (v : option A) : M A :=
  match v with
  | Some x => ret x
  | None => throw TypeError
  end.

Definition setTimeout (cb : Callback) (ms : float) : M Z :=
  w <- get ;;
  let id := nextTimer (window w) in
  onWindow (fun g =>
    set_nextTimer (id + 1)
      (set_timers (timers g ++ [{| timerId := id; callback := cb; delay := ms |}]) g)) ;;
  ret id.

Definition removeTimer (id : Z) (g : Window) : Window :=
  set_timers (filter (fun t => negb (timerId t =? id)) (timers g)) g.

Definition clearTimeout (handle : option Z) : M unit :=
  match handle with
  | Some id => onWindow (removeTimer id)
  | None => ret tt
  end.

(** [requestAnimationFrame(() => {})]: the callback does nothing, only the
    handle matters. *)
Definition requestAnimationFrame : M Z :=
  w <- get ;;
  let id := nextFrame (window w) in
  onWindow (fun g => set_nextFrame (id + 1) (set_frames (frames g ++ [id]) g)) ;;
  ret id.

Definition cancelAnimationFrame (id : Z) : M unit :=
  onWindow (fun g => set_frames (filter (fun f => negb (f =? id)) (frames g)) g).

Definition consoleWarn (msg : string) : M unit :=
  onWindow (fun g => set_console (console g ++ [msg]) g).

(** *** The class, method by method *)

(** [setupAccessibility], lines 55-69. *)
Definition setupAccessibility : M unit :=
  onElement (fun e => set_attributes (assocSet "aria-live" "polite" (attributes e)) e) ;;
  onElement (fun e => set_attributes
    (assocSet "aria-label" "Rotating professional titles" (attributes e)) e) ;;
  w <- get ;;
  let srText := lit "Professional titles: " ++ join (lit ", ") (words w) in
  onElement (fun e => set_srOnlyNodes (srOnlyNodes e ++ [SrText srText]) e) ;;
  cursorSetAttribute "aria-hidden" "true".

(** [calculateContainerHeight], lines 71-76. *)
Definition calculateContainerHeight : M unit :=
  onElement (fun e => set_style (assocSet "min-height" "1.5em" (style e)) e) ;;
  onElement (fun e => set_style (assocSet "max-height" "1.5em" (style e)) e) ;;
  onElement (fun e => set_style (assocSet "height" "1.5em" (style e)) e).

(** The arrow function of [truncateLongWords], lines 110-114. *)
Definition truncateWord (maxLen : Z) (word : jsstring) : jsstring :=
  if JS.length word >? maxLen
  then substring word 0 maxLen ++ lit "..."
  else word.

(** [truncateLongWords], lines 105-115. *)
Definition truncateLongWords : M unit :=
  w <- get ;;
  (match originalWords w with
   | None => modify (fun w => set_originalWords (Some (words w)) w)
   | Some _ => ret tt
   end) ;;
  modify (fun w => set_words (map (truncateWord (maxWordLength (options w))) (words w)) w).

(** [restoreOriginalWords], lines 117-121. *)
Definition restoreOriginalWords : M unit :=
  w <- get ;;
  match originalWords w with
  | Some original => modify (set_words original)
  | None => ret tt
  end.

(** [adjustTimingForMobile], lines 123-127. *)
Definition adjustTimingForMobile : M unit :=
  onOptions (set_typing 80 40 1500).

(** [adjustTimingForDesktop], lines 129-133. *)
Definition adjustTimingForDesktop : M unit :=
  onOptions (set_typing 100 50 2000).

(** [handleResponsive], lines 90-103. *)
Definition handleResponsive : M unit :=
  w <- get ;;
  let isMobile := innerWidth (window w) <? responsiveBreakpoint (options w) in
  (if isMobile
   then truncateLongWords ;; adjustTimingForMobile
   else restoreOriginalWords ;; adjustTimingForDesktop) ;;
  calculateContainerHeight.

(** [setupResponsive], lines 78-88: the handler is the debounced
    [handleResponsive]. *)
Definition setupResponsive : M unit :=
  modify (set_resizeHandler true) ;;
  onWindow (set_resizeListener true) ;;
  handleResponsive.

(** [calculateTypingSpeed(word, charIndex)], lines 189-205. *)
Definition calculateTypingSpeed (word : jsstring) (charIndex : Z) : M float :=
  w <- get ;;
  let baseSpeed := typingSpeed (options w) in
  if (charIndex =? 0) || (charIndex =? JS.length word - 1)
  then ret (baseSpeed * 1.2)%float
  else
    let prevChar := index word (charIndex - 1) in
    match prevChar with
    | Some c => if isPunctuation c then ret (baseSpeed * 1.5)%float
                else ret baseSpeed
    | None => ret baseSpeed
    end.

(** [animate], lines 153-187.  [currentWord] is [undefined] when the index is
    outside the list, and taking [substring] of it throws.  The remainder by
    the list length is only reached after [currentWord] was read, so the list
    is not empty there. *)
Definition animate : M unit :=
  w <- get ;;
  if negb (isRunning w) then ret tt
  else
    let currentWord := index (words w) (currentIndex w) in
    (if isDeleting w
     then
       text <- substringOf currentWord 0 (charIndex w - 1) ;;
       setTextContent text ;;
       modify (fun w => set_charIndex (charIndex w - 1) w) ;;
       w <- get ;;
       if charIndex w =? 0
       then
         modify (set_isDeleting false) ;;
         modify (fun w => set_currentIndex
                            (rem (currentIndex w + 1) (JS.length (words w))) w) ;;
         _ <- setTimeout CbAnimate 300 ;; ret tt
       else
         _ <- setTimeout CbAnimate (deletingSpeed (options w)) ;; ret tt
     else
       text <- substringOf currentWord 0 (charIndex w + 1) ;;
       setTextContent text ;;
       modify (fun w => set_charIndex (charIndex w + 1) w) ;;
       w <- get ;;
       word <- defined currentWord ;;
       if charIndex w =? JS.length word
       then
         modify (set_isDeleting true) ;;
         _ <- setTimeout CbAnimate (pauseDuration (options w)) ;; ret tt
       else
         speed <- calculateTypingSpeed word (charIndex w) ;;
         _ <- setTimeout CbAnimate speed ;; ret tt) ;;
    id <- requestAnimationFrame ;;
    modify (set_animationId (Some id)).

(** [start], lines 135-141. *)
Definition start : M unit :=
  w <- get ;;
  if isRunning w then ret tt
  else
    modify (set_isRunning true) ;;
    onElement (fun e => set_classList (tokensAdd "typewriter-active" (classList e)) e) ;;
    animate.

(** [stop], lines 143-151.  A frame handle is truthy unless it is 0. *)
Definition stop : M unit :=
  modify (set_isRunning false) ;;
  onElement (fun e => set_classList (tokensRemove "typewriter-active" (classList e)) e) ;;
  w <- get ;;
  match animationId w with
  | Some id =>
      if id =? 0 then ret tt
      else cancelAnimationFrame id ;; modify (set_animationId None)
  | None => ret tt
  end.

(** [this.element.querySelector('.sr-only')], line 216: the first match in
    document order.  It lies in the first child that is or holds a match, and
    is that child itself when the child has the class, a node coming before
    its descendants; [None] is [null]. *)
Definition querySelectorSrOnly : M (option SrOnlyNode) :=
  w <- get ;;
  ret (hd_error (srOnlyNodes (element w))).

(** [this.element.removeChild(srText)], line 218, for the node found by
    [querySelectorSrOnly]: it takes the child, with all it holds, out of the
    container, and throws a [NotFoundError] when the node is not a child of
    the container. *)
Definition removeChild (srText : SrOnlyNode) : M unit :=
  match srText with
  | PageNested => throw NotFoundError
  | _ => onElement (fun e => set_srOnlyNodes (tl (srOnlyNodes e)) e)
  end.

(** [destroy], lines 207-223. *)
Definition destroy : M unit :=
  stop ;;
  w <- get ;;
  (if resizeHandler w then onWindow (set_resizeListener false) else ret tt) ;;
  srText <- querySelectorSrOnly ;;
  match srText with
  | Some node => removeChild node
  | None => ret tt
  end ;;
  onElement (fun e => set_classList
    (tokensRemove "typewriter-initialized"
       (tokensRemove "typewriter-active" (classList e))) e).

(** [init], lines 41-48. *)
Definition init : M unit :=
  setupAccessibility ;;
  calculateContainerHeight ;;
  setupResponsive ;;
  _ <- setTimeout CbStart 300 ;; ret tt.

(** The fields the constructor assigns before it looks for the sub-elements,
    lines 8-31.  [originalWords] is not assigned: it starts [undefined]. *)
Definition newWidget (el : Element) (given : Overrides) (g : Window) : Widget :=
  {| element := el;
     words := parseWords (orDefault (datasetWords el) []);
     originalWords := None;
     currentIndex := 0;
     charIndex := 0;
     isDeleting := false;
     isRunning := false;
     animationId := None;
     resizeHandler := false;
     debounceTimeout := None;
     options := mergeOptions given;
     window := g |}.

(** [new ModernTypewriter(element, options)], lines 7-39. *)
Definition construct (el : Element) (given : Overrides) (g : Window)
  : Result unit :=
  (w <- get ;;
   match textChild (element w), cursorChild (element w) with
   | Some _, Some _ => init
   | _, _ => consoleWarn "Typewriter: Required elements not found"
   end) (newWidget el given g).

(** *** What can happen to a widget *)

(** The body of a timer callback.  [later] clears its own handle and runs the
    debounced function, lines 228-231. *)
Definition runCallback (cb : Callback) : M unit :=
  match cb with
  | CbStart => start
  | CbAnimate => animate
  | CbLater =>
      w <- get ;;
      clearTimeout (debounceTimeout w) ;;
      handleResponsive
  end.

(** The debounced handler, [executedFunction], lines 227-234. *)
Definition executedFunction : M unit :=
  w <- get ;;
  clearTimeout (debounceTimeout w) ;;
  id <- setTimeout CbLater 250 ;;
  modify (set_debounceTimeout (Some id)).

Inductive Event :=
| Resize (width : Z)      (* the viewport changes and a resize event is sent *)
| Fire (id : Z)           (* a pending timer expires *)
| Frame                   (* the browser runs the requested frame callbacks *)
| CallStart
| CallStop
| CallDestroy.

Definition dispatch (ev : Event) : M unit :=
  match ev with
  | Resize width =>
      onWindow (set_innerWidth width) ;;
      w <- get ;;
      if resizeListener (window w) then executedFunction else ret tt
  | Fire id =>
      w <- get ;;
      match find (fun t => timerId t =? id) (timers (window w)) with
      | Some t => onWindow (removeTimer id) ;; runCallback (callback t)
      | None => ret tt
      end
  | Frame => onWindow (set_frames [])
  | CallStart => start
  | CallStop => stop
  | CallDestroy => destroy
  end.

(** An uncaught exception ends the event, the widget stays as the throw left
    it. *)
Definition handle (w : Widget) (ev : Event) : Widget := after (dispatch ev w).

Definition play (events : list Event) (w : Widget) : Widget :=
  fold_left handle events w.

(** [n] ticks in a row: each time the oldest pending timer expires. *)
Definition fireNext : M unit :=
  w <- get ;;
  match timers (window w) with
  | t :: _ => dispatch (Fire (timerId t))
  | [] => ret tt
  end.

Fixpoint ticks (n : nat) (w : Widget) : Widget :=
  match n with
  | O => w
  | S n' => ticks n' (after (fireNext w))
  end.

(** ** Vocabulary of the statements *)

(** The first code unit, if any, is not white space. *)
Definition startsClean (s : jsstring) : bool :=
  match s with
  | c :: _ => negb (isWhiteSpace c)
  | [] => true
  end.

(** No leading and no trailing white space. *)
Definition trimmed (s : jsstring) : bool :=
  startsClean s && startsClean (rev s).

(** The rendered text, [this.textElement.textContent]. *)
Definition rendered (w : Widget) : option jsstring := textChild (element w).

(** The word under the cursor, empty when the index is outside the list. *)
Definition currentWord (w : Widget) : jsstring :=
  orDefault (index (words w) (currentIndex w)) [].

(** The animation is live: the flag is set, there is a text node to render
    into, and exactly one tick is pending. *)
Definition ticking (w : Widget) : Prop :=
  isRunning w = true
  /\ rendered w <> None
  /\ exists t, timers (window w) = [t] /\ callback t = CbAnimate.

(** About to type the first character of the current word. *)
Definition atWordStart (w : Widget) : Prop :=
  ticking w /\ isDeleting w = false /\ charIndex w = 0.

(** One type/delete cycle of the current word: as many typing ticks as the
    word has characters, then as many deleting ticks. *)
Definition cycle (w : Widget) : Widget :=
  ticks (2 * List.length (currentWord w)) w.

Fixpoint cycles (k : nat) (w : Widget) : Widget :=
  match k with
  | O => w
  | S k' => cycles k' (cycle w)
  end.

(** What is on screen when the typing run of the cycle starting at [w] ends. *)
Definition typedWord (w : Widget) : option jsstring :=
  rendered (ticks (List.length (currentWord w)) w).

(** The widget when the viewport is [width] pixels wide. *)
Definition atWidth (width : Z) (w : Widget) : Widget :=
  set_window (set_innerWidth width (window w)) w.

(** The three durations the responsive handler sets. *)
Definition timing (o : Options) : float * float * float :=
  (typingSpeed o, deletingSpeed o, pauseDuration o).

Definition mobileProfile : float * float * float := (80, 40, 1500)%float.
Definition desktopProfile : float * float * float := (100, 50, 2000)%float.

(** A page to run examples on: a container with both sub-elements (or not),
    and a window with nothing pending. *)
Definition host (dataWords : string) (text : option jsstring)
  (cursor : option (list (string * string))) : Element :=
  {| datasetWords := Some (lit dataWords);
     textChild := text;
     cursorChild := cursor;
     classList := ["typewriter-container"%string];
     attributes := [];
     style := [];
     srOnlyNodes := [] |}.

Definition page (width : Z) : Window :=
  {| innerWidth := width; resizeListener := false; timers := [];
     nextTimer := 1; frames := []; nextFrame := 1; console := [] |}.

(** The widget the bootstrap builds for a well-formed container. *)
Definition widgetFor (dataWords : string) (width : Z) : Widget :=
  after (construct (host dataWords (Some []) (Some [])) noOverrides (page width)).

(** The running example of the specification: the widget for "Rust, Go" on a
    desktop viewport after [n] timer expiries (the first one starts it). *)
Definition rustWidget (n : nat) : Widget := ticks n (widgetFor "Rust, Go" 1024).

(** A title of 25 characters, and a resize to a mobile width while its last
    characters are being typed: the start timer and 21 more ticks (22
    characters typed), the resize event, two more ticks, and then the
    debounced handler, 250 ms after the resize. *)
Definition longTitle : string := "Senior Software Architect".

Definition typingUntilSwitch : list Event :=
  map (fun id => Fire (Z.of_nat id)) (seq 1 22)
  ++ [Resize 500; Fire 23; Fire 25].

Definition resizeWhileTyping : list Event := typingUntilSwitch ++ [Fire 24].

Definition beforeSwitch : Widget :=
  play typingUntilSwitch (widgetFor longTitle 1024).

Definition overshot : Widget := play resizeWhileTyping (widgetFor longTitle 1024).

(** Events the page itself produces, as opposed to calls of the public
    operations by a script. *)
Definition fromPage (ev : Event) : bool :=
  match ev with
  | Resize _ | Fire _ | Frame => true
  | CallStart | CallStop | CallDestroy => false
  end.

(** The two inert instances: the container lacks the text node, or the cursor
    node. *)
Definition inertWithoutText : Widget :=
  after (construct (host "Rust" None (Some [])) noOverrides (page 1024)).

Definition inertWithoutCursor : Widget :=
  after (construct (host "Rust" (Some []) None) noOverrides (page 1024)).

(** The widget for the 25-character title on a desktop viewport. *)
Definition titleWidget : Widget := widgetFor longTitle 1024.

(** The first [.sr-only] node inside the container is not one of its
    children. *)
Definition srOnlyNested (e : Element) : bool :=
  match srOnlyNodes e with
  | PageNested :: _ => true
  | _ => false
  end.

(** A caller asking for 7 ms everywhere. *)
Definition customTiming : Overrides :=
  {| givenTypingSpeed := Some 7%float;
     givenDeletingSpeed := Some 7%float;
     givenPauseDuration := Some 7%float;
     givenCursorChar := None;
     givenCursorBlinkSpeed := None;
     givenResponsiveBreakpoint := None;
     givenMaxWordLength := None |}.

(** The instance that caller gets on a 500-pixel viewport when the cursor
    node is missing. *)
Definition inertCustom : Widget :=
  after (construct (host "Rust" (Some []) None) customTiming (page 500)).

(** The timing is one of the two fixed profiles. *)
Definition profiled (o : Options) : Prop :=
  timing o = mobileProfile \/ timing o = desktopProfile.

(** The diagnostic of an aborted construction. *)
Definition diagnostic : string := "Typewriter: Required elements not found".

(** A call keeps a part of the widget when that part is the same before and
    after it, whether the call returns or throws. *)
Definition keeps {A X} (part : Widget -> X) (m : M A) : Prop :=
  forall w, part (after (m w)) = part w.

(** The setup of a widget: its two word lists and its options. *)
Definition setup (w : Widget) : list jsstring * option (list jsstring) * Options :=
  (words w, originalWords w, options w).

(** The position of the animation. *)
Definition position (w : Widget) : Z * Z * bool :=
  (currentIndex w, charIndex w, isDeleting w).

(** *** Invariants *)

Definition nonEmpty (l : list jsstring) : Prop :=
  Forall (fun word => word <> []) l.

(** No list holds an empty word, and the cached list, once there, has as many
    words as the active one. *)
Definition listsAgree (w : Widget) : Prop :=
  nonEmpty (words w)
  /\ match originalWords w with
     | Some original =>
         nonEmpty original /\ List.length original = List.length (words w)
     | None => True
     end.

(** [currentIndex] is inside the list, unless the list is empty. *)
Definition indexBound (w : Widget) : Prop :=
  words w = [] \/ 0 <= currentIndex w < JS.length (words w).

(** [charIndex] is inside the current word: at most its length and, while
    typing, below it; while deleting, above 0. *)
Definition charBound (w : Widget) : Prop :=
  match index (words w) (currentIndex w) with
  | Some word =>
      if isDeleting w
      then 1 <= charIndex w <= JS.length word
      else 0 <= charIndex w < JS.length word
  | None => True
  end.

(** No word is long enough to be truncated, and the cache, once there, is the
    active list. *)
Definition noLongWord (w : Widget) : Prop :=
  Forall (fun word => JS.length word <= maxWordLength (options w)) (words w)
  /\ (originalWords w = None \/ originalWords w = Some (words w)).

Definition sound (w : Widget) : Prop := listsAgree w /\ indexBound w.

Definition steady (w : Widget) : Prop :=
  sound w /\ charBound w /\ noLongWord w.

(** A property that only looks at the setup and the position. *)
Definition stable (P : Widget -> Prop) : Prop :=
  forall w w', setup w' = setup w -> position w' = position w -> P w -> P w'.

(** A call preserves a property when the widget it leaves behind, returned or
    thrown, has it whenever the widget it started on had it. *)
Definition preserves {A} (P : Widget -> Prop) (m : M A) : Prop :=
  forall w, P w -> P (after (m w)).

(** *** Further vocabulary *)

(** A word as [parseWords] produces them: not empty, trimmed, without a
    comma. *)
Definition cleanWord (word : jsstring) : Prop :=
  word <> [] /\ trimmed word = true /\ ~ In comma word.

(** The text of the node [setupAccessibility] appends, line 63. *)
Definition screenReaderText (l : list jsstring) : jsstring :=
  lit "Professional titles: " ++ join (lit ", ") l.

(** The active list is the parsed list [parsed] or its truncation at
    [maxLen]; the cache, once there, is the parsed list. *)
Definition listsFaithful (parsed : list jsstring) (maxLen : Z) (w : Widget)
  : Prop :=
  maxWordLength (options w) = maxLen
  /\ ((originalWords w = None /\ words w = parsed)
      \/ (originalWords w = Some parsed
          /\ (words w = parsed
              \/ words w = map (truncateWord maxLen) parsed))).

(** What [setupAccessibility] adds to the container. *)
Definition accessibility (w : Widget)
  : list SrOnlyNode * list (string * string) * option (list (string * string)) :=
  (srOnlyNodes (element w), attributes (element w), cursorChild (element w)).


(** The kinds of pending timers. *)
Definition isLater (t : Timer) : bool :=
  match callback t with CbLater => true | _ => false end.

Definition isStartTimer (t : Timer) : bool :=
  match callback t with CbStart => true | _ => false end.

(** The timers that drive the animation: the delayed start and the ticks. *)
Definition isTick (t : Timer) : bool := negb (isLater t).

Definition isCallStart (ev : Event) : bool :=
  match ev with CallStart => true | _ => false end.

(** What the user sees of the animation. *)
Definition display (w : Widget) : bool * option jsstring * (Z * Z * bool) :=
  (isRunning w, rendered w, position w).

(** The pending timers and the next timer id. *)
Definition schedule (w : Widget) : list Timer * Z :=
  (timers (window w), nextTimer (window w)).

(** The debounce timers are those and only those with the handle the
    debounced function remembers, and no pending timer has an id that is
    still to be given out. *)
Definition timersConsistent (w : Widget) : Prop :=
  Forall (fun t => timerId t < nextTimer (window w)) (timers (window w))
  /\ Forall (fun t => isLater t = true <-> debounceTimeout w = Some (timerId t))
       (timers (window w)).

(** The pending timers once [clearTimeout(timeout)] has run. *)
Definition clearedTimers (w : Widget) : list Timer :=
  match debounceTimeout w with
  | Some d => filter (fun t => negb (timerId t =? d)) (timers (window w))
  | None => timers (window w)
  end.

(** How many timers that drive the animation are pending. *)
Definition tickCount (w : Widget) : nat :=
  List.length (filter isTick (timers (window w))).

(** *** Examples for the further properties *)

(** The container of the running example, with both sub-elements. *)
Definition rustHost : Element := host "Rust, Go" (Some []) (Some []).

(** The same container on a page that wraps a [.sr-only] node of its own in
    one of the container's children. *)
Definition nestedHost : Element := set_srOnlyNodes [PageNested] rustHost.

(** The delayed start the constructor leaves on an empty page. *)
Definition startTimer : Timer :=
  {| timerId := 1; callback := CbStart; delay := 300 |}.

(** A word with punctuation inside, one character typed. *)
Definition abbreviationWidget : Widget := ticks 1 (widgetFor "e.g. Rust" 1024).

(** The timers are consistent and the remembered handle, if any, is an id
    that was given out. *)
Definition timersSound (w : Widget) : Prop :=
  timersConsistent w
  /\ match debounceTimeout w with
     | Some d => d < nextTimer (window w)
     | None => True
     end.

(** The options the widget never assigns after construction. *)
Definition limits (w : Widget) : Z * Z :=
  (responsiveBreakpoint (options w), maxWordLength (options w)).

(** * Properties *)

(** ** Strings *)

Section Lists.
Context {A : Type}.

Lemma length_nonneg (l : list A) : 0 <= JS.length l.
Proof. unfold JS.length. lia. Qed.

Lemma length_cons (x : A) (l : list A) : JS.length (x :: l) = JS.length l + 1.
Proof. unfold JS.length. cbn [List.length]. lia. Qed.

Lemma length_app (l1 l2 : list A) :
  JS.length (l1 ++ l2) = JS.length l1 + JS.length l2.
Proof. unfold JS.length. rewrite List.length_app. lia. Qed.

Lemma length_zero_nil (l : list A) : JS.length l = 0 -> l = [].
Proof. destruct l; [reflexivity | rewrite length_cons; pose proof (length_nonneg l); lia]. Qed.

Lemma index_Some_range (l : list A) (i : Z) (x : A) :
  index l i = Some x -> 0 <= i < JS.length l.
Proof.
  unfold index, JS.length. destruct (Z.ltb_spec i 0); [discriminate |].
  intros E. assert (Hn : nth_error l (Z.to_nat i) <> None) by congruence.
  apply nth_error_Some in Hn. lia.
Qed.

Lemma index_in_range (l : list A) (i : Z) :
  0 <= i < JS.length l -> exists x, index l i = Some x.
Proof.
  unfold index, JS.length. intros H. destruct (Z.ltb_spec i 0); [lia |].
  destruct (nth_error l (Z.to_nat i)) eqn:E; [eauto |].
  apply nth_error_None in E. lia.
Qed.

Lemma index_map {B} (f : A -> B) (l : list A) (i : Z) :
  index (map f l) i = option_map f (index l i).
Proof.
  unfold index. destruct (i <? 0); [reflexivity |]. apply nth_error_map.
Qed.

Lemma dropWhile_split (p : A -> bool) (l : list A) :
  exists skipped, l = skipped ++ dropWhile p l /\ forallb p skipped = true.
Proof.
  induction l as [| x r IH]; cbn [dropWhile].
  - exists []. split; reflexivity.
  - destruct (p x) eqn:E.
    + destruct IH as (sk & Heq & Hall). exists (x :: sk). cbn [forallb app].
      rewrite E, Hall. split; [f_equal; exact Heq | reflexivity].
    + exists []. split; reflexivity.
Qed.

Lemma dropWhile_head (p : A -> bool) (l : list A) (x : A) (r : list A) :
  dropWhile p l = x :: r -> p x = false.
Proof.
  induction l as [| y t IH]; cbn [dropWhile]; [discriminate |].
  destruct (p y) eqn:E; [exact IH |]. intros H. injection H as -> _. exact E.
Qed.

Lemma forallb_rev (p : A -> bool) (l : list A) :
  forallb p l = true -> forallb p (rev l) = true.
Proof.
  rewrite !forallb_forall. intros H x Hx. apply H, in_rev, Hx.
Qed.

End Lists.

Lemma substring_prefix (s : jsstring) (k : Z) :
  substring s 0 k = firstn (Z.to_nat k) s.
Proof.
  unfold substring, clamp. pose proof (length_nonneg s) as Hlen.
  set (len := JS.length s) in *.
  assert (Ha : Z.min (Z.max 0 0) len = 0) by lia. rewrite Ha.
  assert (Hb : Z.min 0 (Z.min (Z.max k 0) len) = 0) by lia. rewrite Hb.
  assert (Hc : Z.max 0 (Z.min (Z.max k 0) len) = Z.min (Z.max k 0) len) by lia.
  rewrite Hc, Z.sub_0_r. cbn [Z.to_nat skipn].
  destruct (Z.le_gt_cases k len).
  - f_equal. lia.
  - subst len. unfold JS.length in *. rewrite !firstn_all2; [reflexivity | |]; lia.
Qed.

Lemma substring_whole (s : jsstring) : substring s 0 (JS.length s) = s.
Proof.
  rewrite substring_prefix. apply firstn_all2. unfold JS.length. lia.
Qed.

Lemma substring_none (s : jsstring) : substring s 0 0 = [].
Proof. rewrite substring_prefix. reflexivity. Qed.

Lemma substring_prefix_length (s : jsstring) (k : Z) :
  0 <= k <= JS.length s -> JS.length (substring s 0 k) = k.
Proof.
  intros H. rewrite substring_prefix. unfold JS.length in *.
  rewrite firstn_length_le; lia.
Qed.

Lemma split_not_nil (sep : codeunit) (s : jsstring) : split sep s <> [].
Proof.
  destruct s as [| c r]; cbn [split]; [discriminate |].
  destruct (c =? sep)%N; [discriminate |]. destruct (split sep r); discriminate.
Qed.

Lemma join_cons (sep x : jsstring) (rest : list jsstring) :
  rest <> [] -> join sep (x :: rest) = x ++ sep ++ join sep rest.
Proof. destruct rest; [congruence | reflexivity]. Qed.

(** Gluing the pieces back with the separator gives the input. *)
Lemma join_split (sep : codeunit) (s : jsstring) :
  join [sep] (split sep s) = s.
Proof.
  induction s as [| c r IH]; [reflexivity |]. cbn [split].
  destruct (N.eqb_spec c sep) as [-> | Hne].
  - rewrite join_cons by apply split_not_nil. rewrite IH. reflexivity.
  - pose proof (split_not_nil sep r) as Hnil.
    destruct (split sep r) as [| piece pieces]; [congruence |].
    destruct pieces as [| q qs].
    + cbn in IH |- *. rewrite IH. reflexivity.
    + rewrite join_cons in IH |- * by discriminate.
      rewrite <- IH. reflexivity.
Qed.

(** No piece holds the separator. *)
Lemma split_pieces (sep : codeunit) (s : jsstring) :
  Forall (fun piece => ~ In sep piece) (split sep s).
Proof.
  induction s as [| c r IH]; cbn [split].
  - constructor; [intros [] | constructor].
  - destruct (N.eqb_spec c sep) as [-> | Hne].
    + constructor; [intros [] | exact IH].
    + destruct (split sep r) as [| piece pieces].
      * constructor; [| constructor]. intros [H | []]. congruence.
      * inversion IH as [| ? ? Hp Hps]; subst. constructor; [| exact Hps].
        intros [H | H]; [congruence | exact (Hp H)].
Qed.

(** [trim] removes white space, and only white space, at both ends. *)
Lemma trim_split (s : jsstring) :
  exists l r, s = l ++ trim s ++ r
              /\ forallb isWhiteSpace l = true
              /\ forallb isWhiteSpace r = true.
Proof.
  unfold trim, trimEnd, trimStart.
  destruct (dropWhile_split isWhiteSpace s) as (l & Hl & Hwl).
  destruct (dropWhile_split isWhiteSpace (rev (dropWhile isWhiteSpace s)))
    as (r & Hr & Hwr).
  exists l, (rev r). split; [| split; [exact Hwl | apply forallb_rev, Hwr]].
  rewrite <- rev_app_distr, <- Hr, rev_involutive. exact Hl.
Qed.

Lemma trim_trimmed (s : jsstring) : trimmed (trim s) = true.
Proof.
  unfold trimmed. apply andb_true_iff. split.
  - destruct (trim s) as [| c t] eqn:E; [reflexivity |]. cbn [startsClean].
    unfold trim, trimEnd, trimStart in E.
    destruct (dropWhile_split isWhiteSpace (rev (dropWhile isWhiteSpace s)))
      as (r & Hr & _).
    apply (f_equal (@rev codeunit)) in Hr.
    rewrite rev_involutive, rev_app_distr, E in Hr. cbn [app] in Hr.
    rewrite (dropWhile_head _ _ _ _ Hr). reflexivity.
  - unfold trim, trimEnd. rewrite rev_involutive.
    destruct (dropWhile isWhiteSpace (rev (trimStart s))) as [| c t] eqn:E;
      [reflexivity |].
    cbn [startsClean]. rewrite (dropWhile_head _ _ _ _ E). reflexivity.
Qed.

(** ** Parsing *)

Lemma parseWords_refines (raw : jsstring) : parseWords raw = parseWordList raw.
Proof.
  unfold parseWords, parseWordList. destruct raw as [| c r]; [reflexivity |].
  cbn [falsy]. apply filter_ext. intros [| x t]; [reflexivity |].
  rewrite length_cons. cbn [falsy negb]. pose proof (length_nonneg t).
  destruct (Z.gtb_spec (JS.length t + 1) 0); [reflexivity | lia].
Qed.

(** C10: [parseWords] splits at each comma (the pieces are comma-free and
    glue back to the input), trims white space and nothing else from both ends
    of every piece, drops the empty results and keeps the order; the empty or
    absent attribute gives the empty list, and every word of the result is
    non-empty with no leading or trailing white space. *)
Theorem parseWords_spec (raw : jsstring) :
  parseWords raw = parseWordList raw
  /\ join [comma] (split comma raw) = raw
  /\ Forall (fun piece => ~ In comma piece) (split comma raw)
  /\ Forall (fun piece => exists l r, piece = l ++ trim piece ++ r
                          /\ forallb isWhiteSpace l = true
                          /\ forallb isWhiteSpace r = true) (split comma raw)
  /\ Forall (fun word => word <> [] /\ trimmed word = true) (parseWords raw)
  /\ parseWords [] = []
  /\ (forall text cursor classes attrs css sr given g,
        words (newWidget {| datasetWords := None; textChild := text;
                            cursorChild := cursor; classList := classes;
                            attributes := attrs; style := css;
                            srOnlyNodes := sr |} given g) = []).
Proof.
  split; [apply parseWords_refines |].
  split; [apply join_split |].
  split; [apply split_pieces |].
  split; [apply Forall_forall; intros piece _; apply trim_split |].
  split; [| split; [reflexivity | intros; reflexivity]].
  rewrite parseWords_refines. unfold parseWordList.
  apply Forall_forall. intros word Hin. apply filter_In in Hin.
  destruct Hin as [Hin Hne]. apply in_map_iff in Hin.
  destruct Hin as (piece & <- & _). split.
  - intros E. rewrite E in Hne. discriminate.
  - apply trim_trimmed.
Qed.

(** ** One tick *)

Ltac unfold_js :=
  cbv beta iota delta
    [animate start stop destroy init handleResponsive truncateLongWords
     restoreOriginalWords adjustTimingForMobile adjustTimingForDesktop
     setupResponsive setupAccessibility calculateContainerHeight
     calculateTypingSpeed setTextContent cursorSetAttribute substringOf defined
     querySelectorSrOnly removeChild
     setTimeout clearTimeout requestAnimationFrame cancelAnimationFrame
     consoleWarn onElement onWindow onOptions bind get modify ret throw].

(** A typing tick renders one more character of the current word. *)
Lemma animate_typing (w : Widget) (word old : jsstring) :
  isRunning w = true -> isDeleting w = false ->
  index (words w) (currentIndex w) = Some word ->
  rendered w = Some old ->
  exists w' d,
    animate w = Ok tt w'
    /\ rendered w' = Some (substring word 0 (charIndex w + 1))
    /\ charIndex w' = charIndex w + 1
    /\ isDeleting w' = (charIndex w + 1 =? JS.length word)
    /\ currentIndex w' = currentIndex w
    /\ words w' = words w
    /\ isRunning w' = true
    /\ timers (window w') = timers (window w)
         ++ [{| timerId := nextTimer (window w); callback := CbAnimate; delay := d |}].
Proof.
  unfold rendered. intros Hrun Hdel Hword Htext.
  unfold_js. rewrite Hrun, Hdel, Hword. cbn. rewrite Htext. cbn.
  destruct (charIndex w + 1 =? JS.length word) eqn:E.
  - eexists _, _. split; [reflexivity |]. cbn. rewrite ?Hrun, ?Hdel.
    repeat split; reflexivity.
  - destruct ((charIndex w + 1 =? 0) || (charIndex w + 1 =? JS.length word - 1)).
    + eexists _, _. split; [reflexivity |]. cbn. rewrite ?Hrun, ?Hdel.
      repeat split; reflexivity.
    + destruct (index word (charIndex w + 1 - 1)) as [c |];
        [destruct (isPunctuation c) |];
        (eexists _, _; split; [reflexivity |]; cbn; rewrite ?Hrun, ?Hdel;
         repeat split; reflexivity).
Qed.

(** A deleting tick renders one character less, and moves to the next word
    when none is left. *)
Lemma animate_deleting (w : Widget) (word old : jsstring) :
  isRunning w = true -> isDeleting w = true ->
  index (words w) (currentIndex w) = Some word ->
  rendered w = Some old ->
  exists w' d,
    animate w = Ok tt w'
    /\ rendered w' = Some (substring word 0 (charIndex w - 1))
    /\ charIndex w' = charIndex w - 1
    /\ isDeleting w' = negb (charIndex w - 1 =? 0)
    /\ currentIndex w' =
         (if charIndex w - 1 =? 0
          then rem (currentIndex w + 1) (JS.length (words w))
          else currentIndex w)
    /\ words w' = words w
    /\ isRunning w' = true
    /\ timers (window w') = timers (window w)
         ++ [{| timerId := nextTimer (window w); callback := CbAnimate; delay := d |}].
Proof.
  unfold rendered. intros Hrun Hdel Hword Htext.
  unfold_js. rewrite Hrun, Hdel, Hword. cbn. rewrite Htext. cbn.
  destruct (charIndex w - 1 =? 0) eqn:E;
    (eexists _, _; split; [reflexivity |]; cbn; rewrite ?Hrun, ?Hdel;
     repeat split; reflexivity).
Qed.

(** When the only pending timer is a tick, the next thing to fire is
    [animate], on the widget with that timer gone. *)
Lemma fireNext_ticking (w : Widget) (t : Timer) :
  timers (window w) = [t] -> callback t = CbAnimate ->
  fireNext w = animate (set_window (set_timers [] (window w)) w).
Proof.
  intros Ht Hcb. unfold fireNext, dispatch, bind, get, onWindow, modify.
  rewrite Ht. cbv beta iota. rewrite Ht. cbn [find]. rewrite Z.eqb_refl, Hcb.
  cbn [runCallback]. unfold removeTimer. rewrite Ht. cbn [filter].
  rewrite Z.eqb_refl. reflexivity.
Qed.

Lemma tick_typing (w : Widget) (word : jsstring) :
  ticking w -> isDeleting w = false ->
  index (words w) (currentIndex w) = Some word ->
  let w' := after (fireNext w) in
  returns (fireNext w) = true
  /\ ticking w'
  /\ rendered w' = Some (substring word 0 (charIndex w + 1))
  /\ charIndex w' = charIndex w + 1
  /\ isDeleting w' = (charIndex w + 1 =? JS.length word)
  /\ currentIndex w' = currentIndex w
  /\ words w' = words w.
Proof.
  intros (Hrun & Htext & t & Ht & Hcb) Hdel Hword.
  rewrite (fireNext_ticking w t Ht Hcb).
  destruct (rendered w) as [old |] eqn:Hold; [| congruence].
  destruct (animate_typing (set_window (set_timers [] (window w)) w) word old
              Hrun Hdel Hword Hold)
    as (w' & d & -> & Hr & Hc & Hd & Hi & Hw & Hrun' & Htm).
  cbn [after returns]. cbn in Hc, Hd, Hi, Hw, Htm, Hr.
  repeat split; try assumption.
  - rewrite Hr. discriminate.
  - eexists. split; [exact Htm | reflexivity].
Qed.

Lemma tick_deleting (w : Widget) (word : jsstring) :
  ticking w -> isDeleting w = true ->
  index (words w) (currentIndex w) = Some word ->
  let w' := after (fireNext w) in
  returns (fireNext w) = true
  /\ ticking w'
  /\ rendered w' = Some (substring word 0 (charIndex w - 1))
  /\ charIndex w' = charIndex w - 1
  /\ isDeleting w' = negb (charIndex w - 1 =? 0)
  /\ currentIndex w' =
       (if charIndex w - 1 =? 0
        then rem (currentIndex w + 1) (JS.length (words w))
        else currentIndex w)
  /\ words w' = words w.
Proof.
  intros (Hrun & Htext & t & Ht & Hcb) Hdel Hword.
  rewrite (fireNext_ticking w t Ht Hcb).
  destruct (rendered w) as [old |] eqn:Hold; [| congruence].
  destruct (animate_deleting (set_window (set_timers [] (window w)) w) word old
              Hrun Hdel Hword Hold)
    as (w' & d & -> & Hr & Hc & Hd & Hi & Hw & Hrun' & Htm).
  cbn [after returns]. cbn in Hc, Hd, Hi, Hw, Htm, Hr.
  repeat split; try assumption.
  - rewrite Hr. discriminate.
  - eexists. split; [exact Htm | reflexivity].
Qed.

(** ** Runs of ticks *)

Lemma ticks_add (n m : nat) (w : Widget) :
  ticks (n + m) w = ticks m (ticks n w).
Proof.
  revert w. induction n as [| n IH]; intros w; [reflexivity |].
  cbn [Nat.add ticks]. apply IH.
Qed.

(** From anywhere inside a word, the typing run ends with the whole word on
    screen. *)
Lemma typing_run (n : nat) : forall (w : Widget) (word : jsstring),
  ticking w -> isDeleting w = false ->
  index (words w) (currentIndex w) = Some word ->
  charIndex w + Z.of_nat (S n) = JS.length word ->
  let w' := ticks (S n) w in
  ticking w'
  /\ rendered w' = Some word
  /\ charIndex w' = JS.length word
  /\ isDeleting w' = true
  /\ currentIndex w' = currentIndex w
  /\ words w' = words w.
Proof.
  induction n as [| n IH]; intros w word Htick Hdel Hword Hlen;
    destruct (tick_typing w word Htick Hdel Hword)
      as (_ & Htick' & Hr & Hc & Hd & Hi & Hw).
  - cbn [ticks]. assert (E : charIndex w + 1 = JS.length word) by lia.
    rewrite E in *. rewrite substring_whole in Hr. rewrite Z.eqb_refl in Hd.
    repeat (split; [assumption |]); assumption.
  - change (ticks (S (S n)) w) with (ticks (S n) (after (fireNext w))).
    assert (E : (charIndex w + 1 =? JS.length word) = false)
      by (apply Z.eqb_neq; lia).
    rewrite E in Hd. rewrite <- Hi, <- Hw in Hword.
    destruct (IH _ word Htick' Hd Hword ltac:(lia))
      as (? & ? & ? & ? & ? & ?).
    repeat (split; [first [assumption | congruence] |]); congruence.
Qed.

(** The deleting run ends with nothing on screen and the index advanced. *)
Lemma deleting_run (n : nat) : forall (w : Widget) (word : jsstring),
  ticking w -> isDeleting w = true ->
  index (words w) (currentIndex w) = Some word ->
  charIndex w = Z.of_nat (S n) ->
  let w' := ticks (S n) w in
  ticking w'
  /\ rendered w' = Some []
  /\ charIndex w' = 0
  /\ isDeleting w' = false
  /\ currentIndex w' = rem (currentIndex w + 1) (JS.length (words w))
  /\ words w' = words w.
Proof.
  induction n as [| n IH]; intros w word Htick Hdel Hword Hlen;
    destruct (tick_deleting w word Htick Hdel Hword)
      as (_ & Htick' & Hr & Hc & Hd & Hi & Hw).
  - cbn [ticks]. assert (E : charIndex w - 1 = 0) by lia.
    rewrite E in *. rewrite substring_none in Hr. cbn in Hd, Hi.
    repeat (split; [assumption |]); assumption.
  - change (ticks (S (S n)) w) with (ticks (S n) (after (fireNext w))).
    assert (E : (charIndex w - 1 =? 0) = false) by (apply Z.eqb_neq; lia).
    rewrite E in Hd, Hi. cbn in Hd. rewrite <- Hi, <- Hw in Hword.
    destruct (IH _ word Htick' Hd Hword ltac:(lia))
      as (? & ? & ? & ? & ? & ?).
    repeat (split; [first [assumption | congruence] |]); congruence.
Qed.

(** ** Cycles *)

Lemma rem_in_range (i n : Z) :
  0 <= i < n -> rem (i + 1) n = (i + 1) mod n.
Proof. intros H. unfold rem. apply Z.rem_mod_nonneg; lia. Qed.

Lemma current_word_is (w : Widget) (word : jsstring) :
  index (words w) (currentIndex w) = Some word -> currentWord w = word.
Proof. unfold currentWord. intros ->. reflexivity. Qed.

(** One cycle from the start of a word: the word is typed in full, deleted in
    full, and the widget stands at the start of the next word. *)
Lemma cycle_spec (w : Widget) (word : jsstring) :
  atWordStart w ->
  index (words w) (currentIndex w) = Some word ->
  word <> [] ->
  atWordStart (cycle w)
  /\ typedWord w = Some word
  /\ rendered (cycle w) = Some []
  /\ words (cycle w) = words w
  /\ currentIndex (cycle w) = (currentIndex w + 1) mod JS.length (words w).
Proof.
  intros (Htick & Hdel & Hc) Hword Hne.
  unfold cycle, typedWord. rewrite (current_word_is w word Hword).
  destruct word as [| c rest]; [congruence |]. cbn [List.length].
  replace (2 * S (List.length rest))%nat
    with (S (List.length rest) + S (List.length rest))%nat by lia.
  rewrite ticks_add.
  assert (Hlen : charIndex w + Z.of_nat (S (List.length rest))
                 = JS.length (c :: rest)) by (unfold JS.length; cbn [List.length]; lia).
  destruct (typing_run _ w _ Htick Hdel Hword Hlen)
    as (Htick1 & Hr1 & Hc1 & Hd1 & Hi1 & Hw1).
  rewrite <- Hi1, <- Hw1 in Hword.
  assert (Hc1' : charIndex (ticks (S (List.length rest)) w)
                 = Z.of_nat (S (List.length rest))) by (rewrite Hc1; reflexivity).
  destruct (deleting_run (List.length rest) _ _ Htick1 Hd1 Hword Hc1')
    as (Htick2 & Hr2 & Hc2 & Hd2 & Hi2 & Hw2).
  rewrite Hi1, Hw1 in Hi2, Hword. apply index_Some_range in Hword.
  rewrite rem_in_range in Hi2 by exact Hword.
  split; [exact (conj Htick2 (conj Hd2 Hc2)) |].
  repeat (split; [first [assumption | congruence] |]). exact Hi2.
Qed.

Lemma cycles_succ (k : nat) : forall w, cycles (S k) w = cycle (cycles k w).
Proof.
  induction k as [| k IH]; intros w; [reflexivity |].
  change (cycles (S (S k)) w) with (cycles (S k) (cycle w)).
  rewrite IH. reflexivity.
Qed.

Lemma nonempty_word (l : list jsstring) (i : Z) (word : jsstring) :
  Forall (fun x => x <> []) l -> index l i = Some word -> word <> [].
Proof.
  unfold index. intros Hall. destruct (i <? 0); [discriminate |].
  intros H. apply nth_error_In in H. rewrite Forall_forall in Hall. auto.
Qed.

(** After [k] cycles the widget stands at the start of the word [k] places
    further round the list. *)
Lemma cycles_spec (k : nat) : forall w,
  atWordStart w ->
  Forall (fun word => word <> []) (words w) ->
  0 <= currentIndex w < JS.length (words w) ->
  atWordStart (cycles k w)
  /\ words (cycles k w) = words w
  /\ currentIndex (cycles k w)
     = (currentIndex w + Z.of_nat k) mod JS.length (words w).
Proof.
  induction k as [| k IH]; intros w Hstart Hne Hrange.
  - cbn [cycles]. rewrite Z.add_0_r, Z.mod_small by exact Hrange. auto.
  - cbn [cycles]. destruct (index_in_range _ _ Hrange) as (word & Hword).
    destruct (cycle_spec w word Hstart Hword (nonempty_word _ _ _ Hne Hword))
      as (Hstart' & _ & _ & Hw & Hi).
    assert (Hrange' : 0 <= currentIndex (cycle w) < JS.length (words (cycle w))).
    { rewrite Hw, Hi. apply Z.mod_pos_bound. lia. }
    rewrite <- Hw in Hne.
    destruct (IH (cycle w) Hstart' Hne Hrange') as (Hs & Hws & Hk).
    split; [exact Hs |]. split; [congruence |].
    rewrite Hk, Hw, Hi, Zplus_mod_idemp_l. f_equal. lia.
Qed.

(** The word typed in a cycle is the one at the index the cycle starts on. *)
Lemma typedWord_cycles (k : nat) (w : Widget) :
  atWordStart w ->
  Forall (fun word => word <> []) (words w) ->
  0 <= currentIndex w < JS.length (words w) ->
  typedWord (cycles k w)
  = index (words w) ((currentIndex w + Z.of_nat k) mod JS.length (words w)).
Proof.
  intros Hstart Hne Hrange.
  destruct (cycles_spec k w Hstart Hne Hrange) as (Hs & Hw & Hi).
  assert (Hrange' : 0 <= currentIndex (cycles k w) < JS.length (words (cycles k w))).
  { rewrite Hw, Hi. apply Z.mod_pos_bound. lia. }
  destruct (index_in_range _ _ Hrange') as (word & Hword).
  rewrite <- Hw in Hne.
  destruct (cycle_spec _ word Hs Hword (nonempty_word _ _ _ Hne Hword))
    as (_ & Ht & _).
  rewrite Ht, <- Hword, Hw, Hi. reflexivity.
Qed.

(** ** The claims about the animation *)

(** C1: on a running widget whose current word exists, a tick returns; if it
    is the typing tick after which [charIndex] equals the word's length, the
    whole word is on screen and the typing run is over, and if it is the
    deleting tick after which [charIndex] is 0, the screen is empty and the
    deleting run is over.  A run ends on no other tick.  From inside the word
    both runs do end: typing after as many ticks as characters are missing,
    deleting after as many ticks as characters are shown. *)
Theorem run_end_rendering (w : Widget) (word old : jsstring) :
  isRunning w = true ->
  index (words w) (currentIndex w) = Some word ->
  rendered w = Some old ->
  exists w',
    animate w = Ok tt w'
    /\ (isDeleting w = false ->
        isDeleting w' = (charIndex w' =? JS.length word)
        /\ (charIndex w' = JS.length word -> rendered w' = Some word))
    /\ (isDeleting w = true ->
        isDeleting w' = negb (charIndex w' =? 0)
        /\ (charIndex w' = 0 -> rendered w' = Some []))
    /\ (ticking w -> isDeleting w = false -> 0 <= charIndex w < JS.length word ->
        let end_ := ticks (Z.to_nat (JS.length word - charIndex w)) w in
        rendered end_ = Some word /\ isDeleting end_ = true
        /\ charIndex end_ = JS.length word)
    /\ (ticking w -> isDeleting w = true -> 0 < charIndex w ->
        let end_ := ticks (Z.to_nat (charIndex w)) w in
        rendered end_ = Some [] /\ isDeleting end_ = false
        /\ charIndex end_ = 0).
Proof.
  intros Hrun Hword Htext.
  assert (Hruns :
    (ticking w -> isDeleting w = false -> 0 <= charIndex w < JS.length word ->
     let end_ := ticks (Z.to_nat (JS.length word - charIndex w)) w in
     rendered end_ = Some word /\ isDeleting end_ = true
     /\ charIndex end_ = JS.length word)
    /\ (ticking w -> isDeleting w = true -> 0 < charIndex w ->
        let end_ := ticks (Z.to_nat (charIndex w)) w in
        rendered end_ = Some [] /\ isDeleting end_ = false
        /\ charIndex end_ = 0)).
  { split; intros Htick Hdel Hc.
    - destruct (Z.to_nat (JS.length word - charIndex w)) as [| n] eqn:E; [lia |].
      destruct (typing_run n w word Htick Hdel Hword ltac:(lia))
        as (_ & ? & ? & ? & _). auto.
    - destruct (Z.to_nat (charIndex w)) as [| n] eqn:E; [lia |].
      destruct (deleting_run n w word Htick Hdel Hword ltac:(lia))
        as (_ & ? & ? & ? & _). auto. }
  destruct (isDeleting w) eqn:Hdel.
  - destruct (animate_deleting w word old Hrun Hdel Hword Htext)
      as (w' & d & Hw' & Hr & Hc & Hd & _).
    exists w'. split; [exact Hw' |]. split; [discriminate |].
    split; [| exact Hruns]. intros _. rewrite Hd, Hc. split; [reflexivity |].
    intros E. rewrite Hr, E. rewrite substring_none. reflexivity.
  - destruct (animate_typing w word old Hrun Hdel Hword Htext)
      as (w' & d & Hw' & Hr & Hc & Hd & _).
    exists w'. split; [exact Hw' |].
    split; [| split; [discriminate | exact Hruns]].
    intros _. rewrite Hd, Hc. split; [reflexivity |].
    intros E. rewrite Hr, E. rewrite substring_whole. reflexivity.
Qed.

(** C2: when the tick that completes the deletion of the word at index [i]
    has run, the index is [(i + 1) mod |W|]; the word typed in the [k]-th
    cycle from there is the one at [(i + 1 + k) mod |W|] (so the next word
    typed, [k = 0], is the one at [(i + 1) mod |W|]), and the word typed
    [|W|] cycles later is the same again. *)
Theorem word_advance_cyclic (w : Widget) (word : jsstring) :
  ticking w -> isDeleting w = true -> charIndex w = 1 ->
  index (words w) (currentIndex w) = Some word ->
  Forall (fun x => x <> []) (words w) ->
  let n := JS.length (words w) in
  let i := currentIndex w in
  let w' := ticks 1 w in
  charIndex w' = 0 /\ isDeleting w' = false /\ rendered w' = Some []
  /\ currentIndex w' = (i + 1) mod n
  /\ forall k : nat,
       currentIndex (cycles k w') = (i + 1 + Z.of_nat k) mod n
       /\ typedWord (cycles k w') = index (words w) ((i + 1 + Z.of_nat k) mod n)
       /\ typedWord (cycles (k + List.length (words w)) w')
          = typedWord (cycles k w').
Proof.
  intros Htick Hdel Hc Hword Hne n i w'.
  destruct (deleting_run 0 w word Htick Hdel Hword Hc)
    as (Htick' & Hr & Hc' & Hd' & Hi' & Hw').
  fold w' in Htick', Hr, Hc', Hd', Hi', Hw'.
  pose proof (index_Some_range _ _ _ Hword) as Hrange. fold n i in Hrange.
  rewrite rem_in_range in Hi' by exact Hrange. fold n i in Hi'.
  assert (Hstart : atWordStart w') by exact (conj Htick' (conj Hd' Hc')).
  assert (Hrange' : 0 <= currentIndex w' < JS.length (words w')).
  { rewrite Hw', Hi'. apply Z.mod_pos_bound. lia. }
  assert (Hne' : Forall (fun x => x <> []) (words w')) by (rewrite Hw'; exact Hne).
  assert (Hmod : forall k : nat,
            (currentIndex w' + Z.of_nat k) mod JS.length (words w')
            = (i + 1 + Z.of_nat k) mod n).
  { intros k. rewrite Hw', Hi'. fold n. apply Zplus_mod_idemp_l. }
  repeat (split; [assumption |]). intros k.
  destruct (cycles_spec k w' Hstart Hne' Hrange') as (_ & _ & Hk).
  split; [rewrite Hk; apply Hmod |].
  rewrite !typedWord_cycles by assumption. rewrite !Hmod, Hw'.
  split; [reflexivity |]. f_equal.
  replace (i + 1 + Z.of_nat (k + List.length (words w)))
    with (i + 1 + Z.of_nat k + 1 * n) by (unfold n, JS.length; lia).
  apply Z_mod_plus_full.
Qed.

(** On "Rust, Go": with "Rus" on screen the next tick ends the typing run
    with "Rust" rendered. *)
Lemma run_end_rendering_witness :
  isRunning (rustWidget 3) = true
  /\ index (words (rustWidget 3)) (currentIndex (rustWidget 3)) = Some (lit "Rust")
  /\ rendered (rustWidget 3) = Some (lit "Rus")
  /\ rendered (ticks 1 (rustWidget 3)) = Some (lit "Rust")
  /\ isDeleting (ticks 1 (rustWidget 3)) = true.
Proof.
  assert (Hrun : isRunning (rustWidget 3) = true) by (vm_compute; reflexivity).
  assert (Hword : index (words (rustWidget 3)) (currentIndex (rustWidget 3))
                  = Some (lit "Rust")) by (vm_compute; reflexivity).
  assert (Htext : rendered (rustWidget 3) = Some (lit "Rus"))
    by (vm_compute; reflexivity).
  split; [exact Hrun |]. split; [exact Hword |]. split; [exact Htext |].
  destruct (run_end_rendering (rustWidget 3) (lit "Rust") (lit "Rus")
              Hrun Hword Htext) as (w' & _ & _ & _ & Htyping & _).
  assert (Htick : ticking (rustWidget 3)).
  { split; [exact Hrun |]. split; [rewrite Htext; discriminate |].
    eexists. split; vm_compute; reflexivity. }
  assert (Hdel : isDeleting (rustWidget 3) = false) by (vm_compute; reflexivity).
  assert (Hc : 0 <= charIndex (rustWidget 3) < JS.length (lit "Rust"))
    by (vm_compute; split; [discriminate | reflexivity]).
  destruct (Htyping Htick Hdel Hc) as (Hr & Hd & _).
  replace (Z.to_nat (JS.length (lit "Rust") - charIndex (rustWidget 3)))
    with 1%nat in Hr, Hd by (vm_compute; reflexivity).
  split; [exact Hr | exact Hd].
Defined.

(** On "Rust, Go": with "R" left of "Rust" the next tick completes the
    deletion, the index becomes 1, "Go" is typed next, and two cycles later
    "Go" is typed again. *)
Lemma word_advance_cyclic_witness :
  ticking (rustWidget 7)
  /\ isDeleting (rustWidget 7) = true
  /\ charIndex (rustWidget 7) = 1
  /\ index (words (rustWidget 7)) (currentIndex (rustWidget 7)) = Some (lit "Rust")
  /\ Forall (fun x => x <> []) (words (rustWidget 7))
  /\ currentIndex (ticks 1 (rustWidget 7)) = 1
  /\ typedWord (ticks 1 (rustWidget 7)) = Some (lit "Go")
  /\ typedWord (cycles 2 (ticks 1 (rustWidget 7)))
     = typedWord (ticks 1 (rustWidget 7)).
Proof.
  assert (Htick : ticking (rustWidget 7)).
  { split; [vm_compute; reflexivity |]. split; [vm_compute; discriminate |].
    eexists. split; vm_compute; reflexivity. }
  assert (Hdel : isDeleting (rustWidget 7) = true) by (vm_compute; reflexivity).
  assert (Hc : charIndex (rustWidget 7) = 1) by (vm_compute; reflexivity).
  assert (Hword : index (words (rustWidget 7)) (currentIndex (rustWidget 7))
                  = Some (lit "Rust")) by (vm_compute; reflexivity).
  assert (Hne : Forall (fun x => x <> []) (words (rustWidget 7))).
  { replace (words (rustWidget 7)) with [lit "Rust"; lit "Go"]
      by (vm_compute; reflexivity).
    repeat constructor; discriminate. }
  split; [exact Htick |]. split; [exact Hdel |]. split; [exact Hc |].
  split; [exact Hword |]. split; [exact Hne |].
  pose proof (word_advance_cyclic (rustWidget 7) (lit "Rust")
                Htick Hdel Hc Hword Hne) as H.
  cbv zeta in H. destruct H as (_ & _ & _ & Hi & Hk).
  split; [rewrite Hi; vm_compute; reflexivity |].
  destruct (Hk 0%nat) as (_ & Hgo & _). destruct (Hk 0%nat) as (_ & _ & Hper).
  split.
  - replace (typedWord (ticks 1 (rustWidget 7)))
      with (typedWord (cycles 0 (ticks 1 (rustWidget 7))))
      by (vm_compute; reflexivity).
    rewrite Hgo. vm_compute. reflexivity.
  - replace (typedWord (cycles 2 (ticks 1 (rustWidget 7))))
      with (typedWord (cycles (0 + List.length (words (rustWidget 7)))
                         (ticks 1 (rustWidget 7))))
      by (vm_compute; reflexivity).
    rewrite Hper. vm_compute. reflexivity.
Defined.

(** ** The typing delay *)

Lemma isPunctuation_spec (c : codeunit) :
  isPunctuation c = true <-> In c (lit ".,!?;:").
Proof.
  unfold isPunctuation. rewrite !orb_true_iff, !N.eqb_eq. cbn.
  intuition congruence.
Qed.

(** C3: [calculateTypingSpeed(w, i)] is the base speed times 1.2 when [i] is 0
    or the last index of [w]; otherwise times 1.5 when the character before
    [i] is one of [. , ! ? ; :]; otherwise the base speed.  The three cases
    exclude each other in that order, and the call changes nothing.  For "Hi."
    the indices 0, 1, 2 give 1.2 times, 1 times and 1.2 times the base. *)
Theorem calculateTypingSpeed_policy (w : Widget) (word : jsstring) (i : Z) :
  let base := typingSpeed (options w) in
  let firstOrLast := i = 0 \/ i = JS.length word - 1 in
  let afterPunctuation :=
    exists c, index word (i - 1) = Some c /\ In c (lit ".,!?;:") in
  (firstOrLast ->
   calculateTypingSpeed word i w = Ok (base * 1.2)%float w)
  /\ (~ firstOrLast -> afterPunctuation ->
      calculateTypingSpeed word i w = Ok (base * 1.5)%float w)
  /\ (~ firstOrLast -> ~ afterPunctuation ->
      calculateTypingSpeed word i w = Ok base w)
  /\ calculateTypingSpeed (lit "Hi.") 0 w = Ok (base * 1.2)%float w
  /\ calculateTypingSpeed (lit "Hi.") 1 w = Ok base w
  /\ calculateTypingSpeed (lit "Hi.") 2 w = Ok (base * 1.2)%float w.
Proof.
  intros base firstOrLast afterPunctuation.
  assert (Hcond : (i =? 0) || (i =? JS.length word - 1) = true <-> firstOrLast).
  { unfold firstOrLast. rewrite orb_true_iff, !Z.eqb_eq. reflexivity. }
  unfold calculateTypingSpeed, bind, get, ret. fold base.
  destruct ((i =? 0) || (i =? JS.length word - 1)) eqn:E.
  - repeat split; try reflexivity; intros Hn; exfalso; apply Hn, Hcond;
      reflexivity.
  - assert (Hnot : ~ firstOrLast) by (intros H; apply Hcond in H; discriminate).
    split; [intros H; contradiction |].
    destruct (index word (i - 1)) as [c |] eqn:Hprev.
    + destruct (isPunctuation c) eqn:Hp.
      * repeat split; try reflexivity. intros _ Hn. exfalso. apply Hn.
        exists c. split; [reflexivity | apply isPunctuation_spec, Hp].
      * repeat split; try reflexivity. intros _ (c' & Hc' & Hin).
        injection Hc' as <-. apply isPunctuation_spec in Hin. congruence.
    + repeat split; try reflexivity. intros _ (c' & Hc' & _). discriminate.
Qed.

(** On the desktop profile the three delays for "Hi." are 120, 100 and 120
    milliseconds. *)
Example calculateTypingSpeed_Hi :
  let w := widgetFor "Hi." 1024 in
  calculateTypingSpeed (lit "Hi.") 0 w = Ok 120%float w
  /\ calculateTypingSpeed (lit "Hi.") 1 w = Ok 100%float w
  /\ calculateTypingSpeed (lit "Hi.") 2 w = Ok 120%float w.
Proof. vm_compute. repeat split; reflexivity. Qed.

(** ** The empty word list *)

Lemma index_nil {A} (i : Z) : index (@nil A) i = None.
Proof. unfold index. destruct (i <? 0); [| destruct (Z.to_nat i)]; reflexivity. Qed.

(** Where the current word is [undefined], a tick of a running widget throws
    before it has rendered or scheduled anything. *)
Lemma animate_undefined (w : Widget) :
  isRunning w = true ->
  index (words w) (currentIndex w) = None ->
  animate w = Throw TypeError w.
Proof.
  intros Hrun Hidx. unfold animate, bind, get. rewrite Hrun, Hidx.
  cbn [negb substringOf throw]. destruct (isDeleting w); reflexivity.
Qed.

(** C5 (fails on the code): with an empty word list a tick of a running
    widget throws a [TypeError]: [currentWord] is [undefined] and its
    [substring] is taken.  Nothing is rendered and nothing is scheduled, the
    widget is left as it was, but the tick faults; in particular the first
    tick of the widget built for an empty attribute. *)
Theorem empty_list_tick_throws (w : Widget) :
  let running := set_isRunning true (set_words [] w) in
  animate running = Throw TypeError running
  /\ words (widgetFor EmptyString 1024) = []
  /\ returns (fireNext (widgetFor EmptyString 1024)) = false
  /\ rendered (ticks 1 (widgetFor EmptyString 1024)) = Some []
  /\ timers (window (ticks 1 (widgetFor EmptyString 1024))) = [].
Proof.
  intros running. split; [| vm_compute; repeat split; reflexivity].
  apply animate_undefined; [reflexivity | apply index_nil].
Qed.

(** ** Viewport changes under a running animation *)

(** Once [charIndex] has reached or passed the length of the current word
    while typing, the typing run never ends. *)
Lemma typing_overshoot (n : nat) : forall (w : Widget) (word : jsstring),
  ticking w -> isDeleting w = false ->
  index (words w) (currentIndex w) = Some word ->
  JS.length word <= charIndex w ->
  let w' := ticks n w in
  ticking w' /\ isDeleting w' = false
  /\ charIndex w' = charIndex w + Z.of_nat n
  /\ currentIndex w' = currentIndex w
  /\ words w' = words w.
Proof.
  induction n as [| n IH]; intros w word Htick Hdel Hword Hlen.
  - cbn [ticks]. rewrite Z.add_0_r. auto.
  - change (ticks (S n) w) with (ticks n (after (fireNext w))).
    destruct (tick_typing w word Htick Hdel Hword)
      as (_ & Htick' & _ & Hc & Hd & Hi & Hw).
    assert (E : (charIndex w + 1 =? JS.length word) = false)
      by (apply Z.eqb_neq; lia).
    rewrite E in Hd. rewrite <- Hi, <- Hw in Hword.
    destruct (IH _ word Htick' Hd Hword ltac:(lia)) as (? & ? & Hc' & ? & ?).
    repeat (split; [first [assumption | congruence] |]).
    split; [rewrite Hc', Hc; lia |]. split; congruence.
Qed.

(** C4 (fails on the code): a 25-character title on a desktop viewport, 22
    characters typed, then a resize to 500 pixels whose debounced handler runs
    two ticks later, with [charIndex] at 24 of 25.  The handler swaps the list
    for the truncated one, whose only word has 23 characters, and leaves
    [charIndex] at 24: the bound on [charIndex] is broken, and since the
    typing run ends only on equality it never ends, [charIndex] grows with
    every tick.  The bound on [currentIndex] holds. *)
Theorem mode_switch_breaks_char_bound :
  JS.length (currentWord beforeSwitch) = 25
  /\ charIndex beforeSwitch = 24
  /\ overshot = handle beforeSwitch (Fire 24)
  /\ JS.length (currentWord overshot) = 23
  /\ charIndex overshot = 24
  /\ isDeleting overshot = false
  /\ 0 <= currentIndex overshot < JS.length (words overshot)
  /\ forall n : nat,
       isDeleting (ticks n overshot) = false
       /\ charIndex (ticks n overshot) = 24 + Z.of_nat n
       /\ JS.length (currentWord (ticks n overshot)) = 23.
Proof.
  assert (Htick : ticking overshot).
  { split; [vm_compute; reflexivity |]. split; [vm_compute; discriminate |].
    eexists. split; vm_compute; reflexivity. }
  assert (Hword : index (words overshot) (currentIndex overshot)
                  = Some (lit "Senior Software Arch..."))
    by (vm_compute; reflexivity).
  do 6 (split; [vm_compute; reflexivity |]).
  split; [vm_compute; split; [discriminate | reflexivity] |].
  intros n.
  destruct (typing_overshoot n overshot _ Htick ltac:(vm_compute; reflexivity)
              Hword ltac:(vm_compute; discriminate))
    as (_ & Hd & Hc & Hi & Hw).
  split; [exact Hd |]. split; [rewrite Hc; vm_compute (charIndex overshot); reflexivity |].
  unfold currentWord. rewrite Hi, Hw, Hword. vm_compute. reflexivity.
Qed.

(** ** The responsive handler *)

Lemma handleResponsive_mobile (w : Widget) :
  innerWidth (window w) < responsiveBreakpoint (options w) ->
  exists w',
    handleResponsive w = Ok tt w'
    /\ words w' = map (truncateWord (maxWordLength (options w))) (words w)
    /\ originalWords w' = Some (orDefault (originalWords w) (words w))
    /\ timing (options w') = mobileProfile
    /\ maxWordLength (options w') = maxWordLength (options w)
    /\ responsiveBreakpoint (options w') = responsiveBreakpoint (options w)
    /\ window w' = window w.
Proof.
  intros H. apply Z.ltb_lt in H. unfold_js. rewrite H.
  destruct (originalWords w) eqn:E; cbn; rewrite ?E;
    (eexists; split; [reflexivity |]; cbn; rewrite ?E; repeat split; reflexivity).
Qed.

Lemma handleResponsive_desktop (w : Widget) :
  responsiveBreakpoint (options w) <= innerWidth (window w) ->
  exists w',
    handleResponsive w = Ok tt w'
    /\ words w' = orDefault (originalWords w) (words w)
    /\ originalWords w' = originalWords w
    /\ timing (options w') = desktopProfile
    /\ maxWordLength (options w') = maxWordLength (options w)
    /\ responsiveBreakpoint (options w') = responsiveBreakpoint (options w)
    /\ window w' = window w.
Proof.
  intros H. apply Z.ltb_ge in H. unfold_js. rewrite H.
  destruct (originalWords w) eqn:E; cbn; rewrite ?E;
    (eexists; split; [reflexivity |]; cbn; rewrite ?E; repeat split; reflexivity).
Qed.

(** Every evaluation of the handler returns and sets the profile of the
    viewport it sees. *)
Lemma handleResponsive_timing (w : Widget) :
  exists w',
    handleResponsive w = Ok tt w'
    /\ timing (options w') =
       (if innerWidth (window w) <? responsiveBreakpoint (options w)
        then mobileProfile else desktopProfile).
Proof.
  destruct (Z.ltb_spec (innerWidth (window w)) (responsiveBreakpoint (options w)))
    as [H | H].
  - destruct (handleResponsive_mobile w H) as (w' & ? & _ & _ & ? & _). eauto.
  - destruct (handleResponsive_desktop w H) as (w' & ? & _ & _ & ? & _). eauto.
Qed.

Lemma truncateWord_long (maxLen : Z) (word : jsstring) :
  0 <= maxLen < JS.length word ->
  truncateWord maxLen word = firstn (Z.to_nat maxLen) word ++ lit "...".
Proof.
  intros H. unfold truncateWord.
  destruct (Z.gtb_spec (JS.length word) maxLen); [| lia].
  rewrite substring_prefix. reflexivity.
Qed.

(** Truncating a truncated word changes nothing: the marker is not added
    twice. *)
Lemma truncateWord_idempotent (maxLen : Z) (word : jsstring) :
  truncateWord maxLen (truncateWord maxLen word) = truncateWord maxLen word.
Proof.
  destruct (Z.le_gt_cases (JS.length word) maxLen) as [Hshort | Hlong].
  - assert (E : truncateWord maxLen word = word).
    { unfold truncateWord.
      destruct (Z.gtb_spec (JS.length word) maxLen); [lia | reflexivity]. }
    rewrite !E. reflexivity.
  - set (n := Z.to_nat maxLen).
    assert (E : truncateWord maxLen word = firstn n word ++ lit "...").
    { unfold truncateWord.
      destruct (Z.gtb_spec (JS.length word) maxLen); [| lia].
      rewrite substring_prefix. reflexivity. }
    assert (Hn : List.length (firstn n word) = n).
    { apply firstn_length_le. unfold JS.length in Hlong. lia. }
    rewrite E. unfold truncateWord.
    destruct (Z.gtb_spec (JS.length (firstn n word ++ lit "...")) maxLen)
      as [_ | Hle].
    + rewrite substring_prefix. fold n. rewrite firstn_app, Hn, Nat.sub_diag.
      rewrite firstn_all2 by lia. cbn [firstn]. rewrite app_nil_r. reflexivity.
    + exfalso. rewrite length_app in Hle. unfold JS.length in Hle.
      rewrite Hn in Hle. cbn in Hle. lia.
Qed.

(** C6: with [maxWordLength] 20, entering mobile mode turns a word of 25
    characters into its first 20 characters followed by "..." and caches the
    list as it was; a further evaluation in mobile mode changes neither the
    list (the marker is not added again) nor the cache; leaving mobile mode
    gives back exactly the list from before. *)
Theorem truncation_round_trip (w : Widget) (i : Z) (word : jsstring)
  (mobile mobile' desktop : Z) :
  maxWordLength (options w) = 20 ->
  JS.length word = 25 ->
  index (words w) i = Some word ->
  originalWords w = None \/ originalWords w = Some (words w) ->
  mobile < responsiveBreakpoint (options w) ->
  mobile' < responsiveBreakpoint (options w) ->
  responsiveBreakpoint (options w) <= desktop ->
  exists w1 w2 w3,
    handleResponsive (atWidth mobile w) = Ok tt w1
    /\ index (words w1) i = Some (firstn 20 word ++ lit "...")
    /\ originalWords w1 = Some (words w)
    /\ handleResponsive (atWidth mobile' w1) = Ok tt w2
    /\ words w2 = words w1
    /\ originalWords w2 = Some (words w)
    /\ handleResponsive (atWidth desktop w2) = Ok tt w3
    /\ words w3 = words w
    /\ originalWords w3 = Some (words w).
Proof.
  intros Hmax Hlen Hword Hcache Hm Hm' Hd.
  destruct (handleResponsive_mobile (atWidth mobile w) Hm)
    as (w1 & H1 & Hw1 & Ho1 & _ & Hmax1 & Hbp1 & _).
  cbn in Hw1, Ho1, Hmax1, Hbp1.
  assert (Ho1' : originalWords w1 = Some (words w)).
  { rewrite Ho1. destruct Hcache as [-> | ->]; reflexivity. }
  destruct (handleResponsive_mobile (atWidth mobile' w1)) as
    (w2 & H2 & Hw2 & Ho2 & _ & Hmax2 & Hbp2 & _); [cbn; lia |].
  cbn in Hw2, Ho2, Hmax2, Hbp2.
  assert (Hw2' : words w2 = words w1).
  { rewrite Hw2, Hmax1, Hw1, map_map. apply map_ext.
    intros x. apply truncateWord_idempotent. }
  assert (Ho2' : originalWords w2 = Some (words w)).
  { rewrite Ho2, Ho1'. reflexivity. }
  destruct (handleResponsive_desktop (atWidth desktop w2)) as
    (w3 & H3 & Hw3 & Ho3 & _); [cbn; lia |].
  cbn in Hw3, Ho3. rewrite Ho2' in Hw3, Ho3. cbn in Hw3.
  exists w1, w2, w3. repeat (split; [first [assumption | idtac] |]); try assumption.
  rewrite Hw1, index_map, Hword, Hmax. cbn [option_map].
  rewrite truncateWord_long by lia. reflexivity.
Qed.

(** The 25-character title on a desktop viewport, taken to 500 pixels, then
    400, then back to 1024. *)
Lemma truncation_round_trip_witness :
  maxWordLength (options titleWidget) = 20
  /\ JS.length (lit longTitle) = 25
  /\ index (words titleWidget) 0 = Some (lit longTitle)
  /\ (originalWords titleWidget = None
      \/ originalWords titleWidget = Some (words titleWidget))
  /\ 500 < responsiveBreakpoint (options titleWidget)
  /\ 400 < responsiveBreakpoint (options titleWidget)
  /\ responsiveBreakpoint (options titleWidget) <= 1024
  /\ exists w1 w2 w3,
       handleResponsive (atWidth 500 titleWidget) = Ok tt w1
       /\ index (words w1) 0 = Some (firstn 20 (lit longTitle) ++ lit "...")
       /\ originalWords w1 = Some (words titleWidget)
       /\ handleResponsive (atWidth 400 w1) = Ok tt w2
       /\ words w2 = words w1
       /\ originalWords w2 = Some (words titleWidget)
       /\ handleResponsive (atWidth 1024 w2) = Ok tt w3
       /\ words w3 = words titleWidget
       /\ originalWords w3 = Some (words titleWidget).
Proof.
  assert (H1 : maxWordLength (options titleWidget) = 20)
    by (vm_compute; reflexivity).
  assert (H2 : JS.length (lit longTitle) = 25) by (vm_compute; reflexivity).
  assert (H3 : index (words titleWidget) 0 = Some (lit longTitle))
    by (vm_compute; reflexivity).
  assert (H4 : originalWords titleWidget = None
               \/ originalWords titleWidget = Some (words titleWidget))
    by (left; vm_compute; reflexivity).
  assert (H5 : 500 < responsiveBreakpoint (options titleWidget))
    by (vm_compute; reflexivity).
  assert (H6 : 400 < responsiveBreakpoint (options titleWidget))
    by (vm_compute; reflexivity).
  assert (H7 : responsiveBreakpoint (options titleWidget) <= 1024)
    by (vm_compute; discriminate).
  split; [exact H1 |]. split; [exact H2 |]. split; [exact H3 |].
  split; [exact H4 |]. split; [exact H5 |]. split; [exact H6 |].
  split; [exact H7 |].
  exact (truncation_round_trip titleWidget 0 (lit longTitle) 500 400 1024
           H1 H2 H3 H4 H5 H6 H7).
Defined.

(** The title on screen in mobile mode. *)
Example truncated_title :
  truncateWord 20 (lit longTitle) = lit "Senior Software Arch...".
Proof. vm_compute. reflexivity. Qed.

(** ** Stopping and starting *)

Lemma stop_spec (w : Widget) :
  exists w',
    stop w = Ok tt w'
    /\ isRunning w' = false
    /\ rendered w' = rendered w
    /\ words w' = words w
    /\ currentIndex w' = currentIndex w
    /\ charIndex w' = charIndex w
    /\ isDeleting w' = isDeleting w
    /\ options w' = options w
    /\ timers (window w') = timers (window w).
Proof.
  unfold_js. unfold rendered. cbn.
  destruct (animationId w) as [id |]; [destruct (id =? 0) |];
    (eexists; split; [reflexivity |]; cbn; repeat split; reflexivity).
Qed.

Lemma start_stopped (w : Widget) :
  isRunning w = false ->
  start w =
  animate (set_element
             (set_classList (tokensAdd "typewriter-active" (classList (element w)))
                (element w))
             (set_isRunning true w)).
Proof.
  intros H. unfold start, bind, get, modify, onElement. rewrite H. reflexivity.
Qed.

(** C7: [stop()] keeps the position; [start()] right after it runs one tick
    from that position, so the next render is the prefix one character longer
    when typing (one shorter when deleting): nothing is skipped and nothing is
    rendered twice. *)
Theorem stop_start_resumes (w : Widget) (word old : jsstring) :
  isRunning w = true ->
  index (words w) (currentIndex w) = Some word ->
  rendered w = Some old ->
  exists w1 w2,
    stop w = Ok tt w1
    /\ start w1 = Ok tt w2
    /\ isRunning w1 = false
    /\ charIndex w1 = charIndex w
    /\ rendered w1 = Some old
    /\ isRunning w2 = true
    /\ (isDeleting w = false ->
        rendered w2 = Some (substring word 0 (charIndex w + 1))
        /\ charIndex w2 = charIndex w + 1)
    /\ (isDeleting w = true ->
        rendered w2 = Some (substring word 0 (charIndex w - 1))
        /\ charIndex w2 = charIndex w - 1).
Proof.
  intros Hrun Hword Htext.
  destruct (stop_spec w) as (w1 & Hstop & Hr1 & Ht1 & Hw1 & Hi1 & Hc1 & Hd1 & _).
  rewrite <- Hw1, <- Hi1 in Hword. rewrite <- Ht1 in Htext.
  set (w1' := set_element
                (set_classList
                   (tokensAdd "typewriter-active" (classList (element w1)))
                   (element w1))
                (set_isRunning true w1)).
  pose proof (start_stopped w1 Hr1) as Hstart. fold w1' in Hstart.
  destruct (isDeleting w) eqn:Hdel.
  - destruct (animate_deleting w1' word old eq_refl Hd1 Hword Htext)
      as (w2 & d & Hw2 & Hr & Hc & _ & _ & _ & Hrun2 & _).
    cbn in Hr, Hc. rewrite Hc1 in Hr, Hc.
    exists w1, w2. rewrite Hstart.
    split; [exact Hstop |]. split; [exact Hw2 |]. split; [exact Hr1 |].
    split; [exact Hc1 |]. split; [exact Htext |]. split; [exact Hrun2 |].
    split; [discriminate | intros _; split; assumption].
  - destruct (animate_typing w1' word old eq_refl Hd1 Hword Htext)
      as (w2 & d & Hw2 & Hr & Hc & _ & _ & _ & Hrun2 & _).
    cbn in Hr, Hc. rewrite Hc1 in Hr, Hc.
    exists w1, w2. rewrite Hstart.
    split; [exact Hstop |]. split; [exact Hw2 |]. split; [exact Hr1 |].
    split; [exact Hc1 |]. split; [exact Htext |]. split; [exact Hrun2 |].
    split; [intros _; split; assumption | discriminate].
Qed.

(** "Rust" with "Ru" on screen: after [stop()] and [start()] the screen shows
    "Rus" and [charIndex] is 3. *)
Lemma stop_start_resumes_witness :
  isRunning (rustWidget 2) = true
  /\ index (words (rustWidget 2)) (currentIndex (rustWidget 2)) = Some (lit "Rust")
  /\ rendered (rustWidget 2) = Some (lit "Ru")
  /\ exists w1 w2,
       stop (rustWidget 2) = Ok tt w1
       /\ start w1 = Ok tt w2
       /\ rendered w2 = Some (lit "Rus")
       /\ charIndex w2 = 3.
Proof.
  assert (Hrun : isRunning (rustWidget 2) = true) by (vm_compute; reflexivity).
  assert (Hword : index (words (rustWidget 2)) (currentIndex (rustWidget 2))
                  = Some (lit "Rust")) by (vm_compute; reflexivity).
  assert (Htext : rendered (rustWidget 2) = Some (lit "Ru"))
    by (vm_compute; reflexivity).
  assert (Hdel : isDeleting (rustWidget 2) = false) by (vm_compute; reflexivity).
  split; [exact Hrun |]. split; [exact Hword |]. split; [exact Htext |].
  destruct (stop_start_resumes (rustWidget 2) (lit "Rust") (lit "Ru")
              Hrun Hword Htext)
    as (w1 & w2 & Hstop & Hstart & _ & _ & _ & _ & Htyping & _).
  destruct (Htyping Hdel) as (Hr & Hc).
  exists w1, w2. split; [exact Hstop |]. split; [exact Hstart |].
  split; [rewrite Hr | rewrite Hc]; vm_compute; reflexivity.
Defined.

(** The scenario of the specification, run: "Ru" on screen, stop, start, and
    the screen shows "Rus"; the two timers then pending render "Rust" and
    start the deletion. *)
Example rust_restart :
  let restarted := after (start (after (stop (rustWidget 2)))) in
  rendered (rustWidget 2) = Some (lit "Ru")
  /\ rendered restarted = Some (lit "Rus")
  /\ rendered (ticks 1 restarted) = Some (lit "Rust")
  /\ rendered (ticks 2 restarted) = Some (lit "Rus")
  /\ List.length (timers (window restarted)) = 2%nat.
Proof. vm_compute. repeat split; reflexivity. Qed.

(** ** What a call leaves alone *)

Section Keeps.
Context {X : Type} (part : Widget -> X).

Lemma keeps_ret {A} (a : A) : keeps part (ret a).
Proof. intros w. reflexivity. Qed.

Lemma keeps_throw {A} (e : Error) : keeps part (@throw A e).
Proof. intros w. reflexivity. Qed.

Lemma keeps_get : keeps part get.
Proof. intros w. reflexivity. Qed.

Lemma keeps_modify (f : Widget -> Widget) :
  (forall w, part (f w) = part w) -> keeps part (modify f).
Proof. intros H w. apply H. Qed.

Lemma keeps_bind {A B} (m : M A) (k : A -> M B) :
  keeps part m -> (forall a, keeps part (k a)) -> keeps part (bind m k).
Proof.
  intros Hm Hk w. unfold bind. specialize (Hm w).
  destruct (m w) as [a w' | e w']; cbn [after] in *.
  - rewrite Hk. exact Hm.
  - exact Hm.
Qed.

End Keeps.

(** Peels a method into its calls; what is left are the field updates.
    Calls with a lemma in the hint database [keeps] are closed by it. *)
Create HintDb keeps.

Ltac keeps_step :=
  first
    [ solve [auto 1 with keeps nocore]
    | lazymatch goal with
      | |- keeps _ (ret _) => apply keeps_ret
      | |- keeps _ (throw _) => apply keeps_throw
      | |- keeps _ get => apply keeps_get
      | |- keeps _ (bind _ _) => apply keeps_bind; [| intros ?; cbv beta]
      | |- keeps _ (modify _) => apply keeps_modify; intros ?
      | |- keeps _ (if ?b then _ else _) => destruct b
      | |- keeps _ (match ?x with _ => _ end) => destruct x
      end ].

Ltac keeps_all := repeat keeps_step; try reflexivity.

(** The calls that only touch the page, the position and the flags keep the
    setup: the two word lists and the options. *)
Lemma setTimeout_setup cb ms : keeps setup (setTimeout cb ms).
Proof. unfold setTimeout, onWindow. keeps_all. Qed.

Lemma requestAnimationFrame_setup : keeps setup requestAnimationFrame.
Proof. unfold requestAnimationFrame, onWindow. keeps_all. Qed.

Lemma setTextContent_setup s : keeps setup (setTextContent s).
Proof. unfold setTextContent, onElement. keeps_all. Qed.

Lemma calculateTypingSpeed_setup word i :
  keeps setup (calculateTypingSpeed word i).
Proof. unfold calculateTypingSpeed. keeps_all. Qed.

#[local] Hint Resolve setTimeout_setup requestAnimationFrame_setup
  setTextContent_setup calculateTypingSpeed_setup : keeps.

Lemma animate_setup : keeps setup animate.
Proof. unfold animate, substringOf, defined. keeps_all. Qed.

Lemma stop_setup : keeps setup stop.
Proof. unfold stop, onElement, cancelAnimationFrame, onWindow. keeps_all. Qed.

#[local] Hint Resolve animate_setup stop_setup : keeps.

Lemma start_setup : keeps setup start.
Proof. unfold start, onElement. keeps_all. Qed.

Lemma destroy_setup : keeps setup destroy.
Proof.
  unfold destroy, querySelectorSrOnly, removeChild, onElement, onWindow.
  keeps_all.
Qed.

Lemma executedFunction_setup : keeps setup executedFunction.
Proof. unfold executedFunction, clearTimeout, onWindow. keeps_all. Qed.

Lemma setup_options {A} (m : M A) : keeps setup m -> keeps options m.
Proof. intros H w. specialize (H w). unfold setup in H. congruence. Qed.

Lemma setup_words {A} (m : M A) : keeps setup m -> keeps words m.
Proof. intros H w. specialize (H w). unfold setup in H. congruence. Qed.

Lemma setup_originalWords {A} (m : M A) :
  keeps setup m -> keeps originalWords m.
Proof. intros H w. specialize (H w). unfold setup in H. congruence. Qed.

Lemma animate_options : keeps options animate.
Proof. exact (setup_options _ animate_setup). Qed.

Lemma stop_options : keeps options stop.
Proof. exact (setup_options _ stop_setup). Qed.

Lemma start_options : keeps options start.
Proof. exact (setup_options _ start_setup). Qed.

Lemma destroy_options : keeps options destroy.
Proof. exact (setup_options _ destroy_setup). Qed.

Lemma executedFunction_options : keeps options executedFunction.
Proof. exact (setup_options _ executedFunction_setup). Qed.

#[local] Hint Resolve start_setup destroy_setup executedFunction_setup
  start_options destroy_options executedFunction_options : keeps.

(** The calls that do not animate keep the position. *)
Lemma stop_position : keeps position stop.
Proof. unfold stop, onElement, cancelAnimationFrame, onWindow. keeps_all. Qed.

#[local] Hint Resolve stop_position : keeps.

Lemma destroy_position : keeps position destroy.
Proof.
  unfold destroy, querySelectorSrOnly, removeChild, onElement, onWindow.
  keeps_all.
Qed.

Lemma setTimeout_position cb ms : keeps position (setTimeout cb ms).
Proof. unfold setTimeout, onWindow. keeps_all. Qed.

#[local] Hint Resolve setTimeout_position : keeps.

Lemma executedFunction_position : keeps position executedFunction.
Proof. unfold executedFunction, clearTimeout, onWindow. keeps_all. Qed.

Lemma handleResponsive_position : keeps position handleResponsive.
Proof.
  unfold handleResponsive, truncateLongWords, restoreOriginalWords,
    adjustTimingForMobile, adjustTimingForDesktop, calculateContainerHeight,
    onOptions, onElement.
  keeps_all.
Qed.

#[local] Hint Resolve destroy_position executedFunction_position
  handleResponsive_position : keeps.

(** ** Timing profiles *)

Lemma handleResponsive_profiled (w : Widget) :
  profiled (options (after (handleResponsive w))).
Proof.
  destruct (handleResponsive_timing w) as (w' & -> & Ht). cbn [after].
  unfold profiled. rewrite Ht.
  destruct (innerWidth (window w) <? responsiveBreakpoint (options w)); auto.
Qed.

Lemma runCallback_profiled (cb : Callback) (w : Widget) :
  profiled (options w) -> profiled (options (after (runCallback cb w))).
Proof.
  intros H. destruct cb; cbn [runCallback].
  - rewrite start_options. exact H.
  - rewrite animate_options. exact H.
  - unfold bind, get, clearTimeout, onWindow, modify.
    destruct (debounceTimeout w); apply handleResponsive_profiled.
Qed.

(** No event takes the timing away from the two profiles. *)
Lemma handle_profiled (w : Widget) (ev : Event) :
  profiled (options w) -> profiled (options (handle w ev)).
Proof.
  intros H. unfold handle. destruct ev; cbn [dispatch].
  - assert (K : keeps options
                  (onWindow (set_innerWidth width) ;;
                   w <- get ;;
                   if resizeListener (window w) then executedFunction else ret tt))
      by (unfold onWindow; keeps_all).
    rewrite K. exact H.
  - unfold bind at 1. unfold get.
    destruct (find (fun t => timerId t =? id) (timers (window w))) as [t |];
      [| exact H].
    unfold bind, onWindow, modify. apply runCallback_profiled. exact H.
  - assert (K : keeps options (onWindow (set_frames [])))
      by (unfold onWindow; keeps_all).
    rewrite K. exact H.
  - rewrite start_options. exact H.
  - rewrite stop_options. exact H.
  - rewrite destroy_options. exact H.
Qed.

Lemma play_profiled (events : list Event) : forall w,
  profiled (options w) -> profiled (options (play events w)).
Proof.
  induction events as [| ev rest IH]; intros w H; [exact H |].
  cbn [play fold_left]. apply IH, handle_profiled, H.
Qed.

(** C9: when both sub-elements are there, construction runs the responsive
    handler once before anything is rendered or any tick is due (the only
    timer it leaves is the delayed start): whatever timing the caller gave,
    the three durations are the mobile profile below the breakpoint and the
    desktop profile otherwise.  Every later evaluation of the handler sets a
    profile again, and after any sequence of events the timing is one of the
    two profiles. *)
Theorem construct_overwrites_timing (el : Element) (given : Overrides)
  (g : Window) (text : jsstring) (cursor : list (string * string)) :
  textChild el = Some text ->
  cursorChild el = Some cursor ->
  exists w,
    construct el given g = Ok tt w
    /\ timing (options w) =
       (if innerWidth g <? responsiveBreakpoint (mergeOptions given)
        then mobileProfile else desktopProfile)
    /\ isRunning w = false
    /\ rendered w = Some text
    /\ timers (window w) =
       timers g ++ [{| timerId := nextTimer g; callback := CbStart; delay := 300 |}]
    /\ (forall w0, exists w1,
          handleResponsive w0 = Ok tt w1
          /\ timing (options w1) =
             (if innerWidth (window w0) <? responsiveBreakpoint (options w0)
              then mobileProfile else desktopProfile))
    /\ (forall events, profiled (options (play events w))).
Proof.
  intros Htext Hcursor.
  assert (Hinit : exists w,
    construct el given g = Ok tt w
    /\ timing (options w) =
       (if innerWidth g <? responsiveBreakpoint (mergeOptions given)
        then mobileProfile else desktopProfile)
    /\ isRunning w = false
    /\ rendered w = Some text
    /\ timers (window w) =
       timers g ++ [{| timerId := nextTimer g; callback := CbStart; delay := 300 |}]).
  { unfold construct, bind at 1, get, rendered.
    cbn [newWidget element]. rewrite Htext, Hcursor.
    unfold_js. cbn. rewrite Hcursor. cbn.
    match goal with
    | |- context [innerWidth g <? ?bp] => destruct (innerWidth g <? bp)
    end;
      cbn; (eexists; split; [reflexivity |]; cbn; rewrite ?Htext;
            repeat split; reflexivity). }
  destruct Hinit as (w & Hw & Ht & Hrun & Hr & Htm).
  exists w. split; [exact Hw |]. split; [exact Ht |]. split; [exact Hrun |].
  split; [exact Hr |]. split; [exact Htm |]. split.
  - exact handleResponsive_timing.
  - intros events. apply play_profiled. unfold profiled. rewrite Ht.
    destruct (innerWidth g <? responsiveBreakpoint (mergeOptions given)); auto.
Qed.

(** A caller asks for 7 ms everywhere on a 500-pixel viewport and gets the
    mobile profile. *)
Lemma construct_overwrites_timing_witness :
  textChild (host "Rust" (Some []) (Some [])) = Some []
  /\ cursorChild (host "Rust" (Some []) (Some [])) = Some []
  /\ exists w,
       construct (host "Rust" (Some []) (Some []))
         {| givenTypingSpeed := Some 7%float;
            givenDeletingSpeed := Some 7%float;
            givenPauseDuration := Some 7%float;
            givenCursorChar := None;
            givenCursorBlinkSpeed := None;
            givenResponsiveBreakpoint := None;
            givenMaxWordLength := None |} (page 500) = Ok tt w
       /\ timing (options w) = mobileProfile.
Proof.
  split; [reflexivity |]. split; [reflexivity |].
  destruct (construct_overwrites_timing
              (host "Rust" (Some []) (Some []))
              {| givenTypingSpeed := Some 7%float;
                 givenDeletingSpeed := Some 7%float;
                 givenPauseDuration := Some 7%float;
                 givenCursorChar := None;
                 givenCursorBlinkSpeed := None;
                 givenResponsiveBreakpoint := None;
                 givenMaxWordLength := None |} (page 500) [] []
              eq_refl eq_refl) as (w & Hw & Ht & _).
  exists w. split; [exact Hw | exact Ht].
Defined.

(** ** Construction without the sub-elements *)

Lemma construct_inert (el : Element) (given : Overrides) (g : Window) :
  textChild el = None \/ cursorChild el = None ->
  construct el given g
  = Ok tt (set_window (set_console (console g ++ [diagnostic]) g)
             (newWidget el given g)).
Proof.
  intros H. unfold construct, bind, get, consoleWarn, onWindow, modify.
  cbn [newWidget element window].
  destruct H as [-> | ->]; [| destruct (textChild el)]; reflexivity.
Qed.

(** Without a sub-element the merged options stay as the constructor made
    them: the responsive handler is not evaluated. *)
Lemma construct_keeps_given_timing (el : Element) (given : Overrides)
  (g : Window) :
  textChild el = None \/ cursorChild el = None ->
  timing (options (after (construct el given g))) = timing (mergeOptions given).
Proof.
  intros H. rewrite (construct_inert el given g H). reflexivity.
Qed.

(** C9, as the claim has it, fails when a sub-element is missing:
    the constructor returns before [init()] (lines 33-36), so the responsive
    handler is not evaluated and no resize listener is registered.  The
    caller's 7 ms survive construction and every resize, the timing is
    neither profile, and [start()] on the instance types the first character
    and schedules the next tick 7 ms later. *)
Lemma custom_timing_without_subelements :
  construct (host "Rust" (Some []) None) customTiming (page 500)
  = Ok tt inertCustom
  /\ timing (options inertCustom) = (7, 7, 7)%float
  /\ ~ profiled (options inertCustom)
  /\ timing (options (play [Resize 400; Resize 1024] inertCustom))
     = (7, 7, 7)%float
  /\ rendered (after (start inertCustom)) = Some (lit "R")
  /\ map delay (timers (window (after (start inertCustom)))) = [7%float].
Proof.
  split; [vm_compute; reflexivity |].
  split; [vm_compute; reflexivity |].
  split.
  { unfold profiled.
    intros [E | E];
      apply (f_equal (fun p => PrimFloat.eqb (fst (fst p)) 7)) in E;
      vm_compute in E; discriminate E. }
  split; [vm_compute; reflexivity |].
  split; vm_compute; reflexivity.
Qed.

(** A widget that has registered nothing is not moved by the page: no timer
    of its own can expire and no resize reaches it. *)
Lemma unregistered_page_event (w : Widget) (ev : Event) :
  fromPage ev = true ->
  timers (window w) = [] ->
  resizeListener (window w) = false ->
  let w' := handle w ev in
  timers (window w') = []
  /\ resizeListener (window w') = false
  /\ isRunning w' = isRunning w
  /\ element w' = element w
  /\ charIndex w' = charIndex w
  /\ console (window w') = console (window w).
Proof.
  intros Hpage Ht Hl. unfold handle.
  destruct ev; try discriminate; unfold dispatch, bind, get, onWindow, modify.
  - cbn. rewrite Hl. cbn. rewrite Ht, Hl. repeat split; reflexivity.
  - rewrite Ht. cbn. rewrite Ht, Hl. repeat split; reflexivity.
  - cbn. rewrite Ht, Hl. repeat split; reflexivity.
Qed.

Lemma unregistered_page_events (events : list Event) : forall w,
  forallb fromPage events = true ->
  timers (window w) = [] ->
  resizeListener (window w) = false ->
  let w' := play events w in
  timers (window w') = []
  /\ isRunning w' = isRunning w
  /\ element w' = element w
  /\ charIndex w' = charIndex w
  /\ console (window w') = console (window w).
Proof.
  induction events as [| ev rest IH]; intros w Hall Ht Hl.
  - cbn. auto.
  - cbn [forallb] in Hall. apply andb_true_iff in Hall. destruct Hall as [Hev Hrest].
    destruct (unregistered_page_event w ev Hev Ht Hl)
      as (Ht' & Hl' & Hrun & Hel & Hc & Hcon).
    destruct (IH (handle w ev) Hrest Ht' Hl') as (? & ? & ? & ? & ?).
    cbv zeta. change (play (ev :: rest) w) with (play rest (handle w ev)).
    repeat split; congruence.
Qed.

Lemma stop_returns (w : Widget) : returns (stop w) = true.
Proof. destruct (stop_spec w) as (w' & -> & _). reflexivity. Qed.

(** [destroy()] returns unless the node [querySelector] finds is not a child
    of the container; then [removeChild] throws, after the widget was stopped
    and the listener removed, and before the classes are. *)
Lemma destroy_outcome (w : Widget) :
  exists d,
    destroy w = (if srOnlyNested (element w)
                 then Throw NotFoundError d else Ok tt d)
    /\ isRunning d = false
    /\ rendered d = rendered w
    /\ timers (window d) = timers (window w).
Proof.
  unfold srOnlyNested, rendered. unfold_js. cbn -[tokensRemove].
  destruct (animationId w) as [id |]; [destruct (id =? 0) |];
    cbn -[tokensRemove]; destruct (resizeHandler w); cbn -[tokensRemove];
    destruct (srOnlyNodes (element w)) as [| [s | |] rest];
    cbn -[tokensRemove]; eexists; (split; [reflexivity |]);
    cbn; repeat split; reflexivity.
Qed.

Lemma destroy_returns (w : Widget) :
  returns (destroy w) = negb (srOnlyNested (element w)).
Proof.
  destruct (destroy_outcome w) as (d & -> & _).
  destruct (srOnlyNested (element w)); reflexivity.
Qed.

(** C8, as the code has it: when the text or the cursor sub-element is
    missing, construction returns without throwing, logs the diagnostic and
    does nothing else: the container is untouched, no timer, frame or resize
    listener is registered, the widget is not running, and no event of the
    page ever starts it or changes what is shown.  The public operations stay
    callable on the instance: [stop()] returns and leaves it stopped with the
    same content; [destroy()] leaves it stopped with the same content too,
    and returns unless the first [.sr-only] node inside the container is not
    one of its children, in which case it throws a [NotFoundError]. *)
Theorem construct_without_subelements (el : Element) (given : Overrides)
  (g : Window) :
  textChild el = None \/ cursorChild el = None ->
  exists w,
    construct el given g = Ok tt w
    /\ console (window w) = console g ++ [diagnostic]
    /\ element w = el
    /\ isRunning w = false
    /\ resizeHandler w = false
    /\ timers (window w) = timers g
    /\ frames (window w) = frames g
    /\ resizeListener (window w) = resizeListener g
    /\ (exists w', stop w = Ok tt w'
                   /\ isRunning w' = false
                   /\ rendered w' = rendered w
                   /\ timers (window w') = timers (window w))
    /\ (exists d, destroy w = (if srOnlyNested el
                               then Throw NotFoundError d else Ok tt d)
                  /\ isRunning d = false
                  /\ rendered d = rendered w
                  /\ timers (window d) = timers (window w))
    /\ (timers g = [] -> resizeListener g = false ->
        forall events, forallb fromPage events = true ->
          isRunning (play events w) = false
          /\ element (play events w) = el
          /\ timers (window (play events w)) = []).
Proof.
  intros H.
  set (w := set_window (set_console (console g ++ [diagnostic]) g)
              (newWidget el given g)).
  exists w. split; [exact (construct_inert el given g H) |].
  do 7 (split; [reflexivity |]).
  split; [| split; [exact (destroy_outcome w) |]].
  - destruct (stop_spec w) as (w' & Hs & Hr & Ht & _ & _ & _ & _ & _ & Htm).
    exists w'. auto.
  - intros Ht Hl events Hall.
    destruct (unregistered_page_events events w Hall Ht Hl)
      as (Ht' & Hrun & Hel & _).
    auto.
Qed.

(** A container without the text node: the constructor returns, having
    logged the diagnostic and scheduled nothing. *)
Lemma construct_without_subelements_witness :
  (textChild (host "Rust" None (Some [])) = None
   \/ cursorChild (host "Rust" None (Some [])) = None)
  /\ exists w,
       construct (host "Rust" None (Some [])) noOverrides (page 1024) = Ok tt w
       /\ console (window w) = [diagnostic]
       /\ isRunning w = false
       /\ timers (window w) = [].
Proof.
  assert (H : textChild (host "Rust" None (Some [])) = None
              \/ cursorChild (host "Rust" None (Some [])) = None)
    by (left; reflexivity).
  split; [exact H |].
  destruct (construct_without_subelements
              (host "Rust" None (Some [])) noOverrides (page 1024) H)
    as (w & Hw & Hcon & _ & Hrun & _ & Htm & _).
  exists w. split; [exact Hw |]. split; [exact Hcon |].
  split; [exact Hrun | exact Htm].
Defined.

(** C8, as the specification has it, fails: [start()] is exposed on the inert
    instance and is not guarded.  Without the text node it throws a
    [TypeError], having set the running flag; without the cursor node it runs
    the animation: the first character is rendered and a tick is scheduled. *)
Lemma start_on_inert_instance :
  console (window inertWithoutText) = [diagnostic]
  /\ returns (start inertWithoutText) = false
  /\ isRunning (after (start inertWithoutText)) = true
  /\ console (window inertWithoutCursor) = [diagnostic]
  /\ returns (start inertWithoutCursor) = true
  /\ rendered inertWithoutCursor = Some []
  /\ rendered (after (start inertWithoutCursor)) = Some (lit "R")
  /\ List.length (timers (window (after (start inertWithoutCursor)))) = 1%nat.
Proof. vm_compute. repeat split; reflexivity. Qed.

(** ** Invariants of the animation *)

Lemma animate_no_text (w : Widget) (word : jsstring) :
  isRunning w = true ->
  index (words w) (currentIndex w) = Some word ->
  rendered w = None ->
  animate w = Throw TypeError w.
Proof.
  unfold rendered. intros Hrun Hword Htext.
  unfold animate, bind, get, substringOf, setTextContent, ret, throw.
  rewrite Hrun, Hword. cbn [negb].
  destruct (isDeleting w); cbn; rewrite Htext; reflexivity.
Qed.

(** What any call of [animate] does to the position: nothing (the widget is
    stopped, or the call throws), one character typed, or one deleted. *)
Lemma animate_position (w : Widget) :
  let w' := after (animate w) in
  position w' = position w
  \/ (exists word,
        index (words w) (currentIndex w) = Some word
        /\ isDeleting w = false
        /\ position w' =
           (currentIndex w, charIndex w + 1, charIndex w + 1 =? JS.length word))
  \/ (exists word,
        index (words w) (currentIndex w) = Some word
        /\ isDeleting w = true
        /\ position w' =
           (if charIndex w - 1 =? 0
            then (currentIndex w + 1) mod JS.length (words w)
            else currentIndex w,
            charIndex w - 1, negb (charIndex w - 1 =? 0))).
Proof.
  cbv zeta. destruct (isRunning w) eqn:Hrun.
  2: { left. unfold animate, bind, get. rewrite Hrun. reflexivity. }
  destruct (index (words w) (currentIndex w)) as [word |] eqn:Hword.
  2: { left. rewrite (animate_undefined w Hrun Hword). reflexivity. }
  destruct (rendered w) as [old |] eqn:Htext.
  2: { left. rewrite (animate_no_text w word Hrun Hword Htext). reflexivity. }
  right. destruct (isDeleting w) eqn:Hdel.
  - right. exists word.
    destruct (animate_deleting w word old Hrun Hdel Hword Htext)
      as (w' & d & -> & _ & Hc & Hd & Hi & _).
    cbn [after]. unfold position. rewrite Hc, Hd, Hi.
    rewrite rem_in_range by exact (index_Some_range _ _ _ Hword). auto.
  - left. exists word.
    destruct (animate_typing w word old Hrun Hdel Hword Htext)
      as (w' & d & -> & _ & Hc & Hd & Hi & _).
    cbn [after]. unfold position. rewrite Hc, Hd, Hi. auto.
Qed.

Lemma parseWords_nonEmpty (raw : jsstring) : nonEmpty (parseWords raw).
Proof.
  rewrite parseWords_refines. unfold parseWordList, nonEmpty.
  apply Forall_forall. intros word Hin. apply filter_In in Hin.
  destruct Hin as [_ Hne]. intros E. rewrite E in Hne. discriminate.
Qed.

Lemma truncateWord_nonEmpty (maxLen : Z) (word : jsstring) :
  word <> [] -> truncateWord maxLen word <> [].
Proof.
  intros H. unfold truncateWord. destruct (JS.length word >? maxLen); [| exact H].
  intros E. apply app_eq_nil in E. destruct E as [_ E]. discriminate.
Qed.

Lemma truncateWord_short (maxLen : Z) (word : jsstring) :
  JS.length word <= maxLen -> truncateWord maxLen word = word.
Proof.
  intros H. unfold truncateWord.
  destruct (Z.gtb_spec (JS.length word) maxLen); [lia | reflexivity].
Qed.

Lemma length_eq {A B} (l : list A) (l' : list B) :
  List.length l = List.length l' -> JS.length l = JS.length l'.
Proof. unfold JS.length. intros ->. reflexivity. Qed.

Lemma sound_stable : stable sound.
Proof.
  intros w w' Hs Hp. unfold setup, position in Hs, Hp.
  injection Hs as Hw Ho _. injection Hp as Hi _ _.
  unfold sound, listsAgree, indexBound. rewrite Hw, Ho, Hi. auto.
Qed.

Lemma steady_stable : stable steady.
Proof.
  intros w w' Hs Hp (Hsound & Hchar & Hlong).
  split; [exact (sound_stable w w' Hs Hp Hsound) |].
  unfold setup, position in Hs, Hp.
  injection Hs as Hw Ho Hopt. injection Hp as Hi Hc Hd.
  unfold charBound, noLongWord in *. rewrite Hw, Ho, Hopt, Hi, Hc, Hd. auto.
Qed.

(** The handler keeps the lists well formed and the index inside them: it
    maps over the active list or puts the cached one back, and both have the
    length the active list had. *)
Lemma handleResponsive_sound (w : Widget) :
  sound w -> sound (after (handleResponsive w)).
Proof.
  intros ((Hne & Hcache) & Hidx).
  pose proof (handleResponsive_position w) as Hpos.
  unfold position in Hpos. injection Hpos as Hi _ _.
  unfold sound, listsAgree, indexBound. rewrite Hi.
  destruct (Z.lt_ge_cases (innerWidth (window w)) (responsiveBreakpoint (options w)))
    as [H | H].
  - destruct (handleResponsive_mobile w H) as (w' & -> & Hw & Ho & _).
    cbn [after]. rewrite Hw, Ho, length_map.
    assert (Hne' : nonEmpty (map (truncateWord (maxWordLength (options w))) (words w))).
    { unfold nonEmpty in *. rewrite Forall_forall in *. intros x Hin.
      apply in_map_iff in Hin. destruct Hin as (y & <- & Hy).
      apply truncateWord_nonEmpty, Hne, Hy. }
    split; [split; [exact Hne' |] |].
    + destruct (originalWords w) as [o |]; cbn [orDefault]; auto.
    + destruct Hidx as [E | Hr]; [left; rewrite E; reflexivity |].
      right. unfold JS.length in *. rewrite length_map. exact Hr.
  - destruct (handleResponsive_desktop w H) as (w' & -> & Hw & Ho & _).
    cbn [after]. rewrite Hw, Ho.
    destruct (originalWords w) as [o |]; cbn [orDefault]; [| auto].
    destruct Hcache as (Hneo & Hlen).
    split; [split; [exact Hneo | auto] |].
    destruct Hidx as [E | Hr].
    + left. rewrite E in Hlen. destruct o; [reflexivity | discriminate].
    + right. rewrite (length_eq _ _ Hlen). exact Hr.
Qed.

(** A tick keeps the index inside the list: it only moves it after it has
    read the current word, and then modulo the length. *)
Lemma animate_sound (w : Widget) : sound w -> sound (after (animate w)).
Proof.
  intros (Hlists & Hidx). pose proof (animate_setup w) as Hs.
  unfold setup in Hs. injection Hs as Hw Ho _.
  unfold sound, listsAgree, indexBound in *. rewrite Hw, Ho.
  split; [exact Hlists |].
  destruct (animate_position w)
    as [Hp | [(word & Hword & _ & Hp) | (word & Hword & _ & Hp)]];
    unfold position in Hp; injection Hp as Hi _ _; rewrite Hi.
  - exact Hidx.
  - exact Hidx.
  - destruct (charIndex w - 1 =? 0); [| exact Hidx].
    right. apply Z.mod_pos_bound.
    apply index_Some_range in Hword. lia.
Qed.

(** With no word to truncate, a tick keeps [charIndex] inside the current
    word. *)
Lemma animate_steady (w : Widget) : steady w -> steady (after (animate w)).
Proof.
  intros (Hsound & Hchar & Hlong).
  split; [exact (animate_sound w Hsound) |].
  destruct Hsound as ((Hne & _) & _).
  pose proof (animate_setup w) as Hs.
  unfold setup in Hs. injection Hs as Hw Ho Hopt.
  unfold charBound, noLongWord in *. rewrite Hw, Ho, Hopt.
  split; [| exact Hlong].
  destruct (animate_position w)
    as [Hp | [(word & Hword & Hdel & Hp) | (word & Hword & Hdel & Hp)]];
    unfold position in Hp; injection Hp as Hi Hc Hd; rewrite Hi, Hc, Hd.
  - exact Hchar.
  - rewrite Hword, Hdel in *.
    destruct (Z.eqb_spec (charIndex w + 1) (JS.length word)); lia.
  - rewrite Hword, Hdel in Hchar.
    destruct (Z.eqb_spec (charIndex w - 1) 0) as [E | E]; cbn [negb].
    + pose proof (index_Some_range _ _ _ Hword) as Hr.
      destruct (index_in_range (words w)
                  ((currentIndex w + 1) mod JS.length (words w)))
        as (next & Hnext); [apply Z.mod_pos_bound; lia |].
      rewrite Hnext. pose proof (nonempty_word _ _ _ Hne Hnext) as Hn.
      pose proof (length_nonneg next).
      assert (JS.length next <> 0) by (intros E0; apply Hn, length_zero_nil, E0).
      lia.
    + rewrite Hword. lia.
Qed.

(** With no word to truncate the handler changes no list, so it keeps every
    bound. *)
Lemma handleResponsive_steady (w : Widget) :
  steady w -> steady (after (handleResponsive w)).
Proof.
  intros (Hsound & Hchar & (Hshort & Hcache)).
  split; [exact (handleResponsive_sound w Hsound) |].
  pose proof (handleResponsive_position w) as Hpos.
  unfold position in Hpos. injection Hpos as Hi Hc Hd.
  assert (Hmap : map (truncateWord (maxWordLength (options w))) (words w)
                 = words w).
  { rewrite <- (map_id (words w)) at 2. apply map_ext_in. intros x Hx.
    rewrite Forall_forall in Hshort. apply truncateWord_short, Hshort, Hx. }
  unfold charBound, noLongWord. rewrite Hi, Hc, Hd.
  destruct (Z.lt_ge_cases (innerWidth (window w)) (responsiveBreakpoint (options w)))
    as [H | H].
  - destruct (handleResponsive_mobile w H) as (w' & -> & Hw & Ho & _ & Hmax & _).
    cbn [after]. rewrite Hw, Ho, Hmax, Hmap.
    split; [exact Hchar |]. split; [exact Hshort |]. right.
    destruct Hcache as [-> | ->]; reflexivity.
  - destruct (handleResponsive_desktop w H) as (w' & -> & Hw & Ho & _ & Hmax & _).
    cbn [after]. rewrite Hw, Ho, Hmax.
    destruct Hcache as [-> | ->]; cbn [orDefault]; auto.
Qed.

Section Preserved.
Context (P : Widget -> Prop).
Hypothesis P_stable : stable P.
Hypothesis P_animate : forall w, P w -> P (after (animate w)).
Hypothesis P_responsive : forall w, P w -> P (after (handleResponsive w)).

Lemma preserves_bind {A B} (m : M A) (k : A -> M B) :
  preserves P m -> (forall a, preserves P (k a)) -> preserves P (bind m k).
Proof.
  intros Hm Hk w Hw. unfold bind. specialize (Hm w Hw).
  destruct (m w) as [a w' | e w']; cbn [after] in *.
  - apply Hk, Hm.
  - exact Hm.
Qed.

Lemma preserves_kept {A} (m : M A) :
  keeps setup m -> keeps position m -> preserves P m.
Proof. intros Hs Hp w Hw. exact (P_stable w _ (Hs w) (Hp w) Hw). Qed.

Lemma preserves_update (f : Widget -> Widget) :
  (forall w, setup (f w) = setup w) ->
  (forall w, position (f w) = position w) ->
  preserves P (modify f).
Proof. intros Hs Hp w Hw. exact (P_stable w _ (Hs w) (Hp w) Hw). Qed.

Lemma preserves_ret {A} (a : A) : preserves P (ret a).
Proof. intros w Hw. exact Hw. Qed.

Lemma preserves_get : preserves P get.
Proof. intros w Hw. exact Hw. Qed.

Lemma preserves_start : preserves P start.
Proof.
  unfold start, onElement.
  apply preserves_bind; [apply preserves_get | intros w0].
  destruct (isRunning w0); [apply preserves_ret |].
  apply preserves_bind; [apply preserves_update; reflexivity | intros _].
  apply preserves_bind; [apply preserves_update; reflexivity | intros _].
  exact P_animate.
Qed.

Lemma preserves_runCallback (cb : Callback) : preserves P (runCallback cb).
Proof.
  destruct cb; cbn [runCallback].
  - exact preserves_start.
  - exact P_animate.
  - apply preserves_bind; [apply preserves_get | intros w0].
    apply preserves_bind; [| intros _; exact P_responsive].
    unfold clearTimeout, onWindow.
    destruct (debounceTimeout w0);
      [apply preserves_update; reflexivity | apply preserves_ret].
Qed.

Lemma preserves_dispatch (ev : Event) : preserves P (dispatch ev).
Proof.
  destruct ev; cbn [dispatch].
  - unfold onWindow.
    apply preserves_bind; [apply preserves_update; reflexivity | intros _].
    apply preserves_bind; [apply preserves_get | intros w0].
    destruct (resizeListener (window w0)); [| apply preserves_ret].
    apply preserves_kept;
      [apply executedFunction_setup | apply executedFunction_position].
  - apply preserves_bind; [apply preserves_get | intros w0].
    destruct (find (fun t => timerId t =? id) (timers (window w0)));
      [| apply preserves_ret].
    unfold onWindow.
    apply preserves_bind; [apply preserves_update; reflexivity | intros _].
    apply preserves_runCallback.
  - unfold onWindow. apply preserves_update; reflexivity.
  - exact preserves_start.
  - apply preserves_kept; [apply stop_setup | apply stop_position].
  - apply preserves_kept; [apply destroy_setup | apply destroy_position].
Qed.

Lemma preserves_play (events : list Event) : forall w,
  P w -> P (play events w).
Proof.
  induction events as [| ev rest IH]; intros w Hw; [exact Hw |].
  change (play (ev :: rest) w) with (play rest (handle w ev)).
  apply IH. unfold handle. apply preserves_dispatch, Hw.
Qed.

Lemma preserves_init : preserves P init.
Proof.
  unfold init.
  apply preserves_bind; [| intros _].
  { apply preserves_kept;
      unfold setupAccessibility, cursorSetAttribute, onElement; keeps_all. }
  apply preserves_bind; [| intros _].
  { apply preserves_kept; unfold calculateContainerHeight, onElement; keeps_all. }
  apply preserves_bind; [| intros _].
  { unfold setupResponsive, onWindow.
    apply preserves_bind; [apply preserves_update; reflexivity | intros _].
    apply preserves_bind; [apply preserves_update; reflexivity | intros _].
    exact P_responsive. }
  apply preserves_bind; [| intros _; apply preserves_ret].
  apply preserves_kept; [apply setTimeout_setup | apply setTimeout_position].
Qed.

(** What holds of the fields the constructor assigns holds of the widget it
    returns, and of every widget reached from it. *)
Lemma preserves_construct (el : Element) (given : Overrides) (g : Window)
  (events : list Event) :
  P (newWidget el given g) ->
  P (play events (after (construct el given g))).
Proof.
  intros H. apply preserves_play. unfold construct.
  assert (K : preserves P
    (w <- get ;;
     match textChild (element w), cursorChild (element w) with
     | Some _, Some _ => init
     | _, _ => consoleWarn "Typewriter: Required elements not found"
     end)).
  { apply preserves_bind; [apply preserves_get | intros w0].
    unfold consoleWarn, onWindow.
    destruct (textChild (element w0)); [destruct (cursorChild (element w0)) |];
      first [exact preserves_init | apply preserves_update; reflexivity]. }
  exact (K _ H).
Qed.

End Preserved.

Lemma newWidget_sound (el : Element) (given : Overrides) (g : Window) :
  sound (newWidget el given g).
Proof.
  unfold sound, listsAgree, indexBound. cbn [newWidget words originalWords currentIndex].
  split; [split; [apply parseWords_nonEmpty | exact I] |].
  destruct (parseWords (orDefault (datasetWords el) [])) as [| x l];
    [left; reflexivity |].
  right. rewrite length_cons. pose proof (length_nonneg l). lia.
Qed.

(** The part of the invariant that holds: whatever the container, the options
    and the events, [currentIndex] stays inside the word list. *)
Theorem index_bound_reachable (el : Element) (given : Overrides) (g : Window)
  (events : list Event) :
  indexBound (play events (after (construct el given g))).
Proof.
  apply (preserves_construct sound sound_stable animate_sound
           handleResponsive_sound el given g events (newWidget_sound el given g)).
Qed.

(** The bound on [charIndex] holds as long as no word is truncated: when no
    configured word is longer than [maxWordLength], then at every widget
    reached from the constructor [charIndex] is between 0 and the length of
    the current word. *)
Theorem char_bound_without_long_words (el : Element) (given : Overrides)
  (g : Window) (events : list Event) (word : jsstring) :
  Forall (fun x => JS.length x <= maxWordLength (mergeOptions given))
    (parseWords (orDefault (datasetWords el) [])) ->
  let w := play events (after (construct el given g)) in
  index (words w) (currentIndex w) = Some word ->
  0 <= charIndex w <= JS.length word.
Proof.
  intros Hshort w Hword.
  assert (Hnew : steady (newWidget el given g)).
  { split; [apply newWidget_sound |]. split.
    - unfold charBound. cbn [newWidget words currentIndex isDeleting charIndex].
      destruct (index (parseWords (orDefault (datasetWords el) [])) 0)
        as [first |] eqn:E; [| exact I].
      pose proof (nonempty_word _ _ _ (parseWords_nonEmpty _) E) as Hne.
      pose proof (length_nonneg first).
      assert (JS.length first <> 0) by (intros E0; apply Hne, length_zero_nil, E0).
      lia.
    - split; [exact Hshort | left; reflexivity]. }
  pose proof (preserves_construct steady steady_stable animate_steady
                handleResponsive_steady el given g events Hnew)
    as (_ & Hchar & _).
  fold w in Hchar. unfold charBound in Hchar. rewrite Hword in Hchar.
  destruct (isDeleting w); lia.
Qed.

(** * Further properties of the code *)

(** ** Joining and parsing again *)

Lemma dropWhile_clean (s : jsstring) :
  startsClean s = true -> dropWhile isWhiteSpace s = s.
Proof.
  destruct s as [| c t]; [reflexivity |]. cbn [startsClean dropWhile].
  destruct (isWhiteSpace c); [discriminate | reflexivity].
Qed.

Lemma trim_of_trimmed (s : jsstring) : trimmed s = true -> trim s = s.
Proof.
  unfold trimmed, trim, trimEnd, trimStart. intros H.
  apply andb_true_iff in H. destruct H as [Hs He].
  rewrite (dropWhile_clean s Hs), (dropWhile_clean (rev s) He).
  apply rev_involutive.
Qed.

Lemma trim_skips_space (c : codeunit) (s : jsstring) :
  isWhiteSpace c = true -> trim (c :: s) = trim s.
Proof. intros H. unfold trim, trimStart. cbn [dropWhile]. rewrite H. reflexivity. Qed.

Lemma split_word_then_sep (sep : codeunit) (x rest : jsstring) :
  ~ In sep x -> split sep (x ++ sep :: rest) = x :: split sep rest.
Proof.
  induction x as [| c t IH]; intros Hfree; cbn [app split].
  - rewrite N.eqb_refl. reflexivity.
  - destruct (N.eqb_spec c sep) as [-> | _]; [exfalso; apply Hfree; left; reflexivity |].
    rewrite IH by (intros H; apply Hfree; right; exact H). reflexivity.
Qed.

Lemma split_one_word (sep : codeunit) (x : jsstring) :
  ~ In sep x -> split sep x = [x].
Proof.
  induction x as [| c t IH]; intros Hfree; cbn [split]; [reflexivity |].
  destruct (N.eqb_spec c sep) as [-> | _]; [exfalso; apply Hfree; left; reflexivity |].
  rewrite IH by (intros H; apply Hfree; right; exact H). reflexivity.
Qed.

Lemma parseWordList_skips_space (c : codeunit) (s : jsstring) :
  isWhiteSpace c = true -> c <> comma ->
  parseWordList (c :: s) = parseWordList s.
Proof.
  intros Hws Hc. unfold parseWordList. cbn [split].
  destruct (N.eqb_spec c comma) as [E | _]; [contradiction |].
  pose proof (split_not_nil comma s) as Hnil.
  destruct (split comma s) as [| piece pieces]; [congruence |].
  cbn [map]. rewrite (trim_skips_space c piece Hws). reflexivity.
Qed.

Lemma parseWordList_word_then_comma (x rest : jsstring) :
  ~ In comma x ->
  parseWordList (x ++ comma :: rest)
  = filter (fun piece => negb (falsy piece)) [trim x] ++ parseWordList rest.
Proof.
  intros Hfree. unfold parseWordList.
  rewrite (split_word_then_sep comma x rest Hfree). cbn [map filter app].
  destruct (negb (falsy (trim x))); reflexivity.
Qed.

Lemma parseWordList_join (l : list jsstring) :
  Forall cleanWord l -> parseWordList (join (lit ", ") l) = l.
Proof.
  induction l as [| x rest IH]; intros Hall; [reflexivity |].
  inversion Hall as [| ? ? (Hne & Htrim & Hfree) Hrest]; subst.
  assert (Hx : filter (fun piece => negb (falsy piece)) [trim x] = [x]).
  { rewrite (trim_of_trimmed x Htrim). cbn [filter].
    destruct x; [congruence | reflexivity]. }
  destruct rest as [| y rest'].
  - cbn [join]. unfold parseWordList. rewrite (split_one_word comma x Hfree).
    exact Hx.
  - rewrite join_cons by discriminate.
    change (lit ", ") with [comma; 32%N]. cbn [app].
    rewrite (parseWordList_word_then_comma x _ Hfree), Hx.
    rewrite parseWordList_skips_space by (reflexivity || discriminate).
    change [comma; 32%N] with (lit ", "). rewrite (IH Hrest). reflexivity.
Qed.

Lemma trim_keeps_inside (c : codeunit) (s : jsstring) : In c (trim s) -> In c s.
Proof.
  intros H. destruct (trim_split s) as (l & r & E & _). rewrite E.
  apply in_or_app. right. apply in_or_app. left. exact H.
Qed.

Lemma parseWords_clean (raw : jsstring) : Forall cleanWord (parseWords raw).
Proof.
  rewrite parseWords_refines. unfold parseWordList.
  apply Forall_forall. intros word Hin. apply filter_In in Hin.
  destruct Hin as [Hin Hne]. apply in_map_iff in Hin.
  destruct Hin as (piece & <- & Hpiece). repeat split.
  - intros E. rewrite E in Hne. discriminate.
  - apply trim_trimmed.
  - intros Hc. apply trim_keeps_inside in Hc.
    pose proof (split_pieces comma raw) as Hfree.
    rewrite Forall_forall in Hfree. exact (Hfree piece Hpiece Hc).
Qed.

(** Parsing is a retraction of joining: the parsed words, joined with ", "
    as the screen-reader text joins them, parse back to the same words. *)
Theorem parse_join_parse (raw : jsstring) :
  parseWords (join (lit ", ") (parseWords raw)) = parseWords raw.
Proof.
  rewrite (parseWords_refines (join (lit ", ") (parseWords raw))).
  apply parseWordList_join, parseWords_clean.
Qed.

(** ** Truncation *)

(** What truncation gives: a word over the limit is cut to the limit (to
    nothing when the limit is negative) and gets the three characters "..."
    appended, a word within the limit is left as it is.  So the part up to
    the limit is kept, a word one or two characters over the limit comes out
    longer than it was, and with a negative limit every word becomes
    "...". *)
Theorem truncateWord_result (maxLen : Z) (word : jsstring) :
  truncateWord maxLen word =
    (if JS.length word >? maxLen
     then firstn (Z.to_nat maxLen) word ++ lit "..." else word)
  /\ JS.length (truncateWord maxLen word) =
       (if JS.length word >? maxLen then Z.max maxLen 0 + 3 else JS.length word)
  /\ firstn (Z.to_nat maxLen) (truncateWord maxLen word)
     = firstn (Z.to_nat maxLen) word
  /\ (0 <= maxLen < JS.length word /\ JS.length word <= maxLen + 2 ->
      JS.length word < JS.length (truncateWord maxLen word))
  /\ (maxLen < 0 -> truncateWord maxLen word = lit "...").
Proof.
  assert (Hcut : truncateWord maxLen word =
    (if JS.length word >? maxLen
     then firstn (Z.to_nat maxLen) word ++ lit "..." else word)).
  { unfold truncateWord. rewrite substring_prefix. reflexivity. }
  assert (Hlen : JS.length (truncateWord maxLen word) =
    (if JS.length word >? maxLen then Z.max maxLen 0 + 3 else JS.length word)).
  { rewrite Hcut.
    destruct (Z.gtb_spec (JS.length word) maxLen) as [Hlong | Hshort];
      [| reflexivity].
    unfold JS.length in *. rewrite List.length_app, List.length_firstn.
    cbn [List.length lit]. cbn. lia. }
  split; [exact Hcut |]. split; [exact Hlen |]. split; [| split].
  - rewrite Hcut.
    destruct (Z.gtb_spec (JS.length word) maxLen) as [Hlong | Hshort];
      [| reflexivity].
    assert (Hn : List.length (firstn (Z.to_nat maxLen) word) = Z.to_nat maxLen).
    { apply firstn_length_le. unfold JS.length in Hlong. lia. }
    rewrite firstn_app, Hn, Nat.sub_diag. cbn [firstn]. rewrite app_nil_r.
    rewrite firstn_firstn. f_equal. lia.
  - intros H. rewrite Hlen.
    destruct (Z.gtb_spec (JS.length word) maxLen); lia.
  - intros H. rewrite Hcut. pose proof (length_nonneg word) as Hpos.
    destruct (Z.gtb_spec (JS.length word) maxLen); [| lia].
    replace (Z.to_nat maxLen) with 0%nat by lia. reflexivity.
Qed.

(** ** The two word lists *)

Lemma listsFaithful_stable (parsed : list jsstring) (maxLen : Z) :
  stable (listsFaithful parsed maxLen).
Proof.
  intros w w' Hs _. unfold setup in Hs. injection Hs as Hw Ho Hopt.
  unfold listsFaithful. rewrite Hw, Ho, Hopt. auto.
Qed.

Lemma animate_listsFaithful (parsed : list jsstring) (maxLen : Z) (w : Widget) :
  listsFaithful parsed maxLen w -> listsFaithful parsed maxLen (after (animate w)).
Proof.
  pose proof (animate_setup w) as Hs. unfold setup in Hs.
  injection Hs as Hw Ho Hopt. unfold listsFaithful. rewrite Hw, Ho, Hopt. auto.
Qed.

Lemma handleResponsive_listsFaithful (parsed : list jsstring) (maxLen : Z)
  (w : Widget) :
  listsFaithful parsed maxLen w ->
  listsFaithful parsed maxLen (after (handleResponsive w)).
Proof.
  intros (Hmax & Hlists). unfold listsFaithful.
  assert (Hidem : map (truncateWord maxLen) (map (truncateWord maxLen) parsed)
                  = map (truncateWord maxLen) parsed).
  { rewrite map_map. apply map_ext. intros x. apply truncateWord_idempotent. }
  destruct (Z.lt_ge_cases (innerWidth (window w)) (responsiveBreakpoint (options w)))
    as [H | H].
  - destruct (handleResponsive_mobile w H) as (w' & -> & Hw & Ho & _ & Hm & _).
    cbn [after]. rewrite Hw, Ho, Hm, Hmax. split; [reflexivity |]. right.
    destruct Hlists as [(-> & ->) | (-> & [-> | ->])]; cbn [orDefault];
      rewrite ?Hidem; auto.
  - destruct (handleResponsive_desktop w H) as (w' & -> & Hw & Ho & _ & Hm & _).
    cbn [after]. rewrite Hw, Ho, Hm, Hmax. split; [reflexivity |].
    destruct Hlists as [(-> & ->) | (-> & [-> | ->])]; cbn [orDefault]; auto.
Qed.

(** Whatever happens to a widget, its active list is the parsed list or the
    truncation of the parsed list at the configured limit (never a truncation
    of a truncation, never a list of another length), and its cache, once
    filled, is the parsed list: desktop mode always gets the configured words
    back. *)
Theorem active_list_reachable (el : Element) (given : Overrides) (g : Window)
  (events : list Event) :
  let parsed := parseWords (orDefault (datasetWords el) []) in
  let maxLen := maxWordLength (mergeOptions given) in
  let w := play events (after (construct el given g)) in
  (words w = parsed \/ words w = map (truncateWord maxLen) parsed)
  /\ (originalWords w = None \/ originalWords w = Some parsed)
  /\ (originalWords w = None -> words w = parsed)
  /\ maxWordLength (options w) = maxLen.
Proof.
  intros parsed maxLen w.
  assert (Hnew : listsFaithful parsed maxLen (newWidget el given g))
    by (split; [reflexivity | left; split; reflexivity]).
  pose proof (preserves_construct (listsFaithful parsed maxLen)
                (listsFaithful_stable parsed maxLen)
                (animate_listsFaithful parsed maxLen)
                (handleResponsive_listsFaithful parsed maxLen)
                el given g events Hnew) as (Hmax & Hlists).
  fold w in Hmax, Hlists.
  destruct Hlists as [(Ho & Hw) | (Ho & [Hw | Hw])]; rewrite Ho, Hw;
    repeat split; auto; discriminate.
Qed.

(** ** The screen-reader node *)

Lemma setTimeout_accessibility cb ms : keeps accessibility (setTimeout cb ms).
Proof. unfold setTimeout, onWindow. keeps_all. Qed.

Lemma requestAnimationFrame_accessibility :
  keeps accessibility requestAnimationFrame.
Proof. unfold requestAnimationFrame, onWindow. keeps_all. Qed.

Lemma setTextContent_accessibility s : keeps accessibility (setTextContent s).
Proof. unfold setTextContent, onElement. keeps_all. Qed.

Lemma calculateTypingSpeed_accessibility word i :
  keeps accessibility (calculateTypingSpeed word i).
Proof. unfold calculateTypingSpeed. keeps_all. Qed.

#[local] Hint Resolve setTimeout_accessibility
  requestAnimationFrame_accessibility setTextContent_accessibility
  calculateTypingSpeed_accessibility : keeps.

Lemma animate_accessibility : keeps accessibility animate.
Proof. unfold animate, substringOf, defined. keeps_all. Qed.

Lemma stop_accessibility : keeps accessibility stop.
Proof. unfold stop, onElement, cancelAnimationFrame, onWindow. keeps_all. Qed.

#[local] Hint Resolve animate_accessibility stop_accessibility : keeps.

Lemma start_accessibility : keeps accessibility start.
Proof. unfold start, onElement. keeps_all. Qed.

Lemma executedFunction_accessibility : keeps accessibility executedFunction.
Proof. unfold executedFunction, clearTimeout, onWindow. keeps_all. Qed.

Lemma handleResponsive_accessibility : keeps accessibility handleResponsive.
Proof.
  unfold handleResponsive, truncateLongWords, restoreOriginalWords,
    adjustTimingForMobile, adjustTimingForDesktop, calculateContainerHeight,
    onOptions, onElement.
  keeps_all.
Qed.

#[local] Hint Resolve start_accessibility executedFunction_accessibility
  handleResponsive_accessibility : keeps.



(** What the constructor does to the container when both sub-elements are
    there, whatever the viewport. *)
Lemma construct_element (el : Element) (given : Overrides) (g : Window)
  (text : jsstring) (cursor : list (string * string)) :
  textChild el = Some text ->
  cursorChild el = Some cursor ->
  exists w,
  construct el given g = Ok tt w /\
  accessibility w =
    (srOnlyNodes el
       ++ [SrText (screenReaderText
                     (parseWords (orDefault (datasetWords el) [])))],
     assocSet "aria-label" "Rotating professional titles"
       (assocSet "aria-live" "polite" (attributes el)),
     Some (assocSet "aria-hidden" "true" cursor))
  /\ style (element w) =
       assocSet "height" "1.5em"
         (assocSet "max-height" "1.5em"
            (assocSet "min-height" "1.5em"
               (assocSet "height" "1.5em"
                  (assocSet "max-height" "1.5em"
                     (assocSet "min-height" "1.5em" (style el))))))
  /\ classList (element w) = classList el
  /\ textChild (element w) = Some text
  /\ resizeListener (window w) = true
  /\ resizeHandler w = true
  /\ isRunning w = false
  /\ animationId w = None
  /\ timers (window w) =
       timers g ++ [{| timerId := nextTimer g; callback := CbStart; delay := 300 |}].
Proof.
  intros Htext Hcursor. unfold construct, bind at 1, get.
  cbn [newWidget element]. rewrite Htext, Hcursor.
  unfold_js. cbn. rewrite Hcursor. cbn.
  match goal with
  | |- context [innerWidth g <? ?bp] => destruct (innerWidth g <? bp)
  end;
    cbn; (eexists; split; [reflexivity |]); cbn; rewrite ?Htext;
    repeat split; reflexivity.
Qed.


(** ** Starting and stopping *)

Lemma setTimeout_isRunning cb ms : keeps isRunning (setTimeout cb ms).
Proof. unfold setTimeout, onWindow. keeps_all. Qed.

Lemma requestAnimationFrame_isRunning : keeps isRunning requestAnimationFrame.
Proof. unfold requestAnimationFrame, onWindow. keeps_all. Qed.

Lemma setTextContent_isRunning s : keeps isRunning (setTextContent s).
Proof. unfold setTextContent, onElement. keeps_all. Qed.

Lemma calculateTypingSpeed_isRunning word i :
  keeps isRunning (calculateTypingSpeed word i).
Proof. unfold calculateTypingSpeed. keeps_all. Qed.

#[local] Hint Resolve setTimeout_isRunning requestAnimationFrame_isRunning
  setTextContent_isRunning calculateTypingSpeed_isRunning : keeps.

(** A tick never clears the running flag: only [stop()] does. *)
Lemma animate_isRunning : keeps isRunning animate.
Proof. unfold animate, substringOf, defined. keeps_all. Qed.

Lemma start_sets_running (w : Widget) : isRunning (after (start w)) = true.
Proof.
  destruct (isRunning w) eqn:E.
  - unfold start, bind, get. rewrite E. exact E.
  - rewrite (start_stopped w E), animate_isRunning. reflexivity.
Qed.

Lemma start_running (w : Widget) : isRunning w = true -> start w = Ok tt w.
Proof. intros H. unfold start, bind, get. rewrite H. reflexivity. Qed.

(** [start()] is idempotent: a second call right after the first changes
    nothing, whether the first returned or threw. *)
Theorem start_idempotent (w : Widget) :
  after (start (after (start w))) = after (start w).
Proof. rewrite (start_running _ (start_sets_running w)). reflexivity. Qed.

Lemma tokensRemove_idempotent (c : string) (l : list string) :
  tokensRemove c (tokensRemove c l) = tokensRemove c l.
Proof.
  unfold tokensRemove. induction l as [| x r IH]; [reflexivity |].
  cbn [filter]. destruct (negb (String.eqb c x)) eqn:E; [| exact IH].
  cbn [filter]. rewrite E, IH. reflexivity.
Qed.

(** [stop()] is idempotent, and it returns on every widget. *)
Theorem stop_idempotent (w : Widget) :
  returns (stop w) = true
  /\ after (stop (after (stop w))) = after (stop w).
Proof.
  split; [apply stop_returns |].
  unfold_js. cbn -[tokensRemove].
  destruct (animationId w) as [id |] eqn:Ha; [destruct (id =? 0) eqn:E |];
    cbn -[tokensRemove]; rewrite ?Ha, ?E; cbn -[tokensRemove];
    rewrite tokensRemove_idempotent; reflexivity.
Qed.

Lemma stop_schedule : keeps schedule stop.
Proof. unfold stop, onElement, cancelAnimationFrame, onWindow. keeps_all. Qed.

#[local] Hint Resolve stop_schedule : keeps.

Lemma destroy_schedule : keeps schedule destroy.
Proof.
  unfold destroy, querySelectorSrOnly, removeChild, onElement, onWindow.
  keeps_all.
Qed.

Lemma stop_rendered : keeps rendered stop.
Proof. unfold stop, onElement, cancelAnimationFrame, onWindow. keeps_all. Qed.

#[local] Hint Resolve stop_rendered : keeps.

Lemma destroy_rendered : keeps rendered destroy.
Proof.
  unfold destroy, querySelectorSrOnly, removeChild, onElement, onWindow.
  keeps_all.
Qed.

Lemma destroy_stops (w : Widget) : isRunning (after (destroy w)) = false.
Proof.
  destruct (destroy_outcome w) as (d & -> & Hr & _).
  destruct (srOnlyNested (element w)); exact Hr.
Qed.

(** Firing a timer that is pending: it is taken off the list and its callback
    runs. *)
Lemma fire_pending (w : Widget) (t : Timer) :
  find (fun x => timerId x =? timerId t) (timers (window w)) = Some t ->
  dispatch (Fire (timerId t)) w
  = runCallback (callback t)
      (set_window (removeTimer (timerId t) (window w)) w).
Proof.
  intros H. unfold dispatch, bind, get, onWindow, modify. rewrite H. reflexivity.
Qed.

(** Neither [stop()] nor [destroy()] cancels the delayed start of the
    constructor: called while it is pending, they are undone when it fires,
    the widget runs again and, when there is a word to type, types its next
    character. *)
Theorem pending_start_survives (w : Widget) (t : Timer) (word old : jsstring) :
  find (fun x => timerId x =? timerId t) (timers (window w)) = Some t ->
  callback t = CbStart ->
  index (words w) (currentIndex w) = Some word ->
  rendered w = Some old ->
  isDeleting w = false ->
  let afterStop := handle (after (stop w)) (Fire (timerId t)) in
  let afterDestroy := handle (after (destroy w)) (Fire (timerId t)) in
  isRunning (after (stop w)) = false
  /\ isRunning (after (destroy w)) = false
  /\ isRunning afterStop = true
  /\ isRunning afterDestroy = true
  /\ rendered afterStop = Some (substring word 0 (charIndex w + 1))
  /\ rendered afterDestroy = Some (substring word 0 (charIndex w + 1)).
Proof.
  intros Hfind Hcb Hword Htext Hdel.
  assert (Hfired : forall w1,
    schedule w1 = schedule w -> setup w1 = setup w ->
    position w1 = position w -> rendered w1 = rendered w ->
    isRunning w1 = false ->
    isRunning (handle w1 (Fire (timerId t))) = true
    /\ rendered (handle w1 (Fire (timerId t)))
       = Some (substring word 0 (charIndex w + 1))).
  { intros w1 Hsch Hset Hpos Hren Hrun.
    unfold schedule in Hsch. injection Hsch as Htm _.
    unfold setup in Hset. injection Hset as Hw _ _.
    unfold position in Hpos. injection Hpos as Hi Hc Hd.
    unfold handle. rewrite fire_pending by (rewrite Htm; exact Hfind).
    rewrite Hcb. cbn [runCallback].
    split; [apply start_sets_running |].
    rewrite start_stopped by exact Hrun.
    match goal with |- context [animate ?x] =>
      destruct (animate_typing x word old) as (w' & d & -> & Hr & _)
    end; try reflexivity.
    - cbn. rewrite Hd. exact Hdel.
    - cbn. rewrite Hw, Hi. exact Hword.
    - unfold rendered in *. cbn. rewrite Hren. exact Htext.
    - cbn [after]. rewrite Hr. cbn. rewrite Hc. reflexivity. }
  destruct (stop_spec w) as (ws & Hs & Hrs & _).
  assert (Hstop : isRunning (after (stop w)) = false) by (rewrite Hs; exact Hrs).
  pose proof (destroy_stops w) as Hdestroy.
  destruct (Hfired (after (stop w)) (stop_schedule w) (stop_setup w)
              (stop_position w) (stop_rendered w) Hstop) as (H1 & H2).
  destruct (Hfired (after (destroy w)) (destroy_schedule w) (destroy_setup w)
              (destroy_position w) (destroy_rendered w) Hdestroy) as (H3 & H4).
  cbv zeta. auto 10.
Qed.

(** [stop()] cancels no timer, so [start()] right after it adds a second
    tick to the one still pending: from then on two chains of ticks drive the
    animation. *)
Theorem restart_doubles_ticks (w : Widget) (word : jsstring) :
  ticking w ->
  index (words w) (currentIndex w) = Some word ->
  let restarted := after (start (after (stop w))) in
  exists t d,
    timers (window w) = [t]
    /\ timers (window restarted) =
       [t; {| timerId := nextTimer (window w); callback := CbAnimate; delay := d |}]
    /\ isRunning restarted = true.
Proof.
  intros (Hrun & Htext & t & Ht & Hcb) Hword. cbv zeta.
  destruct (rendered w) as [old |] eqn:Hold; [| congruence].
  destruct (stop_spec w) as (w1 & Hs & Hr1 & Ht1 & Hw1 & Hi1 & _ & Hd1 & _ & _).
  pose proof (stop_schedule w) as Hsch. rewrite Hs in Hsch. cbn [after] in Hsch.
  unfold schedule in Hsch. injection Hsch as Htm Hnext.
  rewrite Hs. cbn [after]. rewrite (start_stopped w1 Hr1).
  rewrite <- Hw1, <- Hi1 in Hword. rewrite <- Ht1 in Hold.
  destruct (isDeleting w1) eqn:Hdel.
  - match goal with |- context [animate ?x] =>
      destruct (animate_deleting x word old eq_refl Hdel Hword Hold)
        as (w2 & d & -> & _ & _ & _ & _ & _ & Hrun2 & Htm2)
    end.
    cbn [after]. cbn in Htm2. rewrite Htm, Hnext, Ht in Htm2.
    exists t, d. auto.
  - match goal with |- context [animate ?x] =>
      destruct (animate_typing x word old eq_refl Hdel Hword Hold)
        as (w2 & d & -> & _ & _ & _ & _ & _ & Hrun2 & Htm2)
    end.
    cbn [after]. cbn in Htm2. rewrite Htm, Hnext, Ht in Htm2.
    exists t, d. auto.
Qed.

(** ** After [stop()] *)

Lemma Forall_filter {A} (P : A -> Prop) (f : A -> bool) (l : list A) :
  Forall P l -> Forall P (filter f l).
Proof.
  rewrite !Forall_forall. intros H x Hx. apply filter_In in Hx. apply H, Hx.
Qed.

Lemma animate_stopped (w : Widget) : isRunning w = false -> animate w = Ok tt w.
Proof. intros H. unfold animate, bind, get. rewrite H. reflexivity. Qed.

Lemma handleResponsive_display : keeps display handleResponsive.
Proof.
  unfold handleResponsive, truncateLongWords, restoreOriginalWords,
    adjustTimingForMobile, adjustTimingForDesktop, calculateContainerHeight,
    onOptions, onElement.
  keeps_all.
Qed.

Lemma handleResponsive_schedule : keeps schedule handleResponsive.
Proof.
  unfold handleResponsive, truncateLongWords, restoreOriginalWords,
    adjustTimingForMobile, adjustTimingForDesktop, calculateContainerHeight,
    onOptions, onElement.
  keeps_all.
Qed.

Lemma handleResponsive_shown (w : Widget) :
  display (after (handleResponsive w)) = display w.
Proof. exact (handleResponsive_display w). Qed.

Lemma handleResponsive_timers (w : Widget) :
  timers (window (after (handleResponsive w))) = timers (window w).
Proof.
  pose proof (handleResponsive_schedule w) as Hs. unfold schedule in Hs.
  injection Hs as Htm _. exact Htm.
Qed.

Lemma stop_display (w : Widget) :
  display (after (stop w)) = (false, rendered w, position w).
Proof.
  destruct (stop_spec w) as (w' & Hs & Hr & _).
  unfold display. rewrite stop_rendered, stop_position.
  rewrite Hs. cbn [after]. rewrite Hr. reflexivity.
Qed.

(** On a stopped widget with no start pending, an event of the page changes
    nothing of what is shown and leaves no start pending. *)
Lemma halted_event (w : Widget) (ev : Event) :
  fromPage ev = true ->
  isRunning w = false ->
  Forall (fun t => isStartTimer t = false) (timers (window w)) ->
  display (handle w ev) = display w
  /\ Forall (fun t => isStartTimer t = false) (timers (window (handle w ev))).
Proof.
  intros Hpage Hrun Hts. unfold handle. destruct ev; try discriminate.
  - unfold dispatch, executedFunction, clearTimeout, setTimeout, bind, get,
      onWindow, modify, ret. cbn.
    destruct (resizeListener (window w)); [| split; [reflexivity | exact Hts]].
    cbn. destruct (debounceTimeout w); cbn; (split; [reflexivity |]);
      apply Forall_app; split;
      first [apply Forall_filter; exact Hts | exact Hts
            | repeat constructor].
  - set (w1 := set_window (removeTimer id (window w)) w).
    assert (E : dispatch (Fire id) w =
                match find (fun t => timerId t =? id) (timers (window w)) with
                | Some t => runCallback (callback t) w1
                | None => Ok tt w
                end).
    { unfold dispatch, bind, get, onWindow, modify.
      destruct (find (fun t => timerId t =? id) (timers (window w)));
        reflexivity. }
    rewrite E. clear E.
    destruct (find (fun t => timerId t =? id) (timers (window w))) as [t |] eqn:Hf;
      [| split; [reflexivity | exact Hts]].
    apply find_some in Hf. destruct Hf as [Hin _].
    rewrite Forall_forall in Hts. pose proof (Hts t Hin) as Hnot.
    rewrite <- Forall_forall in Hts.
    assert (Hts1 : Forall (fun t => isStartTimer t = false) (timers (window w1)))
      by (apply Forall_filter; exact Hts).
    unfold isStartTimer in Hnot.
    destruct (callback t); [discriminate | |]; cbn [runCallback].
    + rewrite (animate_stopped w1 Hrun). split; [reflexivity | exact Hts1].
    + unfold bind, get, clearTimeout, onWindow, modify, ret.
      destruct (debounceTimeout w1) as [d |]; cbv beta iota.
      * rewrite handleResponsive_shown, handleResponsive_timers.
        split; [reflexivity |]. apply Forall_filter. exact Hts1.
      * rewrite handleResponsive_shown, handleResponsive_timers.
        split; [reflexivity | exact Hts1].
  - cbn. split; [reflexivity | exact Hts].
Qed.

Lemma halted_events (events : list Event) : forall w,
  forallb fromPage events = true ->
  isRunning w = false ->
  Forall (fun t => isStartTimer t = false) (timers (window w)) ->
  display (play events w) = display w.
Proof.
  induction events as [| ev rest IH]; intros w Hall Hrun Hts; [reflexivity |].
  cbn [forallb] in Hall. apply andb_true_iff in Hall. destruct Hall as [Hev Hrest].
  destruct (halted_event w ev Hev Hrun Hts) as (Hd & Hts').
  change (play (ev :: rest) w) with (play rest (handle w ev)).
  assert (Hrun' : isRunning (handle w ev) = false).
  { unfold display in Hd. injection Hd as Hr _ _. congruence. }
  rewrite (IH _ Hrest Hrun' Hts'). exact Hd.
Qed.

(** [stop()] halts the animation for good as far as the page goes: once the
    delayed start has fired, after [stop()] no timer expiry, resize or frame
    ever changes the rendered text or the position again; the ticks still
    pending end themselves. *)
Theorem stop_halts (w : Widget) (events : list Event) :
  Forall (fun t => isStartTimer t = false) (timers (window w)) ->
  forallb fromPage events = true ->
  display (play events (after (stop w))) = (false, rendered w, position w).
Proof.
  intros Hts Hall. rewrite halted_events.
  - apply stop_display.
  - exact Hall.
  - destruct (stop_spec w) as (w' & -> & Hr & _). exact Hr.
  - pose proof (stop_schedule w) as Hs. unfold schedule in Hs.
    injection Hs as Htm _. rewrite Htm. exact Hts.
Qed.

(** ** After [destroy()] *)

Lemma resize_unheard (w : Widget) (width : Z) :
  resizeListener (window w) = false ->
  handle w (Resize width) = atWidth width w.
Proof.
  intros H. unfold handle, dispatch, bind, get, onWindow, modify. cbn.
  rewrite H. reflexivity.
Qed.

Lemma resizes_unheard (widths : list Z) : forall w,
  resizeListener (window w) = false ->
  let w' := play (map Resize widths) w in
  schedule w' = schedule w /\ setup w' = setup w /\ display w' = display w
  /\ element w' = element w /\ resizeListener (window w') = false.
Proof.
  induction widths as [| x rest IH]; intros w H; [cbn; auto |].
  cbv zeta. cbn [map].
  change (play (Resize x :: map Resize rest) w)
    with (play (map Resize rest) (handle w (Resize x))).
  rewrite (resize_unheard w x H).
  destruct (IH (atWidth x w) H) as (H1 & H2 & H3 & H4 & H5).
  rewrite H1, H2, H3, H4, H5. auto.
Qed.

(** What [destroy()] does to the container and to the window, on both of
    its paths. *)
Lemma destroy_spec (w : Widget) :
  let d := after (destroy w) in
  srOnlyNodes (element d) =
    (if srOnlyNested (element w)
     then srOnlyNodes (element w) else tl (srOnlyNodes (element w)))
  /\ classList (element d) =
       (if srOnlyNested (element w)
        then tokensRemove "typewriter-active" (classList (element w))
        else tokensRemove "typewriter-initialized"
               (tokensRemove "typewriter-active"
                  (tokensRemove "typewriter-active" (classList (element w)))))
  /\ attributes (element d) = attributes (element w)
  /\ style (element d) = style (element w)
  /\ textChild (element d) = textChild (element w)
  /\ cursorChild (element d) = cursorChild (element w)
  /\ resizeListener (window d) =
       (if resizeHandler w then false else resizeListener (window w)).
Proof.
  cbv zeta. unfold srOnlyNested. unfold_js. cbn -[tokensRemove].
  destruct (animationId w) as [id |]; [destruct (id =? 0) |];
    cbn -[tokensRemove]; destruct (resizeHandler w); cbn -[tokensRemove];
    destruct (srOnlyNodes (element w)) as [| [s | |] rest] eqn:E;
    cbn -[tokensRemove]; rewrite ?E; repeat split; reflexivity.
Qed.

(** [destroy()] detaches the widget from resizes: it stops it, cancels no
    timer, and after it no burst of resize events schedules an evaluation or
    changes the lists, the options or what is shown. *)
Theorem destroy_detaches (w : Widget) (widths : list Z) :
  resizeHandler w = true ->
  let w' := play (map Resize widths) (after (destroy w)) in
  resizeListener (window w') = false
  /\ schedule w' = schedule w
  /\ setup w' = setup w
  /\ display w' = (false, rendered w, position w).
Proof.
  intros H. cbv zeta.
  destruct (destroy_spec w) as (_ & _ & _ & _ & _ & _ & Hl). rewrite H in Hl.
  destruct (resizes_unheard widths (after (destroy w)) Hl)
    as (H1 & H2 & H3 & _ & H5).
  rewrite H1, H2, H3, H5, destroy_schedule, destroy_setup.
  unfold display. rewrite destroy_stops, destroy_rendered, destroy_position.
  auto.
Qed.

(** Building a widget and destroying it does not give the container back as
    it was.  When the first [.sr-only] node inside the container is not one
    of its children, [destroy()] throws a [NotFoundError]: the widget's own
    screen-reader node and the class [typewriter-initialized] stay.
    Otherwise it removes the first screen-reader child, which is the
    widget's own only when the container had none before, and the two marker
    classes.  On both paths the widget is stopped and its listener removed,
    the [aria] attributes, the three heights and the cursor's [aria-hidden]
    stay, and the delayed start stays pending. *)
Theorem construct_destroy (el : Element) (given : Overrides) (g : Window)
  (text : jsstring) (cursor : list (string * string)) :
  textChild el = Some text ->
  cursorChild el = Some cursor ->
  let built := after (construct el given g) in
  let own :=
    SrText (screenReaderText (parseWords (orDefault (datasetWords el) []))) in
  let d := after (destroy built) in
  destroy built = (if srOnlyNested el then Throw NotFoundError d else Ok tt d)
  /\ (srOnlyNested el = true ->
      srOnlyNodes (element d) = srOnlyNodes el ++ [own]
      /\ classList (element d) = tokensRemove "typewriter-active" (classList el))
  /\ (srOnlyNested el = false ->
      srOnlyNodes (element d) = tl (srOnlyNodes el ++ [own])
      /\ (srOnlyNodes el = [] -> srOnlyNodes (element d) = [])
      /\ (srOnlyNodes el <> [] ->
          srOnlyNodes (element d) = tl (srOnlyNodes el) ++ [own])
      /\ classList (element d) =
           tokensRemove "typewriter-initialized"
             (tokensRemove "typewriter-active" (classList el)))
  /\ isRunning d = false
  /\ attributes (element d) =
       assocSet "aria-label" "Rotating professional titles"
         (assocSet "aria-live" "polite" (attributes el))
  /\ cursorChild (element d) = Some (assocSet "aria-hidden" "true" cursor)
  /\ style (element d) = style (element built)
  /\ textChild (element d) = Some text
  /\ resizeListener (window d) = false
  /\ timers (window d) =
       timers g ++ [{| timerId := nextTimer g; callback := CbStart; delay := 300 |}].
Proof.
  intros Htext Hcursor. cbv zeta.
  destruct (construct_element el given g text cursor Htext Hcursor)
    as (w0 & -> & Ha & _ & Hcl & Htx & _ & Hrh & _ & _ & Htm).
  cbn [after]. unfold accessibility in Ha. injection Ha as Hsr Hat Hcu.
  assert (Hnested : srOnlyNested (element w0) = srOnlyNested el).
  { unfold srOnlyNested. rewrite Hsr.
    destruct (srOnlyNodes el) as [| [s | |] rest]; reflexivity. }
  destruct (destroy_spec w0) as (Hn & Hc & Hatd & Hst & Htxd & Hcud & Hl).
  cbv zeta in Hn, Hc, Hatd, Hst, Htxd, Hcud, Hl.
  rewrite Hrh in Hl. rewrite Hnested, Hsr in Hn. rewrite Hnested, Hcl in Hc.
  pose proof (destroy_schedule w0) as Hs. unfold schedule in Hs.
  injection Hs as Hs _.
  split.
  { destruct (destroy_outcome w0) as (d & Hd & _). rewrite Hnested in Hd.
    rewrite Hd. destruct (srOnlyNested el); reflexivity. }
  split.
  { intros E. rewrite E in Hn, Hc. split; [exact Hn | exact Hc]. }
  split.
  { intros E. rewrite E in Hn, Hc. split; [exact Hn |]. split.
    - intros E0. rewrite Hn, E0. reflexivity.
    - split.
      + intros Hne. rewrite Hn.
        destruct (srOnlyNodes el) as [| n rest]; [contradiction | reflexivity].
      + rewrite Hc. apply f_equal, tokensRemove_idempotent. }
  split; [apply destroy_stops |].
  rewrite Hatd, Hcud, Hst, Htxd, Hl, Hs, Hat, Hcu, Htx, Htm.
  repeat split; reflexivity.
Qed.

(** ** The debounced resize handler *)

Lemma filter_filter {A} (f g : A -> bool) (l : list A) :
  filter f (filter g l) = filter (fun x => f x && g x) l.
Proof.
  induction l as [| x r IH]; [reflexivity |]. cbn [filter].
  destruct (g x); cbn [filter]; destruct (f x); cbn; rewrite ?IH; reflexivity.
Qed.

Lemma filter_none {A} (f : A -> bool) (l : list A) :
  Forall (fun x => f x = false) l -> filter f l = [].
Proof.
  induction 1 as [| x r Hx _ IH]; [reflexivity |]. cbn [filter].
  rewrite Hx. exact IH.
Qed.

Lemma filter_all {A} (f : A -> bool) (l : list A) :
  Forall (fun x => f x = true) l -> filter f l = l.
Proof.
  induction 1 as [| x r Hx _ IH]; [reflexivity |]. cbn [filter].
  rewrite Hx, IH. reflexivity.
Qed.

(** Clearing the remembered handle removes every debounce timer and nothing
    else. *)
Lemma clearedTimers_spec (w : Widget) :
  timersConsistent w ->
  Forall (fun t => isLater t = false) (clearedTimers w)
  /\ filter isTick (clearedTimers w) = filter isTick (timers (window w))
  /\ Forall (fun t => timerId t < nextTimer (window w)) (clearedTimers w).
Proof.
  intros (Hids & Hiff). unfold clearedTimers.
  rewrite Forall_forall in Hiff.
  destruct (debounceTimeout w) as [d |] eqn:Hd.
  - split; [| split].
    + apply Forall_forall. intros t Ht. apply filter_In in Ht.
      destruct Ht as [Hin Hne]. destruct (isLater t) eqn:E; [| reflexivity].
      apply (Hiff t Hin) in E. injection E as ->.
      rewrite Z.eqb_refl in Hne. discriminate.
    + rewrite filter_filter. apply filter_ext_in. intros t Hin.
      unfold isTick. destruct (isLater t) eqn:E; [reflexivity |]. cbn.
      destruct (Z.eqb_spec (timerId t) d) as [Eid | _]; [| reflexivity].
      assert (isLater t = true) by (apply (Hiff t Hin); rewrite Eid; reflexivity).
      congruence.
    + apply Forall_filter. exact Hids.
  - split; [| split; [reflexivity | exact Hids]].
    apply Forall_forall. intros t Hin. destruct (isLater t) eqn:E; [| reflexivity].
    apply (Hiff t Hin) in E. discriminate.
Qed.

(** A resize event that reaches the handler, spelled out. *)
Lemma resize_heard (w : Widget) (width : Z) :
  resizeListener (window w) = true ->
  handle w (Resize width) =
  set_debounceTimeout (Some (nextTimer (window w)))
    (set_window
       (set_nextTimer (nextTimer (window w) + 1)
          (set_timers
             (clearedTimers w
                ++ [{| timerId := nextTimer (window w); callback := CbLater;
                       delay := 250 |}])
             (set_innerWidth width (window w))))
       w).
Proof.
  intros H. unfold handle, dispatch, executedFunction, clearTimeout, setTimeout,
    bind, get, onWindow, modify, ret, clearedTimers, removeTimer. cbn.
  rewrite H. cbn. destruct (debounceTimeout w); reflexivity.
Qed.

Lemma resize_consistent (w : Widget) (width : Z) :
  resizeListener (window w) = true ->
  timersConsistent w ->
  let w1 := handle w (Resize width) in
  resizeListener (window w1) = true
  /\ timersConsistent w1
  /\ filter isTick (timers (window w1)) = filter isTick (timers (window w))
  /\ setup w1 = setup w
  /\ display w1 = display w.
Proof.
  intros Hl Hc. cbv zeta. rewrite (resize_heard w width Hl).
  destruct (clearedTimers_spec w Hc) as (Hnone & Hticks & Hids).
  cbn. split; [exact Hl |]. split; [| split; [| split; reflexivity]].
  - split; cbn.
    + apply Forall_app. split.
      * eapply Forall_impl; [| exact Hids]. cbn. intros; lia.
      * repeat constructor. cbn. lia.
    + apply Forall_app. split.
      * rewrite Forall_forall in *. intros t Hin.
        rewrite (Hnone t Hin). split; [discriminate |].
        intros E. injection E as E. specialize (Hids t Hin). cbn in Hids. lia.
      * repeat constructor; reflexivity.
  - rewrite filter_app, Hticks. cbn. apply app_nil_r.
Qed.

Lemma resizes_consistent (widths : list Z) : forall w,
  resizeListener (window w) = true ->
  timersConsistent w ->
  let w1 := play (map Resize widths) w in
  resizeListener (window w1) = true
  /\ timersConsistent w1
  /\ filter isTick (timers (window w1)) = filter isTick (timers (window w))
  /\ setup w1 = setup w
  /\ display w1 = display w.
Proof.
  induction widths as [| x rest IH]; intros w Hl Hc; [cbn; auto |].
  cbv zeta. cbn [map].
  change (play (Resize x :: map Resize rest) w)
    with (play (map Resize rest) (handle w (Resize x))).
  destruct (resize_consistent w x Hl Hc) as (Hl1 & Hc1 & Ht1 & Hs1 & Hd1).
  destruct (IH _ Hl1 Hc1) as (Hl2 & Hc2 & Ht2 & Hs2 & Hd2).
  rewrite Ht2, Hs2, Hd2. auto.
Qed.

Lemma find_fresh (id : Z) (l : list Timer) (t : Timer) :
  Forall (fun x => timerId x < id) l -> timerId t = id ->
  find (fun x => timerId x =? id) (l ++ [t]) = Some t.
Proof.
  intros Hall Ht. induction Hall as [| x r Hx _ IH]; cbn [app find].
  - rewrite Ht, Z.eqb_refl. reflexivity.
  - destruct (Z.eqb_spec (timerId x) id); [lia | exact IH].
Qed.

Lemma play_snoc (events : list Event) (ev : Event) (w : Widget) :
  play (events ++ [ev]) w = handle (play events w) ev.
Proof. unfold play. rewrite fold_left_app. reflexivity. Qed.

(** Debouncing: however many resize events arrive before the timer expires,
    exactly one evaluation is pending after them, no list or option has
    changed yet and no tick has been cancelled; when that one timer expires,
    the handler runs once, on the width of the last event, and no evaluation
    is pending any more. *)
Theorem resize_burst (w : Widget) (widths : list Z) (last : Z) :
  resizeListener (window w) = true ->
  timersConsistent w ->
  let burst := play (map Resize (widths ++ [last])) w in
  exists id,
    filter isLater (timers (window burst))
    = [{| timerId := id; callback := CbLater; delay := 250 |}]
    /\ filter isTick (timers (window burst)) = filter isTick (timers (window w))
    /\ setup burst = setup w
    /\ display burst = display w
    /\ timing (options (handle burst (Fire id))) =
       (if last <? responsiveBreakpoint (options w)
        then mobileProfile else desktopProfile)
    /\ filter isLater (timers (window (handle burst (Fire id)))) = []
    /\ filter isTick (timers (window (handle burst (Fire id))))
       = filter isTick (timers (window w)).
Proof.
  intros Hl Hc. cbv zeta. rewrite map_app. cbn [map]. rewrite play_snoc.
  destruct (resizes_consistent widths w Hl Hc) as (Hl1 & Hc1 & Ht1 & Hs1 & Hd1).
  set (w1 := play (map Resize widths) w) in *.
  destruct (clearedTimers_spec w1 Hc1) as (Hnone & Hticks & Hids).
  set (n := nextTimer (window w1)).
  set (new := {| timerId := n; callback := CbLater; delay := 250 |}).
  assert (Hnolater : filter isLater (clearedTimers w1) = [])
    by (apply filter_none; exact Hnone).
  assert (Hrest : filter (fun t => negb (timerId t =? n)) (clearedTimers w1 ++ [new])
                  = clearedTimers w1).
  { rewrite filter_app. cbn. rewrite Z.eqb_refl. cbn. rewrite app_nil_r.
    apply filter_all. eapply Forall_impl; [| exact Hids]. cbn. intros t Hlt.
    fold n in Hlt. destruct (Z.eqb_spec (timerId t) n); [lia | reflexivity]. }
  exists n. rewrite (resize_heard w1 last Hl1). fold n new.
  set (burst := set_debounceTimeout (Some n) _).
  assert (Hfire : dispatch (Fire n) burst
                  = runCallback CbLater
                      (set_window (removeTimer n (window burst)) burst)).
  { apply (fire_pending burst new). cbn. apply find_fresh; [exact Hids | reflexivity]. }
  assert (Hrun : handle burst (Fire n) =
                 after (handleResponsive
                          (set_window
                             (set_timers (clearedTimers w1) (window burst))
                             burst))).
  { unfold handle. rewrite Hfire. cbn [runCallback].
    unfold bind, get, clearTimeout, onWindow, modify, removeTimer. cbn.
    fold n new. rewrite filter_filter.
    rewrite (filter_ext _ (fun t => negb (timerId t =? n)))
      by (intros t; apply andb_diag).
    rewrite Hrest. reflexivity. }
  split; [cbn; rewrite filter_app, Hnolater; reflexivity |].
  split; [cbn; rewrite filter_app, Hticks, Ht1; cbn; apply app_nil_r |].
  split; [exact Hs1 |]. split; [exact Hd1 |].
  rewrite Hrun.
  set (x := set_window (set_timers (clearedTimers w1) (window burst)) burst).
  rewrite !handleResponsive_timers.
  change (timers (window x)) with (clearedTimers w1).
  split; [| split; [exact Hnolater | rewrite Hticks; exact Ht1]].
  destruct (handleResponsive_timing x) as (w2 & E2 & Htime).
  rewrite E2. cbn [after]. rewrite Htime.
  change (innerWidth (window x)) with last.
  change (options x) with (options w1).
  unfold setup in Hs1. injection Hs1 as _ _ Hopt. rewrite Hopt. reflexivity.
Qed.

(** ** How many ticks are pending *)

Lemma animate_timers (w : Widget) :
  timers (window (after (animate w))) = timers (window w)
  \/ exists d,
       timers (window (after (animate w))) =
       timers (window w)
         ++ [{| timerId := nextTimer (window w); callback := CbAnimate; delay := d |}].
Proof.
  destruct (isRunning w) eqn:Hrun.
  2: { left. rewrite (animate_stopped w Hrun). reflexivity. }
  destruct (index (words w) (currentIndex w)) as [word |] eqn:Hword.
  2: { left. rewrite (animate_undefined w Hrun Hword). reflexivity. }
  destruct (rendered w) as [old |] eqn:Htext.
  2: { left. rewrite (animate_no_text w word Hrun Hword Htext). reflexivity. }
  right. destruct (isDeleting w) eqn:Hdel.
  - destruct (animate_deleting w word old Hrun Hdel Hword Htext)
      as (w' & d & -> & _ & _ & _ & _ & _ & _ & Htm).
    exists d. exact Htm.
  - destruct (animate_typing w word old Hrun Hdel Hword Htext)
      as (w' & d & -> & _ & _ & _ & _ & _ & _ & Htm).
    exists d. exact Htm.
Qed.

Lemma tickCount_animate (w : Widget) :
  (tickCount (after (animate w)) <= tickCount w + 1)%nat.
Proof.
  unfold tickCount. destruct (animate_timers w) as [-> | (d & ->)]; [lia |].
  rewrite filter_app, List.length_app. cbn. lia.
Qed.

Lemma tickCount_start (w : Widget) :
  (tickCount (after (start w)) <= tickCount w + 1)%nat.
Proof.
  destruct (isRunning w) eqn:E.
  - rewrite (start_running w E). cbn [after]. lia.
  - rewrite (start_stopped w E).
    match goal with |- context [animate ?x] =>
      pose proof (tickCount_animate x) as H
    end.
    exact H.
Qed.

Lemma filter_filter_length {A} (f g : A -> bool) (l : list A) :
  (List.length (filter f (filter g l)) <= List.length (filter f l))%nat.
Proof.
  induction l as [| x r IH]; [cbn; lia |]. cbn [filter].
  destruct (g x); cbn [filter]; destruct (f x); cbn [List.length]; lia.
Qed.

Lemma filter_filter_drops {A} (f g : A -> bool) (l : list A) (x : A) :
  In x l -> f x = true -> g x = false ->
  (List.length (filter f (filter g l)) < List.length (filter f l))%nat.
Proof.
  induction l as [| y r IH]; intros Hin Hf Hg; [destruct Hin |].
  cbn [filter]. destruct Hin as [-> | Hin].
  - rewrite Hg, Hf. cbn [List.length].
    pose proof (filter_filter_length f g r). lia.
  - specialize (IH Hin Hf Hg).
    destruct (g y); cbn [filter]; destruct (f y); cbn [List.length]; lia.
Qed.

(** Without a call of [start()], an event leaves at most one tick pending
    when at most one was pending before. *)
Lemma tickCount_event (w : Widget) (ev : Event) :
  isCallStart ev = false ->
  (tickCount w <= 1)%nat ->
  (tickCount (handle w ev) <= 1)%nat.
Proof.
  intros Hev Hone. destruct ev; try discriminate.
  - destruct (resizeListener (window w)) eqn:Hl.
    + rewrite (resize_heard w width Hl). unfold tickCount. cbn.
      rewrite filter_app, List.length_app. cbn.
      unfold clearedTimers. unfold tickCount in Hone.
      destruct (debounceTimeout w); [| lia].
      pose proof (filter_filter_length isTick
                    (fun t => negb (timerId t =? z)) (timers (window w))).
      lia.
    + rewrite (resize_unheard w width Hl). exact Hone.
  - unfold handle.
    destruct (find (fun t => timerId t =? id) (timers (window w))) as [t |] eqn:Hf.
    2: { unfold dispatch, bind, get. rewrite Hf. exact Hone. }
    pose proof (find_some _ _ Hf) as (Hin & Hid).
    apply Z.eqb_eq in Hid. subst id.
    rewrite (fire_pending w t Hf).
    set (w1 := set_window (removeTimer (timerId t) (window w)) w).
    assert (Hle : (tickCount w1 <= tickCount w)%nat)
      by apply filter_filter_length.
    assert (Hdrop : isTick t = true -> tickCount w1 = 0%nat).
    { intros Htick.
      pose proof (filter_filter_drops isTick
                    (fun x => negb (timerId x =? timerId t))
                    (timers (window w)) t Hin Htick) as H.
      cbv beta in H. rewrite Z.eqb_refl in H. specialize (H eq_refl).
      unfold tickCount in *. cbn. lia. }
    destruct (callback t) eqn:Hcb; cbn [runCallback].
    + pose proof (tickCount_start w1).
      rewrite Hdrop in * by (unfold isTick, isLater; rewrite Hcb; reflexivity). lia.
    + pose proof (tickCount_animate w1).
      rewrite Hdrop in * by (unfold isTick, isLater; rewrite Hcb; reflexivity). lia.
    + unfold bind, get, clearTimeout, onWindow, modify, ret.
      destruct (debounceTimeout w1) as [d |]; cbv beta iota;
        unfold tickCount; rewrite handleResponsive_timers.
      * pose proof (filter_filter_length isTick
                      (fun x => negb (timerId x =? d)) (timers (window w1))).
        unfold tickCount in *. cbn in *. lia.
      * unfold tickCount in *. lia.
  - exact Hone.
  - unfold handle, tickCount. cbn [dispatch].
    pose proof (stop_schedule w) as Hs. unfold schedule in Hs.
    injection Hs as -> _. exact Hone.
  - unfold handle, tickCount. cbn [dispatch].
    pose proof (destroy_schedule w) as Hs. unfold schedule in Hs.
    injection Hs as -> _. exact Hone.
Qed.

Lemma tickCount_events (events : list Event) : forall w,
  forallb (fun ev => negb (isCallStart ev)) events = true ->
  (tickCount w <= 1)%nat ->
  (tickCount (play events w) <= 1)%nat.
Proof.
  induction events as [| ev rest IH]; intros w Hall Hone; [exact Hone |].
  cbn [forallb] in Hall. apply andb_true_iff in Hall. destruct Hall as [Hev Hrest].
  change (play (ev :: rest) w) with (play rest (handle w ev)).
  apply IH; [exact Hrest |]. apply tickCount_event; [| exact Hone].
  destruct (isCallStart ev); [discriminate | reflexivity].
Qed.

(** At most one tick is in flight: on a page where nothing was pending, as
    long as no script calls [start()], every widget reached from the
    constructor has at most one pending timer that drives the animation (the
    delayed start or one tick), whatever else happens. *)
Theorem single_tick (el : Element) (given : Overrides) (g : Window)
  (events : list Event) :
  filter isTick (timers g) = [] ->
  forallb (fun ev => negb (isCallStart ev)) events = true ->
  (tickCount (play events (after (construct el given g))) <= 1)%nat.
Proof.
  intros Hg Hall. apply tickCount_events; [exact Hall |]. unfold tickCount.
  destruct (textChild el) as [text |] eqn:Htext.
  - destruct (cursorChild el) as [cursor |] eqn:Hcursor.
    + destruct (construct_element el given g text cursor Htext Hcursor)
        as (w0 & -> & _ & _ & _ & _ & _ & _ & _ & _ & Htm).
      cbn [after]. rewrite Htm, filter_app, Hg. cbn. lia.
    + rewrite construct_inert by (right; exact Hcursor).
      cbn. rewrite Hg. cbn. lia.
  - rewrite construct_inert by (left; exact Htext).
    cbn. rewrite Hg. cbn. lia.
Qed.

(** ** The delay before the next character *)

(** Inside the animation the delay is computed for the character to come:
    with [charIndex] at least 0 and more than one character still missing, a
    typing tick schedules the next one after 1.2 times the base speed when
    the next character is the word's last, else after 1.5 times the base
    speed when the character just typed is one of [. , ! ? ; :], else after
    the base speed.  The first-character case of [calculateTypingSpeed] is
    never taken there. *)
Theorem typing_delay (w : Widget) (word old : jsstring) :
  isRunning w = true ->
  isDeleting w = false ->
  index (words w) (currentIndex w) = Some word ->
  rendered w = Some old ->
  0 <= charIndex w ->
  charIndex w + 1 < JS.length word ->
  exists w',
    animate w = Ok tt w'
    /\ timers (window w') =
       timers (window w)
         ++ [{| timerId := nextTimer (window w);
                callback := CbAnimate;
                delay :=
                  if charIndex w + 2 =? JS.length word
                  then (typingSpeed (options w) * 1.2)%float
                  else match index word (charIndex w) with
                       | Some c =>
                           if isPunctuation c
                           then (typingSpeed (options w) * 1.5)%float
                           else typingSpeed (options w)
                       | None => typingSpeed (options w)
                       end |}].
Proof.
  unfold rendered. intros Hrun Hdel Hword Htext H0 Hlt.
  unfold_js. rewrite Hrun, Hdel, Hword. cbn. rewrite Htext. cbn.
  destruct (Z.eqb_spec (charIndex w + 1) (JS.length word)) as [E | _]; [lia |].
  destruct (Z.eqb_spec (charIndex w + 1) 0) as [E | _]; [lia |].
  replace (charIndex w + 1 - 1) with (charIndex w) by lia. cbn [orb].
  destruct (Z.eqb_spec (charIndex w + 1) (JS.length word - 1)) as [E | E];
    destruct (Z.eqb_spec (charIndex w + 2) (JS.length word)) as [E' | E'];
    try lia.
  - eexists. split; reflexivity.
  - destruct (index word (charIndex w)) as [c |]; [destruct (isPunctuation c) |];
      (eexists; split; reflexivity).
Qed.

(** ** The further properties on the running example *)


(** [stop()] and [destroy()] on the fresh widget, then the start timer. *)
Lemma pending_start_survives_witness :
  find (fun x => timerId x =? timerId startTimer)
    (timers (window (widgetFor "Rust, Go" 1024))) = Some startTimer
  /\ callback startTimer = CbStart
  /\ index (words (widgetFor "Rust, Go" 1024))
       (currentIndex (widgetFor "Rust, Go" 1024)) = Some (lit "Rust")
  /\ rendered (widgetFor "Rust, Go" 1024) = Some []
  /\ isDeleting (widgetFor "Rust, Go" 1024) = false
  /\ isRunning
       (handle (after (stop (widgetFor "Rust, Go" 1024)))
          (Fire (timerId startTimer))) = true
  /\ isRunning
       (handle (after (destroy (widgetFor "Rust, Go" 1024)))
          (Fire (timerId startTimer))) = true.
Proof.
  assert (H1 : find (fun x => timerId x =? timerId startTimer)
                 (timers (window (widgetFor "Rust, Go" 1024))) = Some startTimer)
    by (vm_compute; reflexivity).
  assert (H2 : callback startTimer = CbStart) by reflexivity.
  assert (H3 : index (words (widgetFor "Rust, Go" 1024))
                 (currentIndex (widgetFor "Rust, Go" 1024)) = Some (lit "Rust"))
    by (vm_compute; reflexivity).
  assert (H4 : rendered (widgetFor "Rust, Go" 1024) = Some [])
    by (vm_compute; reflexivity).
  assert (H5 : isDeleting (widgetFor "Rust, Go" 1024) = false)
    by (vm_compute; reflexivity).
  split; [exact H1 |]. split; [exact H2 |]. split; [exact H3 |].
  split; [exact H4 |]. split; [exact H5 |].
  pose proof (pending_start_survives (widgetFor "Rust, Go" 1024) startTimer
                (lit "Rust") [] H1 H2 H3 H4 H5) as H.
  cbv zeta in H. destruct H as (_ & _ & Hs & Hd & _).
  split; [exact Hs | exact Hd].
Defined.

(** "Ru" on screen, one tick pending: after [stop()] and [start()] there are
    two. *)
Lemma restart_doubles_ticks_witness :
  ticking (rustWidget 2)
  /\ index (words (rustWidget 2)) (currentIndex (rustWidget 2)) = Some (lit "Rust")
  /\ exists t d,
       timers (window (rustWidget 2)) = [t]
       /\ timers (window (after (start (after (stop (rustWidget 2)))))) =
          [t; {| timerId := nextTimer (window (rustWidget 2));
                 callback := CbAnimate; delay := d |}]
       /\ isRunning (after (start (after (stop (rustWidget 2))))) = true.
Proof.
  assert (H1 : ticking (rustWidget 2)).
  { split; [vm_compute; reflexivity |]. split; [vm_compute; discriminate |].
    eexists. split; vm_compute; reflexivity. }
  assert (H2 : index (words (rustWidget 2)) (currentIndex (rustWidget 2))
               = Some (lit "Rust")) by (vm_compute; reflexivity).
  split; [exact H1 |]. split; [exact H2 |].
  pose proof (restart_doubles_ticks (rustWidget 2) (lit "Rust") H1 H2) as H.
  cbv zeta in H. exact H.
Defined.

(** "Ru" on screen and [stop()]: the pending tick, a resize and its debounced
    evaluation change nothing of what is shown. *)
Lemma stop_halts_witness :
  Forall (fun t => isStartTimer t = false) (timers (window (rustWidget 2)))
  /\ forallb fromPage [Fire 3; Resize 500; Fire 4] = true
  /\ display (play [Fire 3; Resize 500; Fire 4] (after (stop (rustWidget 2))))
     = (false, rendered (rustWidget 2), position (rustWidget 2)).
Proof.
  assert (H1 : Forall (fun t => isStartTimer t = false)
                 (timers (window (rustWidget 2)))).
  { replace (timers (window (rustWidget 2)))
      with [{| timerId := 3; callback := CbAnimate; delay := 100 |}]
      by (vm_compute; reflexivity).
    repeat constructor. }
  split; [exact H1 |]. split; [reflexivity |].
  exact (stop_halts (rustWidget 2) [Fire 3; Resize 500; Fire 4] H1 eq_refl).
Defined.

(** The running widget destroyed, then two resizes. *)
Lemma destroy_detaches_witness :
  resizeHandler (rustWidget 2) = true
  /\ resizeListener
       (window (play (map Resize [500; 400]) (after (destroy (rustWidget 2)))))
     = false
  /\ schedule (play (map Resize [500; 400]) (after (destroy (rustWidget 2))))
     = schedule (rustWidget 2).
Proof.
  assert (H1 : resizeHandler (rustWidget 2) = true) by (vm_compute; reflexivity).
  split; [exact H1 |].
  pose proof (destroy_detaches (rustWidget 2) [500; 400] H1) as H.
  cbv zeta in H. destruct H as (Ha & Hb & _). split; [exact Ha | exact Hb].
Defined.

(** The container of the running example built and destroyed: no
    screen-reader child is left, the [aria] attributes are.  The same with a
    [.sr-only] node of the page's nested in a child: [destroy()] throws and
    the widget's node stays behind it. *)
Lemma construct_destroy_witness :
  textChild rustHost = Some []
  /\ cursorChild rustHost = Some []
  /\ srOnlyNodes
       (element (after (destroy (after (construct rustHost noOverrides (page 1024))))))
     = []
  /\ attributes
       (element (after (destroy (after (construct rustHost noOverrides (page 1024))))))
     = assocSet "aria-label" "Rotating professional titles"
         (assocSet "aria-live" "polite" (attributes rustHost))
  /\ textChild nestedHost = Some []
  /\ cursorChild nestedHost = Some []
  /\ returns (destroy (after (construct nestedHost noOverrides (page 1024))))
     = false
  /\ srOnlyNodes
       (element (after (destroy (after (construct nestedHost noOverrides (page 1024))))))
     = [PageNested; SrText (lit "Professional titles: Rust, Go")].
Proof.
  split; [reflexivity |]. split; [reflexivity |].
  assert (E : srOnlyNested rustHost = false) by (vm_compute; reflexivity).
  assert (E0 : srOnlyNodes rustHost = []) by (vm_compute; reflexivity).
  pose proof (construct_destroy rustHost noOverrides (page 1024) [] []
                eq_refl eq_refl) as H.
  cbv zeta in H. destruct H as (_ & _ & Hsr & _ & Hat & _).
  destruct (Hsr E) as (_ & Hnil & _).
  split; [exact (Hnil E0) |]. split; [exact Hat |].
  split; [reflexivity |]. split; [reflexivity |].
  assert (E' : srOnlyNested nestedHost = true) by (vm_compute; reflexivity).
  pose proof (construct_destroy nestedHost noOverrides (page 1024) [] []
                eq_refl eq_refl) as H.
  cbv zeta in H. destruct H as (Hthrow & Hkept & _).
  rewrite E' in Hthrow. destruct (Hkept E') as (Hnodes & _).
  split; [rewrite Hthrow; reflexivity |].
  rewrite Hnodes. vm_compute. reflexivity.
Defined.

Lemma rustWidget_consistent : timersConsistent (rustWidget 2).
Proof.
  unfold timersConsistent.
  replace (timers (window (rustWidget 2)))
    with [{| timerId := 3; callback := CbAnimate; delay := 100 |}]
    by (vm_compute; reflexivity).
  replace (nextTimer (window (rustWidget 2))) with 4 by (vm_compute; reflexivity).
  replace (debounceTimeout (rustWidget 2)) with (@None Z)
    by (vm_compute; reflexivity).
  split; repeat constructor; discriminate.
Qed.

(** Three resizes in a row while "Ru" is on screen: one evaluation pending,
    and it sets the profile of the last width, 1024. *)
Lemma resize_burst_witness :
  resizeListener (window (rustWidget 2)) = true
  /\ timersConsistent (rustWidget 2)
  /\ exists id,
       filter isLater
         (timers (window (play (map Resize ([500; 600] ++ [1024])) (rustWidget 2))))
       = [{| timerId := id; callback := CbLater; delay := 250 |}]
       /\ timing
            (options
               (handle (play (map Resize ([500; 600] ++ [1024])) (rustWidget 2))
                  (Fire id)))
          = (if 1024 <? responsiveBreakpoint (options (rustWidget 2))
             then mobileProfile else desktopProfile).
Proof.
  assert (H1 : resizeListener (window (rustWidget 2)) = true)
    by (vm_compute; reflexivity).
  split; [exact H1 |]. split; [exact rustWidget_consistent |].
  pose proof (resize_burst (rustWidget 2) [500; 600] 1024 H1
                rustWidget_consistent) as H.
  cbv zeta in H. destruct H as (id & Ha & _ & _ & _ & Hb & _).
  exists id. split; [exact Ha | exact Hb].
Defined.

(** The running example with a [stop()] in between. *)
Lemma single_tick_witness :
  filter isTick (timers (page 1024)) = []
  /\ forallb (fun ev => negb (isCallStart ev))
       [Fire 1; Fire 2; CallStop; Resize 500; Fire 3] = true
  /\ (tickCount
        (play [Fire 1; Fire 2; CallStop; Resize 500; Fire 3]
           (after (construct rustHost noOverrides (page 1024)))) <= 1)%nat.
Proof.
  split; [reflexivity |]. split; [reflexivity |].
  exact (single_tick rustHost noOverrides (page 1024)
           [Fire 1; Fire 2; CallStop; Resize 500; Fire 3] eq_refl eq_refl).
Defined.

(** "e.g. Rust" with "e" on screen: the tick types the full stop and the next
    tick is due after 150 ms. *)
Lemma typing_delay_witness :
  isRunning abbreviationWidget = true
  /\ isDeleting abbreviationWidget = false
  /\ index (words abbreviationWidget) (currentIndex abbreviationWidget)
     = Some (lit "e.g. Rust")
  /\ rendered abbreviationWidget = Some (lit "e")
  /\ 0 <= charIndex abbreviationWidget
  /\ charIndex abbreviationWidget + 1 < JS.length (lit "e.g. Rust")
  /\ exists w',
       animate abbreviationWidget = Ok tt w'
       /\ timers (window w') =
          timers (window abbreviationWidget)
            ++ [{| timerId := nextTimer (window abbreviationWidget);
                   callback := CbAnimate; delay := 150 |}].
Proof.
  assert (H1 : isRunning abbreviationWidget = true) by (vm_compute; reflexivity).
  assert (H2 : isDeleting abbreviationWidget = false) by (vm_compute; reflexivity).
  assert (H3 : index (words abbreviationWidget) (currentIndex abbreviationWidget)
               = Some (lit "e.g. Rust")) by (vm_compute; reflexivity).
  assert (H4 : rendered abbreviationWidget = Some (lit "e"))
    by (vm_compute; reflexivity).
  assert (H5 : 0 <= charIndex abbreviationWidget) by (vm_compute; discriminate).
  assert (H6 : charIndex abbreviationWidget + 1 < JS.length (lit "e.g. Rust"))
    by (vm_compute; reflexivity).
  split; [exact H1 |]. split; [exact H2 |]. split; [exact H3 |].
  split; [exact H4 |]. split; [exact H5 |]. split; [exact H6 |].
  destruct (typing_delay abbreviationWidget (lit "e.g. Rust") (lit "e")
              H1 H2 H3 H4 H5 H6) as (w' & Ha & Htm).
  exists w'. split; [exact Ha |]. rewrite Htm.
  match goal with
  | |- _ ++ [{| timerId := _; callback := _; delay := ?e |}] = _ =>
      replace e with 150%float by (vm_compute; reflexivity)
  end.
  reflexivity.
Defined.

(** The running example after two timer expiries: [charIndex] is inside
    "Rust". *)
Lemma char_bound_without_long_words_witness :
  Forall (fun x => JS.length x <= maxWordLength (mergeOptions noOverrides))
    (parseWords (orDefault (datasetWords rustHost) []))
  /\ index
       (words (play [Fire 1; Fire 2]
                 (after (construct rustHost noOverrides (page 1024)))))
       (currentIndex (play [Fire 1; Fire 2]
                        (after (construct rustHost noOverrides (page 1024)))))
     = Some (lit "Rust")
  /\ 0 <= charIndex (play [Fire 1; Fire 2]
                       (after (construct rustHost noOverrides (page 1024))))
       <= JS.length (lit "Rust").
Proof.
  assert (H1 : Forall (fun x => JS.length x <= maxWordLength (mergeOptions noOverrides))
                 (parseWords (orDefault (datasetWords rustHost) []))).
  { replace (parseWords (orDefault (datasetWords rustHost) []))
      with [lit "Rust"; lit "Go"] by (vm_compute; reflexivity).
    repeat constructor; vm_compute; discriminate. }
  assert (H2 : index
                 (words (play [Fire 1; Fire 2]
                           (after (construct rustHost noOverrides (page 1024)))))
                 (currentIndex (play [Fire 1; Fire 2]
                                  (after (construct rustHost noOverrides (page 1024)))))
               = Some (lit "Rust")) by (vm_compute; reflexivity).
  split; [exact H1 |]. split; [exact H2 |].
  pose proof (char_bound_without_long_words rustHost noOverrides (page 1024)
                [Fire 1; Fire 2] (lit "Rust") H1) as H.
  cbv zeta in H. exact (H H2).
Defined.

(** ** The list an evaluation leaves *)

Lemma handleResponsive_limits (w : Widget) :
  limits (after (handleResponsive w)) = limits w.
Proof.
  unfold limits.
  destruct (Z.lt_ge_cases (innerWidth (window w)) (responsiveBreakpoint (options w)))
    as [H | H].
  - destruct (handleResponsive_mobile w H) as (w' & -> & _ & _ & _ & Hm & Hb & _).
    cbn [after]. rewrite Hm, Hb. reflexivity.
  - destruct (handleResponsive_desktop w H) as (w' & -> & _ & _ & _ & Hm & Hb & _).
    cbn [after]. rewrite Hm, Hb. reflexivity.
Qed.

Lemma limits_stable (l : Z * Z) : stable (fun w => limits w = l).
Proof.
  intros w w' Hs _. unfold setup in Hs. injection Hs as _ _ Hopt.
  unfold limits. rewrite Hopt. auto.
Qed.

Lemma animate_limits (l : Z * Z) (w : Widget) :
  limits w = l -> limits (after (animate w)) = l.
Proof. unfold limits. rewrite animate_options. auto. Qed.

(** Every evaluation of the responsive handler leaves the list of its mode,
    wherever the widget has been before: below the breakpoint the truncation
    of the configured words, otherwise the configured words themselves. *)
Theorem evaluation_sets_list (el : Element) (given : Overrides) (g : Window)
  (events : list Event) (width : Z) :
  let parsed := parseWords (orDefault (datasetWords el) []) in
  let w := play events (after (construct el given g)) in
  words (after (handleResponsive (atWidth width w))) =
    (if width <? responsiveBreakpoint (mergeOptions given)
     then map (truncateWord (maxWordLength (mergeOptions given))) parsed
     else parsed).
Proof.
  intros parsed w.
  set (maxLen := maxWordLength (mergeOptions given)).
  assert (Hnew : listsFaithful parsed maxLen (newWidget el given g))
    by (split; [reflexivity | left; split; reflexivity]).
  pose proof (preserves_construct (listsFaithful parsed maxLen)
                (listsFaithful_stable parsed maxLen)
                (animate_listsFaithful parsed maxLen)
                (handleResponsive_listsFaithful parsed maxLen)
                el given g events Hnew) as (Hmax & Hlists).
  pose proof (preserves_construct
                (fun w => limits w = limits (newWidget el given g))
                (limits_stable _) (animate_limits _)
                (fun w H => eq_trans (handleResponsive_limits w) H)
                el given g events eq_refl) as Hlim.
  fold w in Hmax, Hlists, Hlim. unfold limits in Hlim.
  injection Hlim as Hbp _. cbn [newWidget options] in Hbp.
  assert (Hidem : map (truncateWord maxLen) (map (truncateWord maxLen) parsed)
                  = map (truncateWord maxLen) parsed).
  { rewrite map_map. apply map_ext. intros x. apply truncateWord_idempotent. }
  destruct (Z.ltb_spec width (responsiveBreakpoint (mergeOptions given)))
    as [H | H].
  - destruct (handleResponsive_mobile (atWidth width w)) as (w' & -> & Hw & _);
      [cbn; rewrite Hbp; exact H |].
    cbn [after]. rewrite Hw. cbn. rewrite Hmax.
    destruct Hlists as [(_ & ->) | (_ & [-> | ->])]; rewrite ?Hidem; reflexivity.
  - destruct (handleResponsive_desktop (atWidth width w)) as (w' & -> & Hw & _);
      [cbn; rewrite Hbp; exact H |].
    cbn [after]. rewrite Hw. cbn.
    destruct Hlists as [(-> & ->) | (-> & _)]; reflexivity.
Qed.

(** ** A typing run past the end of the word *)

(** A typing run ends only when [charIndex] equals the word's length: once
    [charIndex] has reached or passed it while typing, no number of ticks
    ends the run, [charIndex] grows by one each tick and the word index never
    moves. *)
Theorem typing_past_end_never_ends (w : Widget) (word : jsstring) (n : nat) :
  ticking w ->
  isDeleting w = false ->
  index (words w) (currentIndex w) = Some word ->
  JS.length word <= charIndex w ->
  isDeleting (ticks n w) = false
  /\ charIndex (ticks n w) = charIndex w + Z.of_nat n
  /\ currentIndex (ticks n w) = currentIndex w
  /\ (n <> 0%nat -> rendered (ticks n w) = Some word).
Proof.
  intros Htick Hdel Hword Hlen.
  destruct (typing_overshoot n w word Htick Hdel Hword Hlen)
    as (_ & Hd & Hc & Hi & _).
  repeat (split; [assumption |]).
  destruct n as [| m]; [congruence |]. intros _.
  replace (S m) with (m + 1)%nat by lia. rewrite ticks_add.
  destruct (typing_overshoot m w word Htick Hdel Hword Hlen)
    as (Htick' & Hd' & Hc' & Hi' & Hw').
  rewrite <- Hi', <- Hw' in Hword.
  destruct (tick_typing _ word Htick' Hd' Hword) as (_ & _ & Hr & _).
  cbn [ticks]. rewrite Hr, Hc', substring_prefix.
  f_equal. apply firstn_all2. unfold JS.length in Hlen. lia.
Qed.

(** The title widget after the switch to mobile: stuck in the typing run. *)
Lemma typing_past_end_never_ends_witness :
  ticking overshot
  /\ isDeleting overshot = false
  /\ index (words overshot) (currentIndex overshot)
     = Some (lit "Senior Software Arch...")
  /\ JS.length (lit "Senior Software Arch...") <= charIndex overshot
  /\ isDeleting (ticks 100 overshot) = false
  /\ charIndex (ticks 100 overshot) = charIndex overshot + Z.of_nat 100.
Proof.
  assert (H1 : ticking overshot).
  { split; [vm_compute; reflexivity |]. split; [vm_compute; discriminate |].
    eexists. split; vm_compute; reflexivity. }
  assert (H2 : isDeleting overshot = false) by (vm_compute; reflexivity).
  assert (H3 : index (words overshot) (currentIndex overshot)
               = Some (lit "Senior Software Arch..."))
    by (vm_compute; reflexivity).
  assert (H4 : JS.length (lit "Senior Software Arch...") <= charIndex overshot)
    by (vm_compute; discriminate).
  split; [exact H1 |]. split; [exact H2 |]. split; [exact H3 |].
  split; [exact H4 |].
  destruct (typing_past_end_never_ends overshot (lit "Senior Software Arch...")
              100 H1 H2 H3 H4) as (Ha & Hb & _).
  split; [exact Ha | exact Hb].
Defined.

(** ** Timer ids *)

Lemma animate_schedule (w : Widget) :
  schedule (after (animate w)) = schedule w
  \/ exists d,
       schedule (after (animate w)) =
       (timers (window w)
          ++ [{| timerId := nextTimer (window w); callback := CbAnimate; delay := d |}],
        nextTimer (window w) + 1).
Proof.
  destruct (isRunning w) eqn:Hrun.
  2: { left. rewrite (animate_stopped w Hrun). reflexivity. }
  destruct (index (words w) (currentIndex w)) as [word |] eqn:Hword.
  2: { left. rewrite (animate_undefined w Hrun Hword). reflexivity. }
  destruct (rendered w) as [old |] eqn:Htext.
  2: { left. rewrite (animate_no_text w word Hrun Hword Htext). reflexivity. }
  right. unfold rendered in Htext. unfold schedule.
  unfold_js. rewrite Hrun, Hword. cbn.
  destruct (isDeleting w); cbn; rewrite Htext; cbn.
  - destruct (charIndex w - 1 =? 0); cbn; eexists; reflexivity.
  - destruct (charIndex w + 1 =? JS.length word); cbn; [eexists; reflexivity |].
    destruct ((charIndex w + 1 =? 0) || (charIndex w + 1 =? JS.length word - 1));
      cbn; [eexists; reflexivity |].
    destruct (index word (charIndex w + 1 - 1)) as [c |];
      [destruct (isPunctuation c) |]; cbn; eexists; reflexivity.
Qed.

Lemma animate_debounceTimeout : keeps debounceTimeout animate.
Proof.
  unfold animate, substringOf, defined, setTextContent, calculateTypingSpeed,
    setTimeout, requestAnimationFrame, onElement, onWindow.
  keeps_all.
Qed.

Lemma stop_debounceTimeout : keeps debounceTimeout stop.
Proof. unfold stop, onElement, cancelAnimationFrame, onWindow. keeps_all. Qed.

Lemma destroy_debounceTimeout : keeps debounceTimeout destroy.
Proof.
  unfold destroy, querySelectorSrOnly, removeChild, stop, onElement,
    cancelAnimationFrame, onWindow.
  keeps_all.
Qed.

Lemma handleResponsive_debounceTimeout : keeps debounceTimeout handleResponsive.
Proof.
  unfold handleResponsive, truncateLongWords, restoreOriginalWords,
    adjustTimingForMobile, adjustTimingForDesktop, calculateContainerHeight,
    onOptions, onElement.
  keeps_all.
Qed.

Lemma timersSound_frame (w w' : Widget) :
  schedule w' = schedule w ->
  debounceTimeout w' = debounceTimeout w ->
  timersSound w -> timersSound w'.
Proof.
  unfold schedule. intros Hs Hd. injection Hs as Ht Hn.
  unfold timersSound, timersConsistent. rewrite Ht, Hn, Hd. auto.
Qed.

Lemma timersSound_remove (w : Widget) (id : Z) :
  timersSound w -> timersSound (set_window (removeTimer id (window w)) w).
Proof.
  intros ((Hids & Hiff) & Hd). unfold timersSound, timersConsistent. cbn.
  split; [split; apply Forall_filter; assumption | exact Hd].
Qed.

Lemma timersSound_add (w w' : Widget) (cb : Callback) (d : float) :
  schedule w' =
    (timers (window w)
       ++ [{| timerId := nextTimer (window w); callback := cb; delay := d |}],
     nextTimer (window w) + 1) ->
  debounceTimeout w' = debounceTimeout w ->
  cb <> CbLater ->
  timersSound w -> timersSound w'.
Proof.
  unfold schedule. intros Hs Hd Hcb ((Hids & Hiff) & Hdt).
  injection Hs as Ht Hn. unfold timersSound, timersConsistent.
  rewrite Ht, Hn, Hd. split; [split |].
  - apply Forall_app. split.
    + eapply Forall_impl; [| exact Hids]. cbn. intros; lia.
    + repeat constructor. cbn. lia.
  - apply Forall_app. split; [exact Hiff |].
    repeat constructor; cbn.
    + unfold isLater. cbn. destruct cb; congruence.
    + intros E. rewrite E in Hdt. lia.
  - destruct (debounceTimeout w); [lia | exact I].
Qed.

Lemma animate_timersSound (w : Widget) :
  timersSound w -> timersSound (after (animate w)).
Proof.
  intros H. destruct (animate_schedule w) as [Hs | (d & Hs)].
  - exact (timersSound_frame w _ Hs (animate_debounceTimeout w) H).
  - apply (timersSound_add w _ CbAnimate d Hs (animate_debounceTimeout w));
      [discriminate | exact H].
Qed.

Lemma start_timersSound (w : Widget) :
  timersSound w -> timersSound (after (start w)).
Proof.
  intros H. destruct (isRunning w) eqn:E.
  - rewrite (start_running w E). exact H.
  - rewrite (start_stopped w E). apply animate_timersSound.
    exact (timersSound_frame w _ eq_refl eq_refl H).
Qed.

Lemma handleResponsive_timersSound (w : Widget) :
  timersSound w -> timersSound (after (handleResponsive w)).
Proof.
  apply timersSound_frame;
    [apply handleResponsive_schedule | apply handleResponsive_debounceTimeout].
Qed.

Lemma handle_timersSound (w : Widget) (ev : Event) :
  timersSound w -> timersSound (handle w ev).
Proof.
  intros H. destruct ev.
  - destruct (resizeListener (window w)) eqn:Hl.
    + destruct H as (Hc & _).
      destruct (resize_consistent w width Hl Hc) as (_ & Hc1 & _).
      split; [exact Hc1 |]. rewrite (resize_heard w width Hl). cbn. lia.
    + rewrite (resize_unheard w width Hl).
      exact (timersSound_frame w _ eq_refl eq_refl H).
  - unfold handle.
    destruct (find (fun t => timerId t =? id) (timers (window w))) as [t |] eqn:Hf.
    2: { unfold dispatch, bind, get. rewrite Hf. exact H. }
    pose proof (find_some _ _ Hf) as (_ & Hid).
    apply Z.eqb_eq in Hid. subst id. rewrite (fire_pending w t Hf).
    pose proof (timersSound_remove w (timerId t) H) as H1.
    set (w1 := set_window (removeTimer (timerId t) (window w)) w) in *.
    destruct (callback t); cbn [runCallback].
    + apply start_timersSound, H1.
    + apply animate_timersSound, H1.
    + unfold bind, get, clearTimeout, onWindow, modify, ret.
      destruct (debounceTimeout w1) as [d |] eqn:Hd; cbv beta iota.
      * apply handleResponsive_timersSound, timersSound_remove, H1.
      * apply handleResponsive_timersSound, H1.
  - exact (timersSound_frame w _ eq_refl eq_refl H).
  - unfold handle. cbn [dispatch]. apply start_timersSound, H.
  - unfold handle. cbn [dispatch].
    exact (timersSound_frame w _ (stop_schedule w) (stop_debounceTimeout w) H).
  - unfold handle. cbn [dispatch].
    exact (timersSound_frame w _ (destroy_schedule w)
             (destroy_debounceTimeout w) H).
Qed.

Lemma construct_schedule_built (el : Element) (given : Overrides) (g : Window)
  (text : jsstring) (cursor : list (string * string)) :
  textChild el = Some text ->
  cursorChild el = Some cursor ->
  exists w,
    construct el given g = Ok tt w
    /\ debounceTimeout w = None
    /\ schedule w =
       (timers g ++ [{| timerId := nextTimer g; callback := CbStart; delay := 300 |}],
        nextTimer g + 1).
Proof.
  intros Htext Hcursor. unfold construct, bind at 1, get.
  cbn [newWidget element]. rewrite Htext, Hcursor.
  unfold_js. cbn. rewrite Hcursor. cbn.
  match goal with
  | |- context [innerWidth g <? ?bp] => destruct (innerWidth g <? bp)
  end;
    cbn; (eexists; split; [reflexivity |]); split; reflexivity.
Qed.

Lemma construct_schedule (el : Element) (given : Overrides) (g : Window) :
  debounceTimeout (after (construct el given g)) = None
  /\ (schedule (after (construct el given g)) = (timers g, nextTimer g)
      \/ schedule (after (construct el given g)) =
         (timers g ++ [{| timerId := nextTimer g; callback := CbStart; delay := 300 |}],
          nextTimer g + 1)).
Proof.
  destruct (textChild el) as [text |] eqn:Htext.
  2: { rewrite construct_inert by (left; exact Htext).
       split; [reflexivity | left; reflexivity]. }
  destruct (cursorChild el) as [cursor |] eqn:Hcursor.
  2: { rewrite construct_inert by (right; exact Hcursor).
       split; [reflexivity | left; reflexivity]. }
  destruct (construct_schedule_built el given g text cursor Htext Hcursor)
    as (w & -> & Hd & Hs).
  cbn [after]. split; [exact Hd | right; exact Hs].
Qed.

(** Timer bookkeeping holds up: on a page whose pending timers have ids that
    were given out and are not debounce timers, every widget reached from the
    constructor has consistent timers: no pending timer carries an id still
    to be given out, and the pending debounce timers are exactly the timers
    with the handle the debounced function remembers.  So the debounce
    property holds at every reachable widget. *)
Theorem timers_consistent_reachable (el : Element) (given : Overrides)
  (g : Window) (events : list Event) :
  Forall (fun t => timerId t < nextTimer g) (timers g) ->
  Forall (fun t => isLater t = false) (timers g) ->
  timersConsistent (play events (after (construct el given g))).
Proof.
  intros Hids Hnone.
  assert (Hnew : timersSound (newWidget el given g)).
  { split; [split; [exact Hids |] | exact I].
    cbn. eapply Forall_impl; [| exact Hnone]. cbn. intros t Ht. rewrite Ht.
    split; discriminate. }
  assert (Hbuilt : timersSound (after (construct el given g))).
  { destruct (construct_schedule el given g) as (Hd & [Hs | Hs]).
    - exact (timersSound_frame (newWidget el given g) _ Hs Hd Hnew).
    - apply (timersSound_add (newWidget el given g) _ CbStart 300%float Hs Hd);
        [discriminate | exact Hnew]. }
  assert (Hplay : forall evs w, timersSound w -> timersSound (play evs w)).
  { induction evs as [| ev rest IH]; intros w Hw; [exact Hw |].
    change (play (ev :: rest) w) with (play rest (handle w ev)).
    apply IH, handle_timersSound, Hw. }
  exact (proj1 (Hplay events _ Hbuilt)).
Qed.

(** The running example on the empty page. *)
Lemma timers_consistent_reachable_witness :
  Forall (fun t => timerId t < nextTimer (page 1024)) (timers (page 1024))
  /\ Forall (fun t => isLater t = false) (timers (page 1024))
  /\ timersConsistent
       (play [Fire 1; Resize 500; Fire 2; Fire 3]
          (after (construct rustHost noOverrides (page 1024)))).
Proof.
  assert (H1 : Forall (fun t => timerId t < nextTimer (page 1024))
                 (timers (page 1024))) by constructor.
  assert (H2 : Forall (fun t => isLater t = false) (timers (page 1024)))
    by constructor.
  split; [exact H1 |]. split; [exact H2 |].
  exact (timers_consistent_reachable rustHost noOverrides (page 1024)
           [Fire 1; Resize 500; Fire 2; Fire 3] H1 H2).
Defined.
